(** * Shallow embedding of the attio-tools migration and de-duplication scripts

    Sources embedded here:
    - [crm_migration/migrate.py]: [APIClient], [extract_records],
      [flatten_record], [execute_migration], [MigrationLogger];
    - [find_duplicates.py]: [process_people];
    - [merge_duplicates.py]: [delete_record], [update_company_domains], [main].

    Python values are an inductive type of JSON-like data, dictionaries are
    insertion-ordered association lists, exceptions are a sum type, and the
    network, the clock ([time.sleep]) and the logger are explicit state. *)

From Stdlib Require Import ZArith String Ascii List Bool Lia.
From stdpp Require Import base decidable list strings pretty gmap.
Import ListNotations.
Local Open Scope string_scope.
Local Open Scope Z_scope.
Set Warnings "-register-all".

(** ** Strings: the [str] methods the scripts call *)

Definition ascii_eqb (a b : ascii) : bool := Ascii.eqb a b.

(** A [str] is kept as the bytes of its UTF-8 form.  The methods that look at
    single characters, [strip] and [lower], are modelled on ASCII text, where
    they are exact; statements that depend on what they do beyond it carry the
    hypothesis [is_ascii]. *)

(** [str.isspace] on the ASCII range: TAB, LF, VT, FF, CR, FS, GS, RS, US, SPACE. *)
Definition is_space (c : ascii) : bool :=
  let n := nat_of_ascii c in
  ((9 <=? n) && (n <=? 13) || (28 <=? n) && (n <=? 32))%nat.

Definition str_is_empty (s : string) : bool :=
  match s with EmptyString => true | String _ _ => false end.

(** [s.lstrip()] of ASCII text *)
Fixpoint py_lstrip (s : string) : string :=
  match s with
  | EmptyString => EmptyString
  | String a s' => if is_space a then py_lstrip s' else s
  end.

(** [s.rstrip()] of ASCII text *)
Fixpoint py_rstrip (s : string) : string :=
  match s with
  | EmptyString => EmptyString
  | String a s' =>
      let r := py_rstrip s' in
      if is_space a && str_is_empty r then EmptyString else String a r
  end.

(** [s.strip()] of ASCII text ([str.strip] also removes the white space
    beyond ASCII, such as U+00A0) *)
Definition py_strip (s : string) : string := py_rstrip (py_lstrip s).

(** [s.rstrip(c)] for a one-character argument *)
Fixpoint py_rstrip_char (c : ascii) (s : string) : string :=
  match s with
  | EmptyString => EmptyString
  | String a s' =>
      let r := py_rstrip_char c s' in
      if ascii_eqb a c && str_is_empty r then EmptyString else String a r
  end.

(** [s.lstrip(c)] for a one-character argument *)
Fixpoint py_lstrip_char (c : ascii) (s : string) : string :=
  match s with
  | EmptyString => EmptyString
  | String a s' => if ascii_eqb a c then py_lstrip_char c s' else s
  end.

(** [s.split(c)] for a one-character separator: never the empty list. *)
Fixpoint py_split (c : ascii) (s : string) : list string :=
  match s with
  | EmptyString => [EmptyString]
  | String a s' =>
      if ascii_eqb a c then EmptyString :: py_split c s'
      else match py_split c s' with
           | h :: t => String a h :: t
           | [] => [String a EmptyString]
           end
  end.

(** [s.split(c, 1)]: at most one cut, at the first occurrence of [c]. *)
Fixpoint py_split1 (c : ascii) (s : string) : list string :=
  match s with
  | EmptyString => [EmptyString]
  | String a s' =>
      if ascii_eqb a c then [EmptyString; s']
      else match py_split1 c s' with
           | h :: t => String a h :: t
           | [] => [String a EmptyString]
           end
  end.

(** [sub in s] *)
Fixpoint py_contains (sub s : string) : bool :=
  String.prefix sub s ||
  match s with
  | EmptyString => false
  | String _ s' => py_contains sub s'
  end.

(** [c in s] for one character *)
Fixpoint py_contains_char (c : ascii) (s : string) : bool :=
  match s with
  | EmptyString => false
  | String a s' => ascii_eqb a c || py_contains_char c s'
  end.

Definition lower_ascii (c : ascii) : ascii :=
  let n := nat_of_ascii c in
  if ((65 <=? n) && (n <=? 90))%nat then ascii_of_nat (n + 32) else c.

(** [s.lower()] of ASCII text ([str.lower] also lowers the letters beyond
    ASCII, such as U+00C9) *)
Fixpoint py_lower (s : string) : string :=
  match s with
  | EmptyString => EmptyString
  | String a s' => String (lower_ascii a) (py_lower s')
  end.

(** The text holds ASCII characters only. *)
Fixpoint is_ascii (s : string) : bool :=
  match s with
  | EmptyString => true
  | String a s' => (nat_of_ascii a <? 128)%nat && is_ascii s'
  end.

(** [l[-1]] of a list of strings that is known not to be empty ([split]) *)
Definition last_segment (l : list string) : string := List.last l EmptyString.

(** [l[0]] of a list of strings that is known not to be empty ([split]) *)
Definition first_segment (l : list string) : string := List.hd EmptyString l.

(** [sep.join(l)] *)
Fixpoint py_join (sep : string) (l : list string) : string :=
  match l with
  | [] => EmptyString
  | [x] => x
  | x :: rest => x +:+ sep +:+ py_join sep rest
  end.

(** ** Python values *)

(** JSON-shaped data as the scripts receive and build it.  A [float] is kept
    as its printed form; a [dict] keeps insertion order and has [str] keys. *)
Inductive pyval : Type :=
| PNone
| PBool (b : bool)
| PInt (z : Z)
| PFloat (printed : string)
| PStr (s : string)
| PList (l : list pyval)
| PDict (d : list (string * pyval)).

Definition pydict : Type := list (string * pyval).

(** [d.get(k)] on the association list *)
Fixpoint dict_lookup (k : string) (d : pydict) : option pyval :=
  match d with
  | [] => None
  | (k', v) :: rest => if String.eqb k k' then Some v else dict_lookup k rest
  end.

(** [d[k] = v]: an existing key keeps its position, a new key goes last. *)
Fixpoint dict_set (k : string) (v : pyval) (d : pydict) : pydict :=
  match d with
  | [] => [(k, v)]
  | (k', v') :: rest =>
      if String.eqb k k' then (k', v) :: rest else (k', v') :: dict_set k v rest
  end.

Definition dict_has (k : string) (d : pydict) : bool :=
  match dict_lookup k d with Some _ => true | None => false end.

(** [d.get(k, default)] *)
Definition dict_get_default (k : string) (default : pyval) (d : pydict) : pyval :=
  match dict_lookup k d with Some v => v | None => default end.

(** Truth value of a Python object ([if v:]). *)
Definition py_truthy (v : pyval) : bool :=
  match v with
  | PNone => false
  | PBool b => b
  | PInt z => negb (z =? 0)
  | PFloat p => negb (String.eqb p "0.0" || String.eqb p "-0.0")
  | PStr s => negb (str_is_empty s)
  | PList l => match l with [] => false | _ => true end
  | PDict d => match d with [] => false | _ => true end
  end.

Definition type_name (v : pyval) : string :=
  match v with
  | PNone => "NoneType"
  | PBool _ => "bool"
  | PInt _ => "int"
  | PFloat _ => "float"
  | PStr _ => "str"
  | PList _ => "list"
  | PDict _ => "dict"
  end.

(** [isinstance(v, dict)], [isinstance(v, str)], [isinstance(v, list)] *)
Definition is_dict (v : pyval) : bool := match v with PDict _ => true | _ => false end.
Definition is_str (v : pyval) : bool := match v with PStr _ => true | _ => false end.
Definition is_list (v : pyval) : bool := match v with PList _ => true | _ => false end.

(** [value is not None] and [value] is not the empty string *)
Definition non_empty_value (v : pyval) : bool :=
  match v with
  | PNone => false
  | PStr s => negb (str_is_empty s)
  | _ => true
  end.

(** *** [repr] and [str] *)

(** [repr] is modelled on ASCII text, where it is exact; beyond it Python
    also escapes the characters that cannot be printed, such as U+00A0. *)

Definition hex_digit (n : nat) : ascii :=
  if (n <? 10)%nat then ascii_of_nat (48 + n) else ascii_of_nat (87 + n).

Definition repr_char (quote : ascii) (c : ascii) : string :=
  let n := nat_of_ascii c in
  if ascii_eqb c "\"%char then "\\"
  else if ascii_eqb c quote then String "\"%char (String c EmptyString)
  else if (n =? 10)%nat then "\n"
  else if (n =? 13)%nat then "\r"
  else if (n =? 9)%nat then "\t"
  else if ((n <? 32) || (n =? 127))%nat then
    String "\"%char (String "x"%char
      (String (hex_digit (n / 16)) (String (hex_digit (n mod 16)) EmptyString)))
  else String c EmptyString.

Fixpoint repr_chars (quote : ascii) (s : string) : string :=
  match s with
  | EmptyString => EmptyString
  | String a s' => repr_char quote a +:+ repr_chars quote s'
  end.

Definition single_quote : ascii := ascii_of_nat 39.
Definition double_quote : ascii := ascii_of_nat 34.

(** [repr(s)] of a [str]: single quotes unless the text has a single quote and
    no double quote. *)
Definition repr_str (s : string) : string :=
  let q := if py_contains_char single_quote s && negb (py_contains_char double_quote s)
           then double_quote else single_quote in
  String q (repr_chars q s) +:+ String q EmptyString.

Fixpoint py_repr (v : pyval) : string :=
  match v with
  | PNone => "None"
  | PBool true => "True"
  | PBool false => "False"
  | PInt z => pretty z
  | PFloat p => p
  | PStr s => repr_str s
  | PList l => "[" +:+ py_join ", " (List.map py_repr l) +:+ "]"
  | PDict d =>
      "{" +:+ py_join ", "
        (List.map (fun kv => repr_str (fst kv) +:+ ": " +:+ py_repr (snd kv)) d) +:+ "}"
  end.

(** [str(v)], also what an f-string field [{v}] prints. *)
Definition py_str (v : pyval) : string :=
  match v with
  | PStr s => s
  | _ => py_repr v
  end.

(** ** Exceptions, HTTP and effects *)

(** The body of an HTTP response as [Response.json()] sees it. *)
Inductive body : Type :=
| NotJSON (err : string)
| JSON (v : pyval).

(** [requests.Response] *)
Record Response : Type := mkResponse {
  status_code : Z;
  reason : string;
  url : string;
  json_body : body;
  text : string
}.

Inductive exn : Type :=
| HTTPError (msg : string) (response : Response)
| RequestException (msg : string)
| JSONDecodeError (msg : string)
| KeyError (key : pyval)
| TypeError (msg : string)
| AttributeError (msg : string)
| IndexError (msg : string).

(** The three [requests.exceptions] classes, all below [RequestException]. *)
Definition is_request_exception (e : exn) : bool :=
  match e with
  | HTTPError _ _ | RequestException _ | JSONDecodeError _ => true
  | _ => false
  end.

(** [str(e)] *)
Definition exn_str (e : exn) : string :=
  match e with
  | HTTPError msg _ | RequestException msg | JSONDecodeError msg => msg
  | KeyError k => py_repr k
  | TypeError msg | AttributeError msg | IndexError msg => msg
  end.

(** [e.response] when [hasattr(e, 'response') and e.response is not None] *)
Definition exn_response (e : exn) : option Response :=
  match e with HTTPError _ r => Some r | _ => None end.

Inductive result (A : Type) : Type :=
| Ok (a : A)
| Raise (e : exn).
Arguments Ok {A} a.
Arguments Raise {A} e.

Definition is_ok {A} (r : result A) : bool :=
  match r with Ok _ => true | Raise _ => false end.

Definition no_attribute (v : pyval) (attr : string) : exn :=
  AttributeError ("'" +:+ type_name v +:+ "' object has no attribute '" +:+ attr +:+ "'").

(** [Response.raise_for_status()] *)
Definition raise_for_status (r : Response) : result unit :=
  if (400 <=? status_code r) && (status_code r <? 500) then
    Raise (HTTPError (pretty (status_code r) +:+ " Client Error: " +:+ reason r
                        +:+ " for url: " +:+ url r) r)
  else if (500 <=? status_code r) && (status_code r <? 600) then
    Raise (HTTPError (pretty (status_code r) +:+ " Server Error: " +:+ reason r
                        +:+ " for url: " +:+ url r) r)
  else Ok tt.

(** [bool(response)], that is [Response.ok] *)
Definition response_ok (r : Response) : bool := is_ok (raise_for_status r).

(** [Response.json()] *)
Definition response_json (r : Response) : result pyval :=
  match json_body r with
  | JSON v => Ok v
  | NotJSON err => Raise (JSONDecodeError err)
  end.

(** One call of [requests.request] / [Session.request]. *)
Record http_request : Type := mkRequest {
  req_method : string;
  req_url : string;
  req_headers : list (string * string);
  req_json : option pyval;
  req_params : option pydict;
  req_timeout : option Z
}.

(** What the network gives back for one call: a response of any status, or a
    transport failure ([ConnectionError], [Timeout], ...) with its message. *)
Inductive outcome : Type :=
| Responded (r : Response)
| Failed (msg : string).

(** What the scripts do to the outside world, in order. *)
Inductive event : Type :=
| Sent (r : http_request) (o : outcome)
| Slept (milliseconds : Z).

(** [time.sleep(n)] for whole seconds *)
Definition seconds (n : Z) : Z := 1000 * n.

(** The remote services: a state and what one call does to it. *)
Class Server (W : Type) : Type :=
  send : http_request -> W -> outcome * W.

Section Effects.
Context {W : Type} `{Server W}.

(** A computation reads and changes the services, emits events, and returns
    or raises; effects done before a raise stay done. *)
Definition M (A : Type) : Type := W -> result A * W * list event.

Definition ret {A} (a : A) : M A := fun w => (Ok a, w, []).

Definition raise {A} (e : exn) : M A := fun w => (Raise e, w, []).

Definition bind {A B} (c : M A) (k : A -> M B) : M B :=
  fun w =>
    match c w with
    | (Ok a, w1, t1) => let '(r, w2, t2) := k a w1 in (r, w2, (t1 ++ t2)%list)
    | (Raise e, w1, t1) => (Raise e, w1, t1)
    end.

(** [try: c], with the exception, if any, handed to the continuation. *)
Definition try {A} (c : M A) : M (result A) :=
  fun w => let '(r, w1, t1) := c w in (Ok r, w1, t1).

Definition lift {A} (r : result A) : M A := fun w => (r, w, []).

Definition sleep (ms : Z) : M unit := fun w => (Ok tt, w, [Slept ms]).

(** [requests.request(...)]: returns the response or raises the transport
    failure. *)
Definition http (r : http_request) : M Response :=
  fun w =>
    match send r w with
    | (Responded resp, w1) => (Ok resp, w1, [Sent r (Responded resp)])
    | (Failed msg, w1) => (Raise (RequestException msg), w1, [Sent r (Failed msg)])
    end.
End Effects.
Arguments M : clear implicits.

Declare Scope py_scope.
Delimit Scope py_scope with py.
Notation "'do' x <- c ; k" := (bind c (fun x => k))
  (at level 10, x name, c at level 100, k at level 200) : py_scope.
Notation "'run' c ; k" := (bind c (fun _ => k))
  (at level 10, c at level 100, k at level 200) : py_scope.
Local Open Scope py_scope.

(** The pure part of the same monad: [result]. *)
Definition rbind {A B} (r : result A) (k : A -> result B) : result B :=
  match r with Ok a => k a | Raise e => Raise e end.
Notation "'try!' x <- r ; k" := (rbind r (fun x => k))
  (at level 10, x name, r at level 100, k at level 200) : py_scope.

(** *** Dynamic operations that may raise *)

(** [v.get(k, default)] *)
Definition py_get (v : pyval) (k : string) (default : pyval) : result pyval :=
  match v with
  | PDict d => Ok (dict_get_default k default d)
  | _ => Raise (no_attribute v "get")
  end.

(** [v[k]] for a string key *)
Definition py_getitem (v : pyval) (k : string) : result pyval :=
  match v with
  | PDict d => match dict_lookup k d with
               | Some x => Ok x
               | None => Raise (KeyError (PStr k))
               end
  | PList _ => Raise (TypeError "list indices must be integers or slices, not str")
  | PStr _ => Raise (TypeError "string indices must be integers, not 'str'")
  | _ => Raise (TypeError ("'" +:+ type_name v +:+ "' object is not subscriptable"))
  end.

(** [v[0]] *)
Definition py_first (v : pyval) : result pyval :=
  match v with
  | PList (x :: _) => Ok x
  | PList [] => Raise (IndexError "list index out of range")
  | PStr (String a _) => Ok (PStr (String a EmptyString))
  | PStr EmptyString => Raise (IndexError "string index out of range")
  | PDict _ => Raise (KeyError (PInt 0))
  | _ => Raise (TypeError ("'" +:+ type_name v +:+ "' object is not subscriptable"))
  end.

Fixpoint chars (s : string) : list pyval :=
  match s with
  | EmptyString => []
  | String a s' => PStr (String a EmptyString) :: chars s'
  end.

(** The items a [for x in v] loop visits. *)
Definition py_iter (v : pyval) : result (list pyval) :=
  match v with
  | PList l => Ok l
  | PDict d => Ok (List.map (fun kv => PStr (fst kv)) d)
  | PStr s => Ok (chars s)
  | _ => Raise (TypeError ("'" +:+ type_name v +:+ "' object is not iterable"))
  end.

Definition pyval_is_str (k : string) (v : pyval) : bool :=
  match v with PStr s => String.eqb s k | _ => false end.

(** [k in v] for a string [k] *)
Definition py_in (k : string) (v : pyval) : result bool :=
  match v with
  | PDict d => Ok (dict_has k d)
  | PList l => Ok (List.existsb (pyval_is_str k) l)
  | PStr s => Ok (py_contains k s)
  | _ => Raise (TypeError ("argument of type '" +:+ type_name v +:+ "' is not iterable"))
  end.

(** [for x in l: body], stopping at the first exception. *)
Fixpoint for_each {W A} (l : list A) (body : A -> M W unit) : M W unit :=
  match l with
  | [] => ret tt
  | x :: rest => run body x; for_each rest body
  end.

(** [range(n)] *)
Definition py_range (n : Z) : list Z := List.map Z.of_nat (List.seq 0 (Z.to_nat n)).

(** ** crm_migration/migrate.py *)

Module migrate.

(** The module-level settings read from the environment. *)
Record Config : Type := mkConfig {
  BATCH_SIZE : Z;
  REQUEST_TIMEOUT : Z;
  MAX_RETRIES : Z
}.

Record APIClient : Type := mkClient {
  base_url : string;
  headers : list (string * string);
  name : string
}.

(** [APIClient.__init__] *)
Definition new_client (base_url : string) (headers : list (string * string))
    (name : string) : APIClient :=
  mkClient (py_rstrip_char "/" base_url) headers name.

(** The defaults of lines 42-44. *)
Definition default_config : Config := mkConfig 50 30 3.

(** The Attio client of [test_connections], line 284. *)
Definition attio (token : string) : APIClient :=
  new_client "https://api.attio.com/v2"
    [("Authorization", "Bearer " +:+ token); ("Content-Type", "application/json")]
    "Attio CRM".

(** The Twenty client of [test_connections], line 266. *)
Definition twenty (base_url key : string) : APIClient :=
  new_client base_url
    [("Authorization", "Bearer " +:+ key); ("Content-Type", "application/json")]
    "Twenty CRM".

(** The keyword arguments the callers pass through to [Session.request]. *)
Record kwargs : Type := mkKwargs {
  kw_json : option pyval;
  kw_params : option pydict;
  kw_timeout : option Z
}.

Definition no_kwargs : kwargs := mkKwargs None None None.

(** *** MigrationLogger (the wall-clock [timestamp] column is left out) *)

Record success_record : Type := mkSuccess {
  s_twenty_id : pyval;
  s_attio_id : pyval;
  s_record_data : pyval
}.

Record failure_record : Type := mkFailure {
  f_twenty_id : pyval;
  f_error : string;
  f_record_data : pyval
}.

Record MigrationLogger : Type := mkLogger {
  success_count : Z;
  error_count : Z;
  skipped_count : Z;
  successful_records : list success_record;
  failed_records : list failure_record
}.

(** [MigrationLogger.__init__] *)
Definition new_logger : MigrationLogger := mkLogger 0 0 0 [] [].

Definition log_success (self : MigrationLogger) (twenty_id attio_id record_data : pyval)
    : MigrationLogger :=
  mkLogger (success_count self + 1) (error_count self) (skipped_count self)
    (successful_records self ++ [mkSuccess twenty_id attio_id record_data])
    (failed_records self).

Definition log_error (self : MigrationLogger) (twenty_id : pyval) (error_message : string)
    (record_data : pyval) : MigrationLogger :=
  mkLogger (success_count self) (error_count self + 1) (skipped_count self)
    (successful_records self)
    (failed_records self ++ [mkFailure twenty_id error_message record_data]).

(** *** flatten_record *)

(** [record.copy()] *)
Definition py_copy (v : pyval) : result pyval :=
  match v with
  | PDict _ | PList _ => Ok v
  | _ => Raise (no_attribute v "copy")
  end.

(** [flat[k] = x] *)
Definition py_setitem (flat : pyval) (k : string) (x : pyval) : result pyval :=
  match flat with
  | PDict d => Ok (PDict (dict_set k x d))
  | PList _ => Raise (TypeError "list indices must be integers or slices, not str")
  | _ => Raise (TypeError ("'" +:+ type_name flat +:+ "' object does not support item assignment"))
  end.

(** The cleaning of a non-empty X/Twitter link, lines 468-485. *)
Definition clean_handle (x_url : string) : string :=
  let cleaned := py_strip x_url in
  let cleaned :=
    if py_contains "twitter.com/" cleaned || py_contains "x.com/" cleaned then
      let cleaned := last_segment (py_split "/" (py_rstrip_char "/" cleaned)) in
      first_segment (py_split "?" cleaned)
    else cleaned in
  if py_contains "." cleaned then first_segment (py_split "." cleaned) else cleaned.

Definition flatten_record (record : pyval) : result pyval :=
  try! flat <- py_copy record;
  (* Flatten Name *)
  try! name <- py_get record "name" (PDict []);
  try! flat <-
    (if is_dict name then
       try! first <- py_get name "firstName" (PStr EmptyString);
       try! last <- py_get name "lastName" (PStr EmptyString);
       py_setitem flat "name_full" (PStr (py_strip (py_str first +:+ " " +:+ py_str last)))
     else Ok flat);
  (* Flatten Email *)
  try! emails <- py_get record "emails" (PDict []);
  try! flat <-
    (if is_dict emails then
       try! primary <- py_get emails "primaryEmail" (PStr EmptyString);
       py_setitem flat "email_primary" primary
     else Ok flat);
  (* Flatten Social Links *)
  try! linkedin <- py_get record "linkedinLink" (PDict []);
  try! flat <-
    (if is_dict linkedin then
       try! link <- py_get linkedin "primaryLinkUrl" (PStr EmptyString);
       py_setitem flat "linkedin_url" link
     else Ok flat);
  try! x_link <- py_get record "xLink" (PDict []);
  if is_dict x_link then
    try! x_url <- py_get x_link "primaryLinkUrl" (PStr EmptyString);
    try! x_url <-
      (if py_truthy x_url then
         match x_url with
         | PStr s => Ok (PStr (clean_handle s))
         | _ => Raise (no_attribute x_url "strip")
         end
       else Ok x_url);
    py_setitem flat "x_url" x_url
  else Ok flat.

(** [[f(r) for r in l]], stopping at the first exception. *)
Fixpoint map_result {A B} (f : A -> result B) (l : list A) : result (list B) :=
  match l with
  | [] => Ok []
  | x :: rest =>
      try! y <- f x;
      try! ys <- map_result f rest;
      Ok (y :: ys)
  end.

(** *** The payload of one record, lines 550-609 *)

Definition social_fields : list string :=
  ["linkedin"; "twitter"; "facebook"; "instagram"; "angellist"].

Definition location_object (value : pyval) : pyval :=
  PDict [("line_1", PStr EmptyString); ("line_2", PStr EmptyString); ("line_3", PStr EmptyString);
         ("line_4", PStr EmptyString); ("locality", value); ("region", PStr EmptyString);
         ("postcode", PStr EmptyString); ("country_code", PNone); ("latitude", PNone);
         ("longitude", PNone)].

Definition encode_field (target_field : string) (value : pyval) : pyval :=
  if String.eqb target_field "name" then
    let parts := py_split1 " " (py_str value) in
    let first_name := first_segment parts in
    let last_name := match parts with _ :: l :: _ => l | _ => EmptyString end in
    PList [PDict [("full_name", value); ("first_name", PStr first_name);
                  ("last_name", PStr last_name)]]
  else if String.eqb target_field "email_addresses" then
    PList [PDict [("email_address", value)]]
  else if String.eqb target_field "primary_location" then
    PList [location_object value]
  else if List.existsb (String.eqb target_field) social_fields then
    PList [PDict [("value", value)]]
  else if is_str value then PList [PDict [("value", value)]] else value.

Definition add_field (record : pydict) (values : pydict) (item : string * string) : pydict :=
  let '(source_field, target_field) := item in
  let value := dict_get_default source_field PNone record in
  if non_empty_value value then dict_set target_field (encode_field target_field value) values
  else values.

(** [payload["values"]] after the loop over [mapping.items()] *)
Definition build_values (record : pydict) (mapping : list (string * string)) : pydict :=
  List.fold_left (add_field record) mapping [].

Definition build_payload (record : pydict) (mapping : list (string * string)) : pyval :=
  PDict [("values", PDict (build_values record mapping))].

(** The pre-defined mapping for the People object, lines 407-414. *)
Definition people_mapping : list (string * string) :=
  [("name_full", "name"); ("email_primary", "email_addresses"); ("jobTitle", "job_title");
   ("city", "primary_location"); ("linkedin_url", "linkedin"); ("x_url", "twitter")].

(** [response] in [execute_migration] is what [request] returned on the PUT
    path and what [post] returned, already parsed, on the two POST paths. *)
Inductive client_response : Type :=
| FromRequest (r : option Response)
| FromPost (v : pyval).

(** [if response:] *)
Definition response_truthy (response : client_response) : bool :=
  match response with
  | FromRequest (Some r) => response_ok r
  | FromRequest None => false
  | FromPost v => py_truthy v
  end.

(** [response.json()] *)
Definition call_json (response : client_response) : result pyval :=
  match response with
  | FromRequest (Some r) => response_json r
  | FromRequest None => Raise (no_attribute PNone "json")
  | FromPost v => Raise (no_attribute v "json")
  end.

(** Lines 643-651: [Some id] when [resp_data] has a ['data'] key. *)
Definition record_id_of (resp_data : pyval) : result (option pyval) :=
  try! has_data <- py_in "data" resp_data;
  if has_data then
    try! data <- py_getitem resp_data "data";
    try! id <- py_get data "id" (PDict []);
    try! record_id <- py_get id "record_id" PNone;
    Ok (Some record_id)
  else Ok None.

(** Lines 639-656 *)
Definition log_response (logger : MigrationLogger) (twenty_id payload : pyval)
    (response : client_response) : MigrationLogger :=
  if response_truthy response then
    match (try! resp_data <- call_json response; record_id_of resp_data) with
    | Ok (Some attio_id) => log_success logger twenty_id attio_id payload
    | Ok None => log_success logger twenty_id (PStr "upserted") payload
    | Raise _ => log_success logger twenty_id (PStr "upserted-no-content") payload
    end
  else log_error logger twenty_id "No response or empty response" payload.

(** Lines 659-665 *)
Definition error_message (e : exn) : string :=
  let error_msg := exn_str e in
  match exn_response e with
  | Some r => error_msg +:+ " | Response: " +:+ text r
  | None => error_msg
  end.

(** [if "email_addresses" in payload["values"] and payload["values"]["email_addresses"]] *)
Definition has_email (values : pydict) : bool :=
  dict_has "email_addresses" values
  && py_truthy (dict_get_default "email_addresses" PNone values).

Section Client.
Context {W : Type} `{Server W} (cfg : Config).

(** The body of the [try] in [APIClient.request]. *)
Definition attempt_once (req : http_request) : M W Response :=
  do response <- http req;
  run lift (raise_for_status response);
  ret response.

(** The [for attempt in range(MAX_RETRIES)] loop and the [return None]
    after it. *)
Fixpoint retry_loop (req : http_request) (attempts : list Z) : M W (option Response) :=
  match attempts with
  | [] => ret None
  | attempt :: rest =>
      do r <- try (attempt_once req);
      match r with
      | Ok response => ret (Some response)
      | Raise e =>
          if is_request_exception e then
            if attempt =? MAX_RETRIES cfg - 1 then raise e
            else run sleep (seconds (2 ^ attempt)); retry_loop req rest
          else raise e
      end
  end.

Definition request_of (self : APIClient) (method endpoint : string) (kw : kwargs)
    : http_request :=
  mkRequest method (base_url self +:+ "/" +:+ py_lstrip_char "/" endpoint)
    (headers self) (kw_json kw) (kw_params kw)
    (match kw_timeout kw with
     | Some t => Some t
     | None => Some (REQUEST_TIMEOUT cfg)
     end).

(** [APIClient.request] *)
Definition request (self : APIClient) (method endpoint : string) (kw : kwargs)
    : M W (option Response) :=
  retry_loop (request_of self method endpoint kw) (py_range (MAX_RETRIES cfg)).

(** [response.json() if response else None] *)
Definition json_or_none (response : option Response) : M W pyval :=
  match response with
  | Some r => if response_ok r then lift (response_json r) else ret PNone
  | None => ret PNone
  end.

(** [APIClient.get] *)
Definition get (self : APIClient) (endpoint : string) (kw : kwargs) : M W pyval :=
  do response <- request self "GET" endpoint kw;
  json_or_none response.

(** [APIClient.post] *)
Definition post (self : APIClient) (endpoint : string) (data : pyval) (kw : kwargs)
    : M W pyval :=
  do response <- request self "POST" endpoint
                   (mkKwargs (Some data) (kw_params kw) (kw_timeout kw));
  json_or_none response.

(** Lines 370-377: the batch of a page. *)
Definition page_batch (object_name : string) (response : pyval) : result pyval :=
  try! data <- py_get response "data" (PDict []);
  match data with
  | PList _ => Ok data
  | PDict d => Ok (dict_get_default object_name (PList []) d)
  | _ => Ok (PList [])
  end.

(** [not response or 'data' not in response] *)
Definition lacks_data (response : pyval) : result bool :=
  if negb (py_truthy response) then Ok true
  else try! has_data <- py_in "data" response; Ok (negb has_data).

(** The [while True] loop of [extract_records]; [None] when [fuel] pages
    were fetched and the source still handed out a cursor. *)
Fixpoint extract_loop (fuel : nat) (client : APIClient) (object_name : string)
    (cursor : pyval) (page : Z) (records : list pyval) : M W (option (list pyval)) :=
  match fuel with
  | O => ret None
  | S fuel' =>
      let endpoint := "/rest/" +:+ object_name in
      let params := [("limit", PInt (BATCH_SIZE cfg))] in
      let params := if py_truthy cursor then dict_set "cursor" cursor params else params in
      do response <- get client endpoint (mkKwargs None (Some params) None);
      do stop <- lift (lacks_data response);
      if stop then ret (Some records)
      else
        do batch <- lift (page_batch object_name response);
        if negb (py_truthy batch) then ret (Some records)
        else
          do flat_batch <- lift (try! items <- py_iter batch; map_result flatten_record items);
          let records := (records ++ flat_batch)%list in
          do meta <- lift (py_get response "meta" (PDict []));
          do cursor <- lift (py_get meta "next_cursor" PNone);
          if negb (py_truthy cursor) then ret (Some records)
          else extract_loop fuel' client object_name cursor (page + 1) records
  end.

(** [extract_records], run for at most [fuel] pages. *)
Definition extract_records (fuel : nat) (client : APIClient) (object_name : string)
    : M W (option (list pyval)) :=
  extract_loop fuel client object_name PNone 1 [].

(** Lines 620-637: the write of one payload. *)
Definition send_payload (attio_client : APIClient) (target_object : string)
    (payload : pyval) (values : pydict) : M W client_response :=
  let endpoint := "/objects/" +:+ target_object +:+ "/records" in
  if String.eqb target_object "people" then
    if has_email values then
      do response <- request attio_client "PUT" endpoint
                       (mkKwargs (Some (PDict [("data", payload)]))
                          (Some [("matching_attribute", PStr "email_addresses")]) None);
      ret (FromRequest response)
    else
      do response <- post attio_client endpoint (PDict [("data", payload)]) no_kwargs;
      ret (FromPost response)
  else
    do response <- post attio_client endpoint (PDict [("data", payload)]) no_kwargs;
    ret (FromPost response).

(** The body of [for record in records], lines 547-668. *)
Definition migrate_record (attio_client : APIClient) (mapping : list (string * string))
    (target_object : string) (dry_run : bool) (logger : MigrationLogger)
    (record : pydict) : M W MigrationLogger :=
  let twenty_id := dict_get_default "id" (PStr "unknown") record in
  let values := build_values record mapping in
  let payload := PDict [("values", PDict values)] in
  if dry_run then
    run sleep 100;
    ret (log_success logger twenty_id (PStr "dry-run-id") payload)
  else
    do r <- try (do response <- send_payload attio_client target_object payload values;
                 ret (log_response logger twenty_id payload response));
    match r with
    | Ok logger' => ret logger'
    | Raise e => ret (log_error logger twenty_id (error_message e) payload)
    end.

(** [execute_migration] *)
Fixpoint execute_migration (attio_client : APIClient) (records : list pydict)
    (mapping : list (string * string)) (target_object : string)
    (logger : MigrationLogger) (dry_run : bool) : M W MigrationLogger :=
  match records with
  | [] => ret logger
  | record :: rest =>
      do logger' <- migrate_record attio_client mapping target_object dry_run logger record;
      execute_migration attio_client rest mapping target_object logger' dry_run
  end.
(** The fallback list of [fetch_available_objects], lines 343 and 345. *)
Definition default_objects : list pyval :=
  [PStr "people"; PStr "companies"; PStr "opportunities"; PStr "tasks"].

(** Lines 339-340: the names when [response and 'data' in response]. *)
Definition object_names (response : pyval) : result (option (list pyval)) :=
  if py_truthy response then
    try! has_data <- py_in "data" response;
    if has_data then
      try! data <- py_getitem response "data";
      try! items <- py_iter data;
      try! names <- map_result (fun obj => py_getitem obj "name") items;
      Ok (Some names)
    else Ok None
  else Ok None.

(** [fetch_available_objects] *)
Definition fetch_available_objects (client : APIClient) : M W (list pyval) :=
  do r <- try (do response <- get client "/metadata/objects" no_kwargs;
               lift (object_names response));
  match r with
  | Ok (Some names) => ret names
  | Ok None => ret default_objects
  | Raise _ => ret default_objects
  end.
End Client.
End migrate.

(** ** find_duplicates.py *)

Module find_duplicates.

(** [m[k].append(x)] on a [defaultdict(list)]: a new key goes last. *)
Fixpoint multimap_append (k : string) (x : pyval) (m : list (string * list pyval))
    : list (string * list pyval) :=
  match m with
  | [] => [(k, [x])]
  | (k', xs) :: rest =>
      if String.eqb k k' then (k', (xs ++ [x])%list) :: rest
      else (k', xs) :: multimap_append k x rest
  end.

(** [addr.lower()] *)
Definition py_lower_method (addr : pyval) : result string :=
  match addr with
  | PStr s => Ok (py_lower s)
  | _ => Raise (no_attribute addr "lower")
  end.

(** Lines 77-82: the lowercased, non-empty addresses of [email_vals]. *)
Fixpoint extract_emails (email_vals : list pyval) : result (list string) :=
  match email_vals with
  | [] => Ok []
  | e :: rest =>
      try! addr <- py_get e "email_address" PNone;
      if py_truthy addr then
        try! lowered <- py_lower_method addr;
        try! emails <- extract_emails rest;
        Ok (lowered :: emails)
      else extract_emails rest
  end.

(** Lines 71-74 *)
Definition extract_full_name (values : pyval) : result pyval :=
  try! name_vals <- py_get values "name" (PList []);
  if py_truthy name_vals then
    try! first <- py_first name_vals;
    py_get first "full_name" (PStr "Unknown")
  else Ok (PStr "Unknown").

(** One turn of [for r in records], lines 67-90. *)
Definition add_person (email_map : list (string * list pyval)) (r : pyval)
    : result (list (string * list pyval)) :=
  try! id <- py_getitem r "id";
  try! rid <- py_getitem id "record_id";
  try! values <- py_get r "values" (PDict []);
  try! full_name <- extract_full_name values;
  try! email_vals <- py_get values "email_addresses" (PList []);
  try! email_items <- py_iter email_vals;
  try! emails <- extract_emails email_items;
  try! created_at <- py_get r "created_at" PNone;
  let entry := PDict [("id", rid); ("name", full_name);
                      ("emails", PList (List.map PStr emails));
                      ("created_at", created_at)] in
  Ok (List.fold_left (fun m e => multimap_append e entry m) emails email_map).

Fixpoint fill_email_map (email_map : list (string * list pyval)) (records : list pyval)
    : result (list (string * list pyval)) :=
  match records with
  | [] => Ok email_map
  | r :: rest =>
      try! email_map <- add_person email_map r;
      fill_email_map email_map rest
  end.

(** [{k: recs for k, recs in m.items() if len(recs) > 1}] *)
Definition more_than_one {A} (m : list (string * list A)) : list (string * list A) :=
  List.filter (fun kv => (1 <? Z.of_nat (List.length (snd kv)))) m.

Definition process_people (records : list pyval) : result (list (string * list pyval)) :=
  try! email_map <- fill_email_map [] records;
  Ok (more_than_one email_map).

Definition API_BASE_URL : string := "https://api.attio.com/v2".

Definition get_headers (TOKEN : string) : list (string * string) :=
  [("Authorization", "Bearer " +:+ TOKEN); ("Content-Type", "application/json")].

(** [limit] of [fetch_all_records] *)
Definition limit : Z := 1000.

Section Fetch.
Context {W : Type} `{Server W} (TOKEN : string).

Definition query_request (object_slug : string) (offset : Z) : http_request :=
  mkRequest "POST" (API_BASE_URL +:+ "/objects/" +:+ object_slug +:+ "/records/query")
    (get_headers TOKEN) (Some (PDict [("limit", PInt limit); ("offset", PInt offset)]))
    None None.

(** The body of the [try] of [fetch_all_records], up to [records.extend(batch)]:
    the items of the batch. *)
Definition fetch_batch (object_slug : string) (offset : Z) : M W (list pyval) :=
  do resp <- http (query_request object_slug offset);
  run lift (raise_for_status resp);
  do data <- lift (response_json resp);
  do batch <- lift (py_get data "data" (PList []));
  lift (py_iter batch).

(** The [while True] loop of [fetch_all_records]; [None] when [fuel] full
    pages were fetched and none was short. *)
Fixpoint fetch_loop (fuel : nat) (object_slug : string) (offset : Z) (records : list pyval)
    : M W (option (list pyval)) :=
  match fuel with
  | O => ret None
  | S fuel' =>
      do r <- try (fetch_batch object_slug offset);
      match r with
      | Ok batch =>
          let records := (records ++ batch)%list in
          if Z.of_nat (List.length batch) <? limit then ret (Some records)
          else fetch_loop fuel' object_slug (offset + limit) records
      | Raise _ => ret (Some records)
      end
  end.

(** [fetch_all_records], run for at most [fuel] pages. *)
Definition fetch_all_records (fuel : nat) (object_slug : string) : M W (option (list pyval)) :=
  fetch_loop fuel object_slug 0 [].
End Fetch.

(** Lines 111-116 of [process_companies]: the lowercased, non-empty domains. *)
Fixpoint extract_domains (domain_vals : list pyval) : result (list string) :=
  match domain_vals with
  | [] => Ok []
  | d :: rest =>
      try! dom <- py_get d "domain" PNone;
      if py_truthy dom then
        try! lowered <- py_lower_method dom;
        try! domains <- extract_domains rest;
        Ok (lowered :: domains)
      else extract_domains rest
  end.

(** Lines 105-108 *)
Definition extract_company_name (values : pyval) : result pyval :=
  try! name_vals <- py_get values "name" (PList []);
  if py_truthy name_vals then
    try! first <- py_first name_vals;
    py_get first "value" (PStr "Unknown")
  else Ok (PStr "Unknown").

(** [name and name != "Unknown"] *)
Definition is_known_name (name : pyval) : bool :=
  py_truthy name && negb (pyval_is_str "Unknown" name).

(** One turn of [for r in records] in [process_companies], lines 101-132. *)
Definition add_company (maps : list (string * list pyval) * list (string * list pyval))
    (r : pyval) : result (list (string * list pyval) * list (string * list pyval)) :=
  let '(domain_map, name_map) := maps in
  try! id <- py_getitem r "id";
  try! rid <- py_getitem id "record_id";
  try! values <- py_get r "values" (PDict []);
  try! name <- extract_company_name values;
  try! domain_vals <- py_get values "domains" (PList []);
  try! domain_items <- py_iter domain_vals;
  try! domains <- extract_domains domain_items;
  try! created_at <- py_get r "created_at" PNone;
  let entry := PDict [("id", rid); ("name", name);
                      ("domains", PList (List.map PStr domains));
                      ("created_at", created_at)] in
  let domain_map := List.fold_left (fun m d => multimap_append d entry m) domains domain_map in
  if is_known_name name then
    try! key <- py_lower_method name;
    Ok (domain_map, multimap_append key entry name_map)
  else Ok (domain_map, name_map).

Fixpoint fill_company_maps (maps : list (string * list pyval) * list (string * list pyval))
    (records : list pyval)
    : result (list (string * list pyval) * list (string * list pyval)) :=
  match records with
  | [] => Ok maps
  | r :: rest =>
      try! maps <- add_company maps r;
      fill_company_maps maps rest
  end.

(** [process_companies]: the groups by domain and the groups by name. *)
Definition process_companies (records : list pyval)
    : result (list (string * list pyval) * list (string * list pyval)) :=
  try! maps <- fill_company_maps ([], []) records;
  Ok (more_than_one (fst maps), more_than_one (snd maps)).

End find_duplicates.

(** ** merge_duplicates.py *)

Module merge_duplicates.

Definition API_BASE_URL : string := "https://api.attio.com/v2".

Definition get_headers (TOKEN : string) : list (string * string) :=
  [("Authorization", "Bearer " +:+ TOKEN); ("Content-Type", "application/json")].

(** The summary [main] keeps of a company record, lines 128-133: four values
    as the API sent them, of any JSON type ([created_at] is [None] for a record
    that has none). *)
Record company : Type := mkCompany {
  id : pyval;
  name : pyval;
  domains : list pyval;
  created_at : pyval
}.

(** The text of a value that is a [str]. *)
Definition text_of (v : pyval) : string :=
  match v with PStr s => s | _ => EmptyString end.

(** One step of the stable sort by [<] on keys that are text. *)
Fixpoint insert_by_created_at (x : company) (sorted : list company) : list company :=
  match sorted with
  | [] => [x]
  | y :: rest =>
      if String.ltb (text_of (created_at x)) (text_of (created_at y)) then x :: y :: rest
      else y :: insert_by_created_at x rest
  end.

Definition stable_sort (recs : list company) : list company :=
  List.fold_left (fun sorted x => insert_by_created_at x sorted) recs [].

(** [recs.sort(key=lambda x: x['created_at'])], line 145.  With keys that are
    all text the sort is the stable one by [<]; a list of fewer than two
    records is compared with nothing; two leading keys that are both [None],
    or both a [dict], make the first comparison raise.  [None] stands for what
    is left out: keys of other types, whose order and whose errors rest on
    rules of Python that are not modelled here. *)
Definition sort_by_created_at (recs : list company) : option (result (list company)) :=
  if List.forallb (fun x => is_str (created_at x)) recs then Some (Ok (stable_sort recs))
  else
    match recs with
    | [] | [_] => Some (Ok recs)
    | first :: second :: _ =>
        match created_at first, created_at second with
        | PNone, PNone | PDict _, PDict _ =>
            Some (Raise (TypeError ("'<' not supported between instances of '"
                                    +:+ type_name (created_at second) +:+ "' and '"
                                    +:+ type_name (created_at first) +:+ "'")))
        | _, _ => None
        end
    end.

(** The identifiers [', '.join(...)] is given, line 151: the first one that is
    not text raises. *)
Fixpoint id_texts (index : Z) (others : list company) : result (list string) :=
  match others with
  | [] => Ok []
  | o :: rest =>
      match id o with
      | PStr s => try! texts <- id_texts (index + 1) rest; Ok (s :: texts)
      | v => Raise (TypeError ("sequence item " +:+ pretty index
                               +:+ ": expected str instance, " +:+ type_name v +:+ " found"))
      end
  end.

(** [', '.join([o['id'] for o in others])] *)
Definition join_ids (others : list company) : result string :=
  try! texts <- id_texts 0 others;
  Ok (py_join ", " texts).

(** [all_domains.update(new)], and [set(new)] from the empty set: text is
    collected, a [list] or a [dict] cannot be hashed.  [None] stands for what
    is left out: the set of values of other types, whose equality crosses
    types ([1 == 1.0 == True]). *)
Fixpoint update_domains (all_domains : gset string) (new : list pyval)
    : option (result (gset string)) :=
  match new with
  | [] => Some (Ok all_domains)
  | PStr d :: rest => update_domains (all_domains ∪ {[d]}) rest
  | PList _ :: _ => Some (Raise (TypeError "unhashable type: 'list'"))
  | PDict _ :: _ => Some (Raise (TypeError "unhashable type: 'dict'"))
  | _ :: _ => None
  end.

(** Lines 155-156 *)
Fixpoint update_with_others (all_domains : gset string) (others : list company)
    : option (result (gset string)) :=
  match others with
  | [] => Some (Ok all_domains)
  | o :: rest =>
      match update_domains all_domains (domains o) with
      | Some (Ok all_domains) => update_with_others all_domains rest
      | stopped => stopped
      end
  end.

(** Lines 154-156: [set(master['domains'])] updated with every other's. *)
Definition aggregate_domains (master : company) (others : list company)
    : option (result (gset string)) :=
  match update_domains ∅ (domains master) with
  | Some (Ok all_domains) => update_with_others all_domains others
  | stopped => stopped
  end.

(** [f"{API_BASE_URL}/objects/companies/records/{record_id}"] *)
Definition record_url (record_id : pyval) : string :=
  API_BASE_URL +:+ "/objects/companies/records/" +:+ py_str record_id.

Definition domains_payload (domains : list pyval) : pyval :=
  PDict [("data", PDict [("values", PDict [("domains",
    PList (List.map (fun d => PDict [("domain", d)]) domains))])])].

Section Merge.
Context {W : Type} `{Server W} (TOKEN : string).

Definition delete_request (record_id : pyval) : http_request :=
  mkRequest "DELETE" (record_url record_id) (get_headers TOKEN) None None None.

Definition patch_request (record_id : pyval) (domains : list pyval) : http_request :=
  mkRequest "PATCH" (record_url record_id) (get_headers TOKEN)
    (Some (domains_payload domains)) None None.

Definition delete_record (record_id : pyval) : M W bool :=
  do r <- try (do resp <- http (delete_request record_id);
               lift (raise_for_status resp));
  match r with
  | Ok _ => ret true
  | Raise _ => ret false
  end.

Definition update_company_domains (record_id : pyval) (domains : list pyval) : M W bool :=
  do r <- try (do resp <- http (patch_request record_id domains);
               lift (raise_for_status resp));
  match r with
  | Ok _ => ret true
  | Raise _ => ret false
  end.

(** Lines 166-173: [delete_success] after the loop over [others]. *)
Fixpoint delete_others (others : list company) : M W bool :=
  match others with
  | [] => ret true
  | o :: rest =>
      do deleted <- delete_record (id o);
      if deleted then run sleep 500; delete_others rest
      else ret false
  end.

(** Lines 165-187: the deletes and, when all went through, the update. *)
Definition delete_then_update (master : company) (others : list company)
    (final_domains : list pyval) : M W unit :=
  do delete_success <- delete_others others;
  if negb delete_success then ret tt
  else
    run sleep 1000;
    do _ <- update_company_domains (id master) final_domains;
    ret tt.

(** The body of [for name, recs in duplicates.items()], lines 141-187;
    [None] when the sort or the set of domains is left out of the model.
    Python lists a set in an order of its own, which changes from run to run:
    [list(all_domains)] is taken here in the order of [elements], and nothing
    below depends on that order. *)
Definition merge_group (recs : list company) : M W (option unit) :=
  match sort_by_created_at recs with
  | None => ret None
  | Some (Raise e) => raise e
  | Some (Ok []) => raise (IndexError "list index out of range")
  | Some (Ok (master :: others)) =>
      match join_ids others with
      | Raise e => raise e
      | Ok _ =>
          match aggregate_domains master others with
          | None => ret None
          | Some (Raise e) => raise e
          | Some (Ok all_domains) =>
              let final_domains := List.map PStr (elements all_domains) in
              run delete_then_update master others final_domains;
              ret (Some tt)
          end
      end
  end.

(** Lines 140-187: the groups in turn, up to the first that raises. *)
Fixpoint merge_all (duplicates : list (string * list company)) : M W (option unit) :=
  match duplicates with
  | [] => ret (Some tt)
  | group :: rest =>
      do merged <- merge_group (snd group);
      match merged with
      | Some _ => merge_all rest
      | None => ret None
      end
  end.

(** [main] from line 136 on, given the [name_map] of lines 109-133. *)
Definition main (name_map : list (string * list company)) : M W (option unit) :=
  if str_is_empty TOKEN then ret (Some tt)
  else merge_all (find_duplicates.more_than_one name_map).

(** [limit] of [fetch_all_companies] *)
Definition limit : Z := 1000.

Definition companies_request (offset : Z) : http_request :=
  mkRequest "POST" (API_BASE_URL +:+ "/objects/companies/records/query")
    (get_headers TOKEN)
    (Some (PDict [("limit", PInt limit); ("offset", PInt offset);
                  ("sort", PDict [("direction", PStr "asc");
                                  ("attribute", PStr "created_at")])]))
    None None.

(** The body of the [try] of [fetch_all_companies], up to
    [records.extend(batch)]: the items of the batch. *)
Definition companies_batch (offset : Z) : M W (list pyval) :=
  do resp <- http (companies_request offset);
  run lift (raise_for_status resp);
  do data <- lift (response_json resp);
  do batch <- lift (py_get data "data" (PList []));
  lift (py_iter batch).

(** The [while True] loop of [fetch_all_companies]. *)
Fixpoint companies_loop (fuel : nat) (offset : Z) (records : list pyval)
    : M W (option (list pyval)) :=
  match fuel with
  | O => ret None
  | S fuel' =>
      do r <- try (companies_batch offset);
      match r with
      | Ok batch =>
          let records := (records ++ batch)%list in
          if Z.of_nat (List.length batch) <? limit then ret (Some records)
          else companies_loop fuel' (offset + limit) records
      | Raise _ => ret (Some records)
      end
  end.

(** [fetch_all_companies], run for at most [fuel] pages. *)
Definition fetch_all_companies (fuel : nat) : M W (option (list pyval)) :=
  companies_loop fuel 0 [].
End Merge.
End merge_duplicates.

(** ** Reading a run: result, final state of the services, trace *)

Definition result_of {W A} (x : result A * W * list event) : result A := fst (fst x).
Definition world_of {W A} (x : result A * W * list event) : W := snd (fst x).
Definition trace_of {W A} (x : result A * W * list event) : list event := snd x.

(** The calls made, in order. *)
Fixpoint requests_of (t : list event) : list http_request :=
  match t with
  | [] => []
  | Sent r _ :: rest => r :: requests_of rest
  | Slept _ :: rest => requests_of rest
  end.

(** The pauses taken, in order. *)
Fixpoint sleeps_of (t : list event) : list Z :=
  match t with
  | [] => []
  | Sent _ _ :: rest => sleeps_of rest
  | Slept ms :: rest => ms :: sleeps_of rest
  end.

(** The exception one attempt ends in, for a given answer of the network:
    the transport failure, or the [HTTPError] of [raise_for_status]. *)
Definition outcome_error (o : outcome) : option exn :=
  match o with
  | Failed msg => Some (RequestException msg)
  | Responded resp =>
      match raise_for_status resp with
      | Ok _ => None
      | Raise e => Some e
      end
  end.

Definition outcome_fails (o : outcome) : bool :=
  match outcome_error o with Some _ => true | None => false end.

(** The trace of attempts that all fail: each but the last is followed by a
    pause of [2 ^ attempt] seconds. *)
Fixpoint backoff_trace (req : http_request) (outcomes : list outcome) (attempt : Z)
    : list event :=
  match outcomes with
  | [] => []
  | [o] => [Sent req o]
  | o :: rest =>
      Sent req o :: Slept (seconds (2 ^ attempt)) :: backoff_trace req rest (attempt + 1)
  end.

(** The payload has an [email_addresses] entry whose value is not empty. *)
Definition email_in_payload (values : pydict) : bool :=
  match dict_lookup "email_addresses" values with
  | Some v => py_truthy v
  | None => false
  end.

(** *** Services used to run the scripts on concrete inputs *)

(** A service that plays back a list of answers, then refuses connections. *)
Definition script : Type := list outcome.

#[export] Instance script_server : Server script :=
  fun _ w =>
    match w with
    | o :: rest => (o, rest)
    | [] => (Failed "connection refused", [])
    end.

(** A service that answers every call with 503. *)
Inductive unavailable : Type := Unavailable.

Definition response_503 (r : http_request) : Response :=
  mkResponse 503 "Service Unavailable" (req_url r) (NotJSON "Expecting value") EmptyString.

#[export] Instance unavailable_server : Server unavailable :=
  fun r w => (Responded (response_503 r), w).

(** A 200 answer with a JSON body. *)
Definition ok_json (url : string) (v : pyval) (text : string) : Response :=
  mkResponse 200 "OK" url (JSON v) text.

(** *** Inputs of the examples *)

(** The record of [test_execute_migration_live]. *)
Definition alice : pydict := [("id", PStr "1"); ("name", PStr "Alice")].

(** The answer of that test: 200, with the identifier of the new record. *)
Definition created_attio_1 : Response :=
  ok_json "https://api.attio.com/v2/objects/people/records"
    (PDict [("data", PDict [("id", PDict [("record_id", PStr "attio_1")])])])
    "{'data': {'id': {'record_id': 'attio_1'}}}".

(** A flat record with only a city. *)
Definition paris : pydict := [("id", PStr "7"); ("city", PStr "Paris")].

(** *** The location object, in the words of the specification *)

(** The payload holds a location object of nine sub-keys. *)
Definition emits_nine_key_location (record : pydict) (mapping : list (string * string))
    : Prop :=
  exists obj,
    dict_lookup "primary_location" (migrate.build_values record mapping)
    = Some (PList [PDict obj])
    /\ List.length obj = 9%nat.

(** [city] is a non-empty value of the record that the mapping sends to
    [primary_location]. *)
Definition supplies_location (record : pydict) (mapping : list (string * string))
    (city : pyval) : Prop :=
  exists source_field,
    In (source_field, "primary_location") mapping
    /\ dict_lookup source_field record = Some city
    /\ non_empty_value city = true.

(** *** The merge of a duplicate group, in the words of the specification *)

(** The address of a company record. *)
Definition stated_record_url (record_id : string) : string :=
  "https://api.attio.com/v2/objects/companies/records/" +:+ record_id.

Definition stated_headers (TOKEN : string) : list (string * string) :=
  [("Authorization", "Bearer " +:+ TOKEN); ("Content-Type", "application/json")].

(** The delete of a record: a [DELETE] of its address, without a body. *)
Definition stated_delete (TOKEN record_id : string) : http_request :=
  mkRequest "DELETE" (stated_record_url record_id) (stated_headers TOKEN) None None None.

(** The update of the master: a [PATCH] of its address whose body gives
    [final_domains], and nothing else, as its domains. *)
Definition stated_update (TOKEN record_id : string) (final_domains : list string)
    : http_request :=
  mkRequest "PATCH" (stated_record_url record_id) (stated_headers TOKEN)
    (Some (PDict [("data", PDict [("values", PDict [("domains",
       PList (List.map (fun d => PDict [("domain", PStr d)]) final_domains))])])]))
    None None.

(** A summary as the API gives it for a well-kept company: the identifier,
    the creation time and every domain are text. *)
Definition well_formed (r : merge_duplicates.company) : bool :=
  is_str (merge_duplicates.id r)
  && is_str (merge_duplicates.created_at r)
  && List.forallb is_str (merge_duplicates.domains r).

(** The identifier of a record, as text. *)
Definition id_text (r : merge_duplicates.company) : string :=
  merge_duplicates.text_of (merge_duplicates.id r).

(** The creation time of a record, as text. *)
Definition created_text (r : merge_duplicates.company) : string :=
  merge_duplicates.text_of (merge_duplicates.created_at r).

(** The calls and pauses of deleting [deleted], one answer each. *)
Fixpoint delete_trace (TOKEN : string) (deleted : list merge_duplicates.company)
    (outcomes : list outcome) : list event :=
  match deleted, outcomes with
  | o :: rest, answer :: answers =>
      Sent (stated_delete TOKEN (id_text o)) answer
        :: Slept 500 :: delete_trace TOKEN rest answers
  | _, _ => []
  end.

(** [d] is a domain of some record of the group. *)
Definition domain_of_group (recs : list merge_duplicates.company) (d : string) : Prop :=
  exists r, In r recs /\ In (PStr d) (merge_duplicates.domains r).

(** No other record of the group was created before [master]. *)
Definition earliest (master : merge_duplicates.company)
    (others : list merge_duplicates.company) : Prop :=
  Forall (fun o => String.leb (created_text master) (created_text o) = true) others.

Inductive sorted_by_created_at : list merge_duplicates.company -> Prop :=
| sorted_nil : sorted_by_created_at []
| sorted_cons x rest :
    earliest x rest -> sorted_by_created_at rest -> sorted_by_created_at (x :: rest).

(** What the loop over [others] has done when it ends with
    [delete_success] true: every record deleted; and with [delete_success]
    false: the records before the failing one deleted, the failing call
    last, and nothing after it. *)
Definition all_deleted (TOKEN : string) (others : list merge_duplicates.company)
    (t : list event) : Prop :=
  exists outcomes,
    List.length outcomes = List.length others
    /\ Forall (fun o => outcome_fails o = false) outcomes
    /\ t = delete_trace TOKEN others outcomes.

Definition stopped_at_failed_delete (TOKEN : string)
    (others : list merge_duplicates.company) (t : list event) : Prop :=
  exists deleted failed remaining outcomes bad,
    others = (deleted ++ failed :: remaining)%list
    /\ List.length outcomes = List.length deleted
    /\ Forall (fun o => outcome_fails o = false) outcomes
    /\ outcome_fails bad = true
    /\ t = (delete_trace TOKEN deleted outcomes
            ++ [Sent (stated_delete TOKEN (id_text failed)) bad])%list.

(** The call is the [DELETE] of one of [others]. *)
Definition deletes_one_of (TOKEN : string) (others : list merge_duplicates.company)
    (r : http_request) : Prop :=
  exists o, In o others /\ r = stated_delete TOKEN (id_text o).

(** The group, sorted: the master is its earliest record, and the domains
    sent with the update are, once each, the domains of the group's records. *)
Definition merge_plan (recs : list merge_duplicates.company)
    (master : merge_duplicates.company) (others : list merge_duplicates.company)
    (final_domains : list string) : Prop :=
  merge_duplicates.sort_by_created_at recs = Some (Ok (master :: others))
  /\ Permutation recs (master :: others)
  /\ earliest master others
  /\ NoDup final_domains
  /\ forall d, In d final_domains <-> domain_of_group recs d.

(** *** Person records *)

(** A person record as the Attio query endpoint returns it. *)
Definition person (record_id full_name : string) (addresses : list string)
    (created_at : string) : pyval :=
  PDict [("id", PDict [("record_id", PStr record_id)]);
         ("created_at", PStr created_at);
         ("values",
          PDict [("name", PList [PDict [("full_name", PStr full_name)]]);
                 ("email_addresses",
                  PList (List.map (fun a => PDict [("email_address", PStr a)]) addresses))])].

(** The summary [process_people] keeps of such a record with one address. *)
Definition person_summary (record_id full_name address created_at : string) : pyval :=
  PDict [("id", PStr record_id); ("name", PStr full_name);
         ("emails", PList (if str_is_empty address then [] else [PStr (py_lower address)]));
         ("created_at", PStr created_at)].

(** *** The handle of an X link, in the words of the specification *)

(** The text of [s] before the first [c] (all of [s] when it has none). *)
Fixpoint before_first (c : ascii) (s : string) : string :=
  match s with
  | EmptyString => EmptyString
  | String a s' => if ascii_eqb a c then EmptyString else String a (before_first c s')
  end.

(** The text of [s] after the last [c] (all of [s] when it has none). *)
Fixpoint after_last (c : ascii) (s : string) : string :=
  match s with
  | EmptyString => EmptyString
  | String a s' => if ascii_eqb a c || py_contains_char c s' then after_last c s' else s
  end.

Definition has_social_domain (u : string) : bool :=
  py_contains "twitter.com/" u || py_contains "x.com/" u.

(** The handle in the words of the specification: the segment after the last
    slash without its query suffix when the URL has a social domain, then cut
    at the first dot. *)
Definition handle_as_stated (u : string) : string :=
  before_first "."
    (if has_social_domain u then before_first "?" (after_last "/" u) else u).

(** The same after the URL has lost its surrounding whitespace and, when it
    has a social domain, its trailing slashes. *)
Definition handle_as_amended (u : string) : string :=
  let trimmed := py_strip u in
  before_first "."
    (if has_social_domain trimmed
     then before_first "?" (after_last "/" (py_rstrip_char "/" trimmed))
     else trimmed).

(** The [x_url] that [flatten_record] derives from a record whose only field is
    an X link with this URL. *)
Definition flattened_handle (u : string) : result (option pyval) :=
  try! flat <- migrate.flatten_record (PDict [("xLink", PDict [("primaryLinkUrl", PStr u)])]);
  match flat with
  | PDict d => Ok (dict_lookup "x_url" d)
  | _ => Ok None
  end.

(** *** Pages of the source *)

(** The first page of [test_extract_records_pagination]. *)
Definition page1 : Response :=
  ok_json "http://test.com/rest/people"
    (PDict [("data", PList [PDict [("id", PStr "1"); ("name", PStr "Rec1")]]);
            ("meta", PDict [("next_cursor", PStr "abc")])])
    "{'data': [{'id': '1', 'name': 'Rec1'}], 'meta': {'next_cursor': 'abc'}}".

Definition page2 : Response :=
  ok_json "http://test.com/rest/people"
    (PDict [("data", PList [PDict [("id", PStr "2"); ("name", PStr "Rec2")]]);
            ("meta", PDict [("next_cursor", PNone)])])
    "{'data': [{'id': '2', 'name': 'Rec2'}], 'meta': {'next_cursor': null}}".

Definition error_500 : Response :=
  mkResponse 500 "Internal Server Error" "http://test.com/rest/people?cursor=abc"
    (NotJSON "Expecting value") "Internal Server Error".

(** The client of that test. *)
Definition test_client : migrate.APIClient :=
  migrate.new_client "http://test.com" [] "Test".

(** *** The company group of the examples *)

(** The group of the specification's example: three records of one company,
    listed out of creation order. *)
Definition acme : list merge_duplicates.company :=
  [merge_duplicates.mkCompany (PStr "rec-b") (PStr "Acme") [PStr "b.com"]
     (PStr "2024-02-01T00:00:00Z");
   merge_duplicates.mkCompany (PStr "rec-a") (PStr "Acme") [PStr "a.com"]
     (PStr "2024-01-01T00:00:00Z");
   merge_duplicates.mkCompany (PStr "rec-c") (PStr "ACME") [PStr "a.com"; PStr "c.com"]
     (PStr "2024-03-01T00:00:00Z")].

(** Two records of one company that carry no creation time. *)
Definition undated : list merge_duplicates.company :=
  [merge_duplicates.mkCompany (PStr "rec-x") (PStr "Beta") [PStr "x.com"] PNone;
   merge_duplicates.mkCompany (PStr "rec-y") (PStr "Beta") [PStr "y.com"] PNone].

Definition no_content (url : string) : Response :=
  mkResponse 204 "No Content" url (NotJSON "Expecting value") EmptyString.

Definition server_error (url : string) : Response :=
  mkResponse 500 "Internal Server Error" url (NotJSON "Expecting value")
    "Internal Server Error".

Section UrlModel.

(** The last character of a string, if any. *)
Fixpoint last_char (s : string) : option ascii :=
  match s with
  | EmptyString => None
  | String a EmptyString => Some a
  | String _ s' => last_char s'
  end.

(** A run of [n] slashes. *)
Fixpoint slashes (n : nat) : string :=
  match n with
  | O => EmptyString
  | S n' => String "/" (slashes n')
  end.
End UrlModel.

Section PageModel.
Import migrate.

(** [batch] is what the page body [data] holds for [object_name]: the list
    itself, or the list under the object's name. *)
Definition page_data (object_name : string) (data : pyval) (batch : list pyval) : Prop :=
  data = PList batch
  \/ exists d, data = PDict d /\ dict_lookup object_name d = Some (PList batch).

(** [resp] is a good answer whose JSON body is a page with this batch and this
    next cursor ([None] when the body has no [meta] or no [next_cursor]). *)
Definition is_page (object_name : string) (resp : Response) (batch : list pyval)
    (cursor : pyval) : Prop :=
  raise_for_status resp = Ok tt
  /\ exists body data meta,
       json_body resp = JSON (PDict body)
       /\ dict_lookup "data" body = Some data
       /\ page_data object_name data batch
       /\ dict_get_default "meta" (PDict []) body = PDict meta
       /\ dict_get_default "next_cursor" PNone meta = cursor.

(** The query parameters of the page that follows [cursor]. *)
Definition page_params (cfg : Config) (cursor : pyval) : pydict :=
  if py_truthy cursor then [("limit", PInt (BATCH_SIZE cfg)); ("cursor", cursor)]
  else [("limit", PInt (BATCH_SIZE cfg))].

Definition page_request (cfg : Config) (client : APIClient) (object_name : string)
    (cursor : pyval) : http_request :=
  request_of cfg client "GET" ("/rest/" +:+ object_name)
    (mkKwargs None (Some (page_params cfg cursor)) None).

(** A page as a test would script it: the answer, its batch, the flattened
    batch and the next cursor. *)
Record page : Type := mkPage {
  p_response : Response;
  p_batch : list pyval;
  p_flat : list pyval;
  p_cursor : pyval
}.

Definition good_page (object_name : string) (p : page) : Prop :=
  is_page object_name (p_response p) (p_batch p) (p_cursor p)
  /\ p_batch p <> []
  /\ map_result flatten_record (p_batch p) = Ok (p_flat p).

(** Every page but the last hands out a cursor, the last does not. *)
Fixpoint chained (pages : list page) : Prop :=
  match pages with
  | [] => False
  | [p] => py_truthy (p_cursor p) = false
  | p :: rest => py_truthy (p_cursor p) = true /\ chained rest
  end.

(** The calls of a walk over [pages] that starts with [cursor]: each page is
    asked for with the cursor of the page before. *)
Fixpoint page_trace (cfg : Config) (client : APIClient) (object_name : string)
    (cursor : pyval) (pages : list page) : list event :=
  match pages with
  | [] => []
  | p :: rest =>
      Sent (page_request cfg client object_name cursor) (Responded (p_response p))
        :: page_trace cfg client object_name (p_cursor p) rest
  end.

(** The [name] of every entry, when every entry has one. *)
Fixpoint entry_names (entries : list pydict) : option (list pyval) :=
  match entries with
  | [] => Some []
  | entry :: rest =>
      match dict_lookup "name" entry, entry_names rest with
      | Some name, Some names => Some (name :: names)
      | _, _ => None
      end
  end.

(** The two pages of [test_extract_records_pagination], as pages. *)
Definition test_pages : list page :=
  [mkPage page1 [PDict [("id", PStr "1"); ("name", PStr "Rec1")]]
     [PDict [("id", PStr "1"); ("name", PStr "Rec1"); ("email_primary", PStr EmptyString);
             ("linkedin_url", PStr EmptyString); ("x_url", PStr EmptyString)]]
     (PStr "abc");
   mkPage page2 [PDict [("id", PStr "2"); ("name", PStr "Rec2")]]
     [PDict [("id", PStr "2"); ("name", PStr "Rec2"); ("email_primary", PStr EmptyString);
             ("linkedin_url", PStr EmptyString); ("x_url", PStr EmptyString)]]
     PNone].

(** An answer of the metadata endpoint with two objects. *)
Definition metadata_response : Response :=
  ok_json "http://test.com/metadata/objects"
    (PDict [("data", PList [PDict [("name", PStr "people")];
                            PDict [("name", PStr "companies")]])])
    "{'data': [{'name': 'people'}, {'name': 'companies'}]}".

(** A page without records that still carries a cursor. *)
Definition empty_page : Response :=
  ok_json "http://test.com/rest/people"
    (PDict [("data", PList []); ("meta", PDict [("next_cursor", PStr "abc")])])
    "{'data': [], 'meta': {'next_cursor': 'abc'}}".
End PageModel.

(** A source that answers every call with the same page, cursor included. *)
Inductive endless_source : Type := EndlessSource.

#[export] Instance endless_server : Server endless_source :=
  fun _ w => (Responded page1, w).

Section FlattenModel.
Import migrate.

(** [flat] with [key] set from the nested field [source] when that field is
    a [dict]. *)
Definition with_derived (key : string) (source : pyval) (value : pydict -> pyval)
    (flat : pydict) : pydict :=
  match source with
  | PDict nested => dict_set key (value nested) flat
  | _ => flat
  end.

(** The full name [flatten_record] derives from a structured name. *)
Definition full_name_of (name : pydict) : pyval :=
  PStr (py_strip (py_str (dict_get_default "firstName" (PStr EmptyString) name) +:+ " "
                  +:+ py_str (dict_get_default "lastName" (PStr EmptyString) name))).

(** The record after the name, email and LinkedIn steps of [flatten_record]. *)
Definition flat_before_x (d : pydict) : pydict :=
  with_derived "linkedin_url" (dict_get_default "linkedinLink" (PDict []) d)
    (dict_get_default "primaryLinkUrl" (PStr EmptyString))
    (with_derived "email_primary" (dict_get_default "emails" (PDict []) d)
       (dict_get_default "primaryEmail" (PStr EmptyString))
       (with_derived "name_full" (dict_get_default "name" (PDict []) d) full_name_of d)).

(** The four keys [flatten_record] may add. *)
Definition derived_keys : list string :=
  ["name_full"; "email_primary"; "linkedin_url"; "x_url"].
End FlattenModel.

Section UpsertModel.
Import migrate.

(** The call [execute_migration] makes for a person with an address. *)
Definition upsert_request (cfg : Config) (client : APIClient) (payload : pyval)
    : http_request :=
  request_of cfg client "PUT" "/objects/people/records"
    (mkKwargs (Some (PDict [("data", payload)]))
       (Some [("matching_attribute", PStr "email_addresses")]) None).

(** A person of the source with an address, flattened. *)
Definition bob : pydict :=
  [("id", PStr "2"); ("name_full", PStr "Bob Stone"); ("email_primary", PStr "bob@acme.com")].

(** A 200 answer with an empty body. *)
Definition empty_ok : Response :=
  mkResponse 200 "OK" "https://api.attio.com/v2/objects/people/records"
    (NotJSON "Expecting value") EmptyString.
End UpsertModel.

Section FetchModel.

(** [resp] is a good answer whose JSON body holds [batch] under [data]. *)
Definition holds_batch (resp : Response) (batch : list pyval) : Prop :=
  raise_for_status resp = Ok tt
  /\ exists body, json_body resp = JSON (PDict body)
                  /\ dict_lookup "data" body = Some (PList batch).

(** An answer and its batch, when the batch is as long as the page limit. *)
Definition full_batch (p : Response * list pyval) : Prop :=
  holds_batch (fst p) (snd p) /\ 1000 <= Z.of_nat (List.length (snd p)).

(** An answer that ends a fetch with an exception: a transport failure, an
    error status, or a body that is not JSON. *)
Definition breaks_fetch (o : outcome) : Prop :=
  outcome_fails o = true
  \/ exists resp err, o = Responded resp /\ json_body resp = NotJSON err.

(** The calls of a fetch that starts at [offset] and gets [answers]. *)
Fixpoint query_trace (request_at : Z -> http_request) (offset : Z) (answers : list outcome)
    : list event :=
  match answers with
  | [] => []
  | o :: rest => Sent (request_at offset) o :: query_trace request_at (offset + 1000) rest
  end.

(** The query for a page of an object: a [POST] to the query address of the
    object whose body asks for 1000 records from [offset] on. *)
Definition stated_query (TOKEN object_slug : string) (offset : Z) : http_request :=
  mkRequest "POST"
    ("https://api.attio.com/v2/objects/" +:+ object_slug +:+ "/records/query")
    (stated_headers TOKEN)
    (Some (PDict [("limit", PInt 1000); ("offset", PInt offset)])) None None.

(** The query for a page of companies: the same for the companies, sorted by
    creation time, earliest first. *)
Definition stated_companies_query (TOKEN : string) (offset : Z) : http_request :=
  mkRequest "POST" "https://api.attio.com/v2/objects/companies/records/query"
    (stated_headers TOKEN)
    (Some (PDict [("limit", PInt 1000); ("offset", PInt offset);
                  ("sort", PDict [("direction", PStr "asc");
                                  ("attribute", PStr "created_at")])]))
    None None.

(** The answers of a scripted service that hands out these pages. *)
Definition page_answers (pages : list (Response * list pyval)) : list outcome :=
  List.map (fun p => Responded (fst p)) pages.

(** A batch as long as the page limit. *)
Definition thousand_records : list pyval :=
  List.repeat (PDict [("id", PDict [("record_id", PStr "r")])]) 1000.

(** A good answer of the query endpoint with this batch. *)
Definition query_page (batch : list pyval) : Response :=
  ok_json "https://api.attio.com/v2/objects/people/records/query"
    (PDict [("data", PList batch)]) EmptyString.
End FetchModel.

Section GroupModel.

(** The keys of a grouping are distinct and every entry of a group satisfies
    [P] for the key of its group. *)
Definition grouped (P : string -> pyval -> Prop) (m : list (string * list pyval)) : Prop :=
  List.NoDup (List.map fst m)
  /\ List.Forall (fun kv => List.Forall (P (fst kv)) (snd kv)) m.

(** The entry lists the key under [field]. *)
Definition lists_key (field : string) (key : string) (entry : pyval) : Prop :=
  exists d keys, entry = PDict d
                 /\ dict_lookup field d = Some (PList keys)
                 /\ In (PStr key) keys.

(** The key is a lowercase, non-empty text. *)
Definition is_lower_key (key : string) : Prop :=
  key <> EmptyString /\ py_lower key = key.

(** What makes an entry belong under an address. *)
Definition under_address (key : string) (entry : pyval) : Prop :=
  is_lower_key key /\ lists_key "emails" key entry.

(** What makes an entry belong under a domain. *)
Definition under_domain (key : string) (entry : pyval) : Prop :=
  is_lower_key key /\ lists_key "domains" key entry.

(** The entry carries a name that is text, is not empty and is not
    ["Unknown"]; when the name is ASCII text, the key is the name in lower
    case. *)
Definition named_as (key : string) (entry : pyval) : Prop :=
  exists d name, entry = PDict d
                 /\ dict_lookup "name" d = Some (PStr name)
                 /\ name <> EmptyString
                 /\ name <> "Unknown"
                 /\ (is_ascii name = true -> py_lower name = key).

(** What makes an entry belong under a name. *)
Definition under_name (key : string) (entry : pyval) : Prop :=
  is_lower_key key /\ named_as key entry.

(** A company record as the Attio query endpoint returns it. *)
Definition company_record (record_id name : string) (domains : list string)
    (created_at : string) : pyval :=
  PDict [("id", PDict [("record_id", PStr record_id)]);
         ("created_at", PStr created_at);
         ("values",
          PDict [("name", PList [PDict [("value", PStr name)]]);
                 ("domains",
                  PList (List.map (fun d => PDict [("domain", PStr d)]) domains))])].

(** The summary [process_companies] keeps of such a record. *)
Definition company_summary (record_id name : string) (domains : list string)
    (created_at : string) : pyval :=
  PDict [("id", PStr record_id); ("name", PStr name);
         ("domains", PList (List.map PStr domains));
         ("created_at", PStr created_at)].

(** The summary [process_people] keeps of a record with any addresses. *)
Definition person_entry (record_id full_name : string) (emails : list string)
    (created_at : string) : pyval :=
  PDict [("id", PStr record_id); ("name", PStr full_name);
         ("emails", PList (List.map PStr emails));
         ("created_at", PStr created_at)].
End GroupModel.

Section MainModel.
Import merge_duplicates.

(** The call is a [DELETE] or a [PATCH] of the address of a record of [recs]. *)
Definition touches (recs : list company) (r : http_request) : Prop :=
  exists o, In o recs
            /\ req_url r = stated_record_url (id_text o)
            /\ (req_method r = "DELETE" \/ req_method r = "PATCH").

(** The records carry a creation time that is text, and each was created no
    later than those after it. *)
Fixpoint in_creation_order (recs : list company) : Prop :=
  match recs with
  | [] => True
  | x :: rest =>
      is_str (created_at x) = true
      /\ List.Forall (fun y => String.leb (created_text x) (created_text y) = true) rest
      /\ in_creation_order rest
  end.
End MainModel.

(** * Properties *)

(** ** The association lists behind [dict] *)

Lemma dict_lookup_set_eq k v d : dict_lookup k (dict_set k v d) = Some v.
Proof.
  induction d as [|[k' v'] d IH]; simpl.
  - now rewrite String.eqb_refl.
  - destruct (String.eqb k k') eqn:E; simpl; rewrite E; [reflexivity | exact IH].
Qed.

Lemma dict_lookup_set_ne k k' v d :
  k <> k' -> dict_lookup k (dict_set k' v d) = dict_lookup k d.
Proof.
  intros Hne. induction d as [|[k2 v2] d IH]; simpl.
  - destruct (String.eqb_spec k k'); [contradiction | reflexivity].
  - destruct (String.eqb_spec k' k2) as [->|Hk]; simpl.
    + destruct (String.eqb_spec k k2); [contradiction | reflexivity].
    + destruct (String.eqb_spec k k2); [reflexivity | exact IH].
Qed.

(** ** The retry loop of [APIClient.request] *)

Section Retry.
Context {W : Type} `{Server W} (cfg : migrate.Config).
Import migrate.

(** One attempt sends the request once; what it returns is decided by the
    answer alone. *)
Lemma attempt_once_run req w o w1 :
  send req w = (o, w1) ->
  attempt_once req w =
    (match outcome_error o, o with
     | Some e, _ => Raise e
     | None, Responded resp => Ok resp
     | None, Failed msg => Raise (RequestException msg)
     end, w1, [Sent req o]).
Proof.
  intros Hsend.
  unfold attempt_once, bind, http, lift, ret, outcome_error. rewrite Hsend.
  destruct o as [resp|msg]; simpl; [|reflexivity].
  destruct (raise_for_status resp) as [[]|e]; reflexivity.
Qed.

Lemma outcome_error_request_exception o e :
  outcome_error o = Some e -> is_request_exception e = true.
Proof.
  destruct o as [resp|msg]; simpl.
  - unfold raise_for_status.
    destruct (_ && _); [intros [= <-]; reflexivity|].
    destruct (_ && _); [intros [= <-]; reflexivity | discriminate].
  - intros [= <-]. reflexivity.
Qed.

Lemma outcome_error_none o :
  outcome_error o = None ->
  exists resp, o = Responded resp /\ raise_for_status resp = Ok tt.
Proof.
  destruct o as [resp|msg]; unfold outcome_error; [|discriminate].
  destruct (raise_for_status resp) as [[]|] eqn:E; [|discriminate].
  intros _. exists resp. split; [reflexivity | exact E].
Qed.

(** One turn of the loop that ends in an exception: raised on the last
    attempt, slept on and retried before. *)
Lemma retry_loop_failure req attempt rest w o w1 e :
  send req w = (o, w1) ->
  outcome_error o = Some e ->
  retry_loop cfg req (attempt :: rest) w =
    if attempt =? MAX_RETRIES cfg - 1 then (Raise e, w1, [Sent req o])
    else (result_of (retry_loop cfg req rest w1),
          world_of (retry_loop cfg req rest w1),
          Sent req o :: Slept (seconds (2 ^ attempt))
            :: trace_of (retry_loop cfg req rest w1)).
Proof.
  intros Hsend Herr. cbn [retry_loop]. unfold bind at 1. unfold try.
  rewrite (attempt_once_run _ _ _ _ Hsend), Herr.
  rewrite (outcome_error_request_exception _ _ Herr).
  destruct (attempt =? MAX_RETRIES cfg - 1); [reflexivity|].
  unfold bind, sleep, result_of, world_of, trace_of.
  destruct (retry_loop cfg req rest w1) as [[r w2] t2]. reflexivity.
Qed.

(** One turn of the loop that gets a good answer returns it. *)
Lemma retry_loop_success req attempt rest w resp w1 :
  send req w = (Responded resp, w1) ->
  raise_for_status resp = Ok tt ->
  retry_loop cfg req (attempt :: rest) w =
    (Ok (Some resp), w1, [Sent req (Responded resp)]).
Proof.
  intros Hsend Hok. cbn [retry_loop]. unfold bind at 1. unfold try.
  rewrite (attempt_once_run _ _ _ _ Hsend). cbn. rewrite Hok. reflexivity.
Qed.

(** The loop on the attempts [k, k+1, ..., k+m-1] that are left, when
    [k + m] is the number of attempts allowed. *)
Lemma retry_loop_never_none req m : forall k w,
  (1 <= m)%nat ->
  Z.of_nat (k + m) = MAX_RETRIES cfg ->
  let out := retry_loop cfg req (List.map Z.of_nat (List.seq k m)) w in
  (exists resp, result_of out = Ok (Some resp)
                /\ List.last (trace_of out) (Slept 0) = Sent req (Responded resp)
                /\ raise_for_status resp = Ok tt)
  \/ (exists e o, result_of out = Raise e
                /\ List.last (trace_of out) (Slept 0) = Sent req o
                /\ outcome_error o = Some e).
Proof.
  induction m as [|m IH]; intros k w Hm Hk; [lia|].
  cbn [List.seq List.map].
  destruct (send req w) as [o w1] eqn:Hsend.
  destruct (outcome_error o) as [e|] eqn:Herr.
  - cbv zeta. rewrite (retry_loop_failure _ _ _ _ _ _ _ Hsend Herr).
    destruct (Z.eqb_spec (Z.of_nat k) (MAX_RETRIES cfg - 1)) as [Hlast|Hmore].
    + right. exists e, o. cbn. auto.
    + assert (Hm1 : (1 <= m)%nat) by lia.
      specialize (IH (S k) w1 Hm1 ltac:(lia)). cbv zeta in IH.
      unfold result_of, trace_of in *. cbn [fst snd] in *.
      destruct (retry_loop cfg req _ w1) as [[r w2] t] eqn:Hrec. cbn [fst snd] in *.
      assert (Ht : t <> []).
      { intros ->. cbn in IH. destruct IH as [(resp & _ & Hl & _)|(e' & o' & _ & Hl & _)];
          discriminate. }
      destruct t as [|ev t']; [congruence|].
      exact IH.
  - destruct (outcome_error_none _ Herr) as (resp & -> & Hok).
    cbv zeta. rewrite (retry_loop_success _ _ _ _ _ _ Hsend Hok).
    left. exists resp. cbn. auto.
Qed.

Lemma requests_of_backoff req outcomes : forall attempt,
  requests_of (backoff_trace req outcomes attempt) = List.repeat req (List.length outcomes).
Proof.
  induction outcomes as [|o [|o' rest] IH]; intros attempt; [reflexivity..|].
  change (requests_of (backoff_trace req (o :: o' :: rest) attempt))
    with (req :: requests_of (backoff_trace req (o' :: rest) (attempt + 1))).
  rewrite IH. reflexivity.
Qed.

Lemma sleeps_of_backoff req outcomes : forall k,
  sleeps_of (backoff_trace req outcomes (Z.of_nat k)) =
    List.map (fun a => seconds (2 ^ a))
      (List.map Z.of_nat (List.seq k (List.length outcomes - 1))).
Proof.
  induction outcomes as [|o [|o' rest] IH]; intros k; [reflexivity..|].
  change (sleeps_of (backoff_trace req (o :: o' :: rest) (Z.of_nat k)))
    with (seconds (2 ^ Z.of_nat k)
            :: sleeps_of (backoff_trace req (o' :: rest) (Z.of_nat k + 1))).
  replace (Z.of_nat k + 1) with (Z.of_nat (S k)) by lia.
  rewrite IH. cbn [List.length Nat.sub List.seq List.map].
  rewrite Nat.sub_0_r. reflexivity.
Qed.

(** When every attempt fails, the attempts [k .. k+m-1] that are left are all
    made, with the pauses between them, and the last failure is raised. *)
Lemma retry_loop_all_fail req
    (Hfail : forall w, outcome_fails (fst (send req w)) = true) m : forall k w,
  ((1 <= m)%nat -> Z.of_nat (k + m) = MAX_RETRIES cfg) ->
  let out := retry_loop cfg req (List.map Z.of_nat (List.seq k m)) w in
  exists outcomes,
    List.length outcomes = m
    /\ Forall (fun o => outcome_fails o = true) outcomes
    /\ trace_of out = backoff_trace req outcomes (Z.of_nat k)
    /\ result_of out =
         match m with
         | O => Ok None
         | S _ => match outcome_error (List.last outcomes (Failed EmptyString)) with
                  | Some e => Raise e
                  | None => Ok None
                  end
         end.
Proof.
  induction m as [|m IH]; intros k w Hk.
  - exists []. cbn. auto.
  - cbn [List.seq List.map]. cbv zeta.
    destruct (send req w) as [o w1] eqn:Hsend.
    pose proof (Hfail w) as Ho. rewrite Hsend in Ho. cbn [fst] in Ho.
    unfold outcome_fails in Ho.
    destruct (outcome_error o) as [e|] eqn:Herr; [|discriminate].
    rewrite (retry_loop_failure _ _ _ _ _ _ _ Hsend Herr).
    assert (Ho' : outcome_fails o = true) by (unfold outcome_fails; now rewrite Herr).
    destruct (Z.eqb_spec (Z.of_nat k) (MAX_RETRIES cfg - 1)) as [Hlast|Hmore].
    + assert (m = 0)%nat as -> by lia.
      exists [o]. cbn. rewrite Herr. auto.
    + assert (Hm : (1 <= m)%nat) by lia.
      destruct (IH (S k) w1 ltac:(lia)) as (outs & Hlen & Hall & Htrace & Hres).
      exists (o :: outs). unfold trace_of, result_of in *. cbn [fst snd].
      destruct outs as [|o' outs']; [cbn in Hlen; lia|].
      repeat split.
      * cbn in *. lia.
      * constructor; assumption.
      * rewrite Htrace. cbn [backoff_trace].
        replace (Z.of_nat k + 1) with (Z.of_nat (S k)) by lia. reflexivity.
      * rewrite Hres. destruct m; [lia|]. reflexivity.
Qed.

(** With an attempt allowed and every attempt failing, [request] raises. *)
Lemma request_raises_when_all_fail self method endpoint kw w :
  1 <= MAX_RETRIES cfg ->
  (forall w', outcome_fails (fst (send (request_of cfg self method endpoint kw) w')) = true) ->
  exists e, result_of (request cfg self method endpoint kw w) = Raise e.
Proof.
  intros Hmax Hfail. unfold request, py_range.
  destruct (retry_loop_all_fail _ Hfail (Z.to_nat (MAX_RETRIES cfg)) 0 w ltac:(lia))
    as (outcomes & Hlen & Hall & _ & Hres).
  rewrite Hres.
  destruct (Z.to_nat (MAX_RETRIES cfg)) as [|n] eqn:Hn; [lia|].
  assert (Hne : outcomes <> []) by (intros ->; discriminate).
  destruct (exists_last Hne) as (front & o & ->).
  rewrite List.last_last.
  apply Forall_app in Hall as [_ Hlast]. inversion Hlast as [|? ? Ho _]; subst.
  unfold outcome_fails in Ho.
  destruct (outcome_error o) as [e|]; [eauto | discriminate].
Qed.

(** C10: whenever [MAX_RETRIES] is at least 1, [APIClient.request] returns
    the response of a successful attempt (the last call made, whose status
    passed [raise_for_status]) or raises the exception of a failed attempt;
    the [return None] after the loop is never reached, so no caller sees
    [None] from a call whose attempts all failed. *)
Theorem request_returns_response_or_raises self method endpoint kw w :
  1 <= MAX_RETRIES cfg ->
  let req := request_of cfg self method endpoint kw in
  let out := request cfg self method endpoint kw w in
  result_of out <> Ok None
  /\ ((exists resp, result_of out = Ok (Some resp)
                    /\ List.last (trace_of out) (Slept 0) = Sent req (Responded resp)
                    /\ raise_for_status resp = Ok tt)
      \/ (exists e o, result_of out = Raise e
                    /\ List.last (trace_of out) (Slept 0) = Sent req o
                    /\ outcome_error o = Some e)).
Proof.
  intros Hmax req out.
  assert (Hcases := retry_loop_never_none req (Z.to_nat (MAX_RETRIES cfg)) 0 w
                      ltac:(lia) ltac:(lia)).
  cbv zeta in Hcases. fold (py_range (MAX_RETRIES cfg)) in Hcases.
  change (retry_loop cfg req (py_range (MAX_RETRIES cfg)) w) with out in Hcases.
  split; [|exact Hcases].
  destruct Hcases as [(resp & -> & _)|(e & o & -> & _)]; discriminate.
Qed.

(** C4: when every attempt fails, [APIClient.request] makes [MAX_RETRIES]
    attempts of the same call, sleeps [2 ^ attempt] seconds after each
    attempt but the last (1 s after attempt 0, then 2 s, 4 s, ...), and
    raises the exception of the final attempt. *)
Theorem request_backs_off_then_raises self method endpoint kw w :
  let req := request_of cfg self method endpoint kw in
  (forall w', outcome_fails (fst (send req w')) = true) ->
  let out := request cfg self method endpoint kw w in
  exists outcomes,
    List.length outcomes = Z.to_nat (MAX_RETRIES cfg)
    /\ Forall (fun o => outcome_fails o = true) outcomes
    /\ trace_of out = backoff_trace req outcomes 0
    /\ requests_of (trace_of out) = List.repeat req (Z.to_nat (MAX_RETRIES cfg))
    /\ sleeps_of (trace_of out)
       = List.map (fun attempt => seconds (2 ^ attempt)) (py_range (MAX_RETRIES cfg - 1))
    /\ (1 <= MAX_RETRIES cfg ->
        exists e, result_of out = Raise e
                  /\ outcome_error (List.last outcomes (Failed EmptyString)) = Some e).
Proof.
  intros req Hfail out.
  destruct (retry_loop_all_fail req Hfail (Z.to_nat (MAX_RETRIES cfg)) 0 w ltac:(lia))
    as (outcomes & Hlen & Hall & Htrace & Hres).
  fold (py_range (MAX_RETRIES cfg)) in Htrace, Hres.
  change (retry_loop cfg req (py_range (MAX_RETRIES cfg)) w) with out in Htrace, Hres.
  exists outcomes. repeat split; try assumption.
  - rewrite Htrace, requests_of_backoff, Hlen. reflexivity.
  - rewrite Htrace. change 0 with (Z.of_nat 0). rewrite sleeps_of_backoff, Hlen.
    unfold py_range. do 3 f_equal. lia.
  - intros Hmax. rewrite Hres.
    destruct (Z.to_nat (MAX_RETRIES cfg)) as [|n] eqn:Hn; [lia|].
    assert (Hne : outcomes <> []) by (intros ->; discriminate).
    assert (Hlast : outcome_fails (List.last outcomes (Failed EmptyString)) = true).
    { destruct (exists_last Hne) as (front & o & ->).
      rewrite List.last_last.
      apply Forall_app in Hall as [_ Hlast]. now inversion Hlast. }
    unfold outcome_fails in Hlast.
    destruct (outcome_error (List.last outcomes (Failed EmptyString))) as [e|];
      [|discriminate].
    exists e. split; reflexivity.
Qed.
End Retry.

(** A run of C10: three allowed attempts against a service that answers 500
    twice and then 200. *)
Lemma request_returns_response_or_raises_witness :
  result_of (migrate.request migrate.default_config (migrate.attio "t") "GET" "/objects"
               migrate.no_kwargs
               [Responded (server_error "u"); Responded (server_error "u");
                Responded (ok_json "u" (PDict []) "{}")])
  <> Ok None.
Proof.
  apply (request_returns_response_or_raises migrate.default_config (migrate.attio "t")
           "GET" "/objects" migrate.no_kwargs).
  simpl. lia.
Defined.

(** A run of C4: three allowed attempts against a service that is down. *)
Lemma request_backs_off_then_raises_witness :
  sleeps_of (trace_of (migrate.request migrate.default_config (migrate.attio "t") "GET"
                         "/objects" migrate.no_kwargs Unavailable))
  = [seconds 1; seconds 2].
Proof.
  destruct (request_backs_off_then_raises migrate.default_config (migrate.attio "t")
              "GET" "/objects" migrate.no_kwargs Unavailable)
    as (outcomes & _ & _ & _ & _ & Hsleeps & _).
  - intros []. reflexivity.
  - exact Hsleeps.
Defined.

(** ** [execute_migration] *)

Section Execute.
Context {W : Type} `{Server W} (cfg : migrate.Config).
Import migrate.

Lemma migrate_record_dry_run client mapping target logger record w :
  migrate_record cfg client mapping target true logger record w =
    (Ok (log_success logger (dict_get_default "id" (PStr "unknown") record)
           (PStr "dry-run-id") (build_payload record mapping)),
     w, [Slept 100]).
Proof. reflexivity. Qed.

(** C8: with the dry-run flag set, [execute_migration] sends nothing to any
    service (its only effect is the simulated 0.1 s of work per record, and
    the services are left as they were), and it logs one success with the
    identifier ["dry-run-id"] per input record, in order, and no failure. *)
Theorem dry_run_sends_nothing client records mapping target : forall logger w,
  let out := execute_migration cfg client records mapping target logger true w in
  requests_of (trace_of out) = []
  /\ trace_of out = List.repeat (Slept 100) (List.length records)
  /\ world_of out = w
  /\ exists logger',
       result_of out = Ok logger'
       /\ successful_records logger' =
            (successful_records logger ++
             List.map (fun record =>
                         mkSuccess (dict_get_default "id" (PStr "unknown") record)
                           (PStr "dry-run-id") (build_payload record mapping))
                      records)%list
       /\ failed_records logger' = failed_records logger
       /\ success_count logger' = success_count logger + Z.of_nat (List.length records)
       /\ error_count logger' = error_count logger.
Proof.
  induction records as [|record rest IH]; intros logger w.
  - cbn. repeat split. exists logger. rewrite app_nil_r. repeat split. lia.
  - cbn [execute_migration]. cbv zeta. unfold bind.
    rewrite migrate_record_dry_run.
    specialize (IH (log_success logger (dict_get_default "id" (PStr "unknown") record)
                      (PStr "dry-run-id") (build_payload record mapping)) w).
    cbv zeta in IH.
    destruct (execute_migration cfg client rest mapping target _ true w)
      as [[r w'] t] eqn:Hrest.
    unfold result_of, world_of, trace_of in *. cbn [fst snd] in *.
    destruct IH as (Hreq & Htrace & Hw & logger' & Hres & Hsucc & Hfail & Hcount & Herr).
    repeat split; try assumption.
    + cbn. now rewrite Htrace.
    + exists logger'. repeat split; try assumption.
      * rewrite Hsucc. cbn. now rewrite <- app_assoc.
      * rewrite Hcount. cbn [log_success success_count List.length]. lia.
Qed.

(** Every call the retry loop makes is the same request, made at least once
    when an attempt is allowed and at most once per attempt. *)
Lemma retry_loop_requests req attempts : forall w,
  exists k, (k <= List.length attempts)%nat
            /\ (attempts <> [] -> (1 <= k)%nat)
            /\ requests_of (trace_of (retry_loop cfg req attempts w)) = List.repeat req k.
Proof.
  induction attempts as [|attempt rest IH]; intros w.
  - exists 0%nat. cbn. repeat split; [lia | congruence].
  - destruct (send req w) as [o w1] eqn:Hsend.
    destruct (outcome_error o) as [e|] eqn:Herr.
    + rewrite (retry_loop_failure _ _ _ _ _ _ _ _ Hsend Herr).
      destruct (attempt =? MAX_RETRIES cfg - 1).
      * exists 1%nat. cbn. repeat split; lia.
      * destruct (IH w1) as (k & Hk & _ & Hreq).
        exists (S k). unfold trace_of in *. cbn. rewrite Hreq. repeat split; lia.
    + destruct (outcome_error_none _ Herr) as (resp & -> & Hok).
      rewrite (retry_loop_success _ _ _ _ _ _ _ Hsend Hok).
      exists 1%nat. cbn. repeat split; lia.
Qed.

Lemma request_requests self method endpoint kw w :
  exists k, (k <= Z.to_nat (MAX_RETRIES cfg))%nat
            /\ (1 <= MAX_RETRIES cfg -> (1 <= k)%nat)
            /\ requests_of (trace_of (request cfg self method endpoint kw w))
               = List.repeat (request_of cfg self method endpoint kw) k.
Proof.
  unfold request.
  destruct (retry_loop_requests (request_of cfg self method endpoint kw)
              (py_range (MAX_RETRIES cfg)) w) as (k & Hk & Hpos & Hreq).
  exists k. unfold py_range in *. rewrite length_map, length_seq in Hk.
  repeat split; try assumption.
  intros Hmax. apply Hpos.
  destruct (Z.to_nat (MAX_RETRIES cfg)) eqn:E; [lia | discriminate].
Qed.

(** [post] makes the calls of its [request] and no other. *)
Lemma post_trace self endpoint data kw w :
  trace_of (post cfg self endpoint data kw w)
  = trace_of (request cfg self "POST" endpoint
                (mkKwargs (Some data) (kw_params kw) (kw_timeout kw)) w).
Proof.
  unfold post, bind, trace_of.
  destruct (request cfg self "POST" endpoint _ w) as [[[response|e] w1] t1]; [|reflexivity].
  unfold json_or_none, lift, ret.
  destruct response as [r|]; [destruct (response_ok r)|]; cbn; apply app_nil_r.
Qed.

(** A live record makes the calls of its one write and no other. *)
Lemma migrate_record_live_trace client mapping target logger record w :
  trace_of (migrate_record cfg client mapping target false logger record w)
  = trace_of (send_payload cfg client target (build_payload record mapping)
                (build_values record mapping) w).
Proof.
  unfold migrate_record, build_payload, bind, try, trace_of, ret. cbn [snd].
  destruct (send_payload cfg client target _ _ w) as [[[response|e] w1] t1]; cbn;
    rewrite ?app_nil_r; reflexivity.
Qed.

Lemma send_payload_trace client target payload values w :
  trace_of (send_payload cfg client target payload values w)
  = if String.eqb target "people" && has_email values then
      trace_of (request cfg client "PUT" ("/objects/" +:+ target +:+ "/records")
                  (mkKwargs (Some (PDict [("data", payload)]))
                     (Some [("matching_attribute", PStr "email_addresses")]) None) w)
    else
      trace_of (request cfg client "POST" ("/objects/" +:+ target +:+ "/records")
                  (mkKwargs (Some (PDict [("data", payload)])) None None) w).
Proof.
  unfold send_payload.
  destruct (String.eqb target "people"); cbn [andb];
    [destruct (has_email values)|].
  - unfold bind, trace_of, ret.
    destruct (request cfg client "PUT" _ _ w) as [[[response|e] w1] t1]; cbn;
      rewrite ?app_nil_r; reflexivity.
  - rewrite <- (post_trace client _ _ no_kwargs).
    unfold bind, trace_of, ret.
    destruct (post cfg client _ _ no_kwargs w) as [[[response|e] w1] t1]; cbn;
      rewrite ?app_nil_r; reflexivity.
  - rewrite <- (post_trace client _ _ no_kwargs).
    unfold bind, trace_of, ret.
    destruct (post cfg client _ _ no_kwargs w) as [[[response|e] w1] t1]; cbn;
      rewrite ?app_nil_r; reflexivity.
Qed.

(** C6: in live mode, the write of a record is an upsert, [PUT] on the
    records of the target with [matching_attribute=email_addresses], when
    the target is ["people"] and the payload has a non-empty
    [email_addresses] value; in every other case it is a create, [POST] on
    the records of the target with no query parameter.  Retries repeat the
    same call, and at least one call is made. *)
Theorem write_is_upsert_iff_people_with_email client mapping target logger record w :
  1 <= MAX_RETRIES cfg ->
  let values := build_values record mapping in
  let body := Some (PDict [("data", build_payload record mapping)]) in
  let sent :=
    requests_of (trace_of (migrate_record cfg client mapping target false logger record w)) in
  sent <> []
  /\ if String.eqb target "people" && email_in_payload values then
       Forall (fun r => req_method r = "PUT"
                        /\ req_url r = base_url client +:+ "/objects/people/records"
                        /\ req_params r = Some [("matching_attribute", PStr "email_addresses")]
                        /\ req_json r = body) sent
     else
       Forall (fun r => req_method r = "POST"
                        /\ req_url r = base_url client +:+ "/objects/" +:+ target +:+ "/records"
                        /\ req_params r = None
                        /\ req_json r = body) sent.
Proof.
  intros Hmax values body sent. subst sent.
  rewrite migrate_record_live_trace, send_payload_trace.
  fold values.
  replace (has_email values) with (email_in_payload values)
    by (unfold has_email, email_in_payload, dict_has, dict_get_default;
        destruct (dict_lookup "email_addresses" values); reflexivity).
  destruct (String.eqb_spec target "people") as [->|Hother]; cbn [andb];
    [destruct (email_in_payload values)|].
  all: match goal with
       | |- context [request cfg ?c ?m ?e ?kw ?w0] =>
           destruct (request_requests c m e kw w0) as (k & _ & Hpos & ->)
       end.
  all: split; [specialize (Hpos Hmax); destruct k; [lia | discriminate]|].
  all: apply Forall_forall; intros r Hr%list_elem_of_In%List.repeat_spec; subst r.
  all: repeat split.
Qed.
End Execute.

(** ** The payload of a record *)

Section Payload.
Import migrate.

Variable record : pydict.

Lemma non_empty_lookup source_field :
  non_empty_value (dict_get_default source_field PNone record) = true ->
  dict_lookup source_field record = Some (dict_get_default source_field PNone record).
Proof.
  unfold dict_get_default. destruct (dict_lookup source_field record); [reflexivity|].
  discriminate.
Qed.

(** One mapped field keeps a location already in the payload, or replaces it
    by the location of its own non-empty value. *)
Lemma add_field_keeps_location mapping values item city :
  In item mapping ->
  supplies_location record mapping city ->
  dict_lookup "primary_location" values = Some (PList [location_object city]) ->
  exists city', supplies_location record mapping city'
    /\ dict_lookup "primary_location" (add_field record values item)
       = Some (PList [location_object city']).
Proof.
  intros Hin Hcity Hvalues. destruct item as [source_field target_field].
  unfold add_field.
  destruct (non_empty_value (dict_get_default source_field PNone record)) eqn:Hne;
    [|eauto].
  destruct (String.eqb_spec "primary_location" target_field) as [<-|Hother].
  - exists (dict_get_default source_field PNone record). split.
    + exists source_field. auto using non_empty_lookup.
    + now rewrite dict_lookup_set_eq.
  - exists city. split; [assumption|]. now rewrite dict_lookup_set_ne.
Qed.

Lemma add_field_sets_location values source_field city :
  dict_lookup source_field record = Some city ->
  non_empty_value city = true ->
  dict_lookup "primary_location" (add_field record values (source_field, "primary_location"))
  = Some (PList [location_object city]).
Proof.
  intros Hlookup Hne. unfold add_field, dict_get_default. rewrite Hlookup, Hne.
  now rewrite dict_lookup_set_eq.
Qed.

Lemma fold_add_field_location mapping fields : forall values,
  (forall item, In item fields -> In item mapping) ->
  (exists city, supplies_location record mapping city
     /\ dict_lookup "primary_location" values = Some (PList [location_object city]))
  \/ (exists city, supplies_location record fields city) ->
  exists city, supplies_location record mapping city
    /\ dict_lookup "primary_location" (List.fold_left (add_field record) fields values)
       = Some (PList [location_object city]).
Proof.
  induction fields as [|item rest IH]; intros values Hsub Hcase.
  - destruct Hcase as [Hdone|(city & sf & [] & _)]. exact Hdone.
  - cbn [List.fold_left]. apply IH; [intros; apply Hsub; now right|].
    destruct Hcase as [(city & Hcity & Hvalues)|(city & sf & [->|Hin] & Hlookup & Hne)].
    + left. eapply add_field_keeps_location; eauto. apply Hsub. now left.
    + left. exists city. split.
      * exists sf. split; [apply Hsub; now left | auto].
      * now apply add_field_sets_location.
    + right. exists city, sf. auto.
Qed.
End Payload.

Import migrate.

(** C5, as amended: for every flat record with a non-empty value mapped to
    [primary_location], the payload holds one location object with all TEN
    sub-keys of the fixed shape: [line_1] to [line_4], [region] and [postcode]
    are empty strings, [locality] is a non-empty value the record supplies
    for the location (the supplied one when a single source field is mapped
    to it), and [country_code], [latitude] and [longitude] are null. *)
Theorem location_object_has_all_ten_keys record mapping source_field value :
  In (source_field, "primary_location") mapping ->
  dict_lookup source_field record = Some value ->
  non_empty_value value = true ->
  exists city,
    dict_lookup "primary_location" (build_values record mapping)
    = Some (PList [PDict [("line_1", PStr EmptyString); ("line_2", PStr EmptyString);
                          ("line_3", PStr EmptyString); ("line_4", PStr EmptyString);
                          ("locality", city); ("region", PStr EmptyString);
                          ("postcode", PStr EmptyString); ("country_code", PNone);
                          ("latitude", PNone); ("longitude", PNone)]])
    /\ supplies_location record mapping city
    /\ ((forall other, In (other, "primary_location") mapping -> other = source_field) ->
        city = value).
Proof.
  intros Hin Hlookup Hne.
  destruct (fold_add_field_location record mapping mapping [] (fun _ H => H))
    as (city & Hcity & Hvalues).
  { right. exists value, source_field. auto. }
  exists city. split; [exact Hvalues | split; [exact Hcity|]].
  intros Honly. destruct Hcity as (sf & Hsf & Hsf_lookup & _).
  rewrite (Honly _ Hsf) in Hsf_lookup. congruence.
Qed.

Lemma location_object_has_all_ten_keys_witness :
  exists city,
    dict_lookup "primary_location" (build_values paris people_mapping)
    = Some (PList [location_object city])
    /\ supplies_location paris people_mapping city
    /\ ((forall other, In (other, "primary_location") people_mapping -> other = "city") ->
        city = PStr "Paris").
Proof.
  apply (location_object_has_all_ten_keys paris people_mapping "city" (PStr "Paris")).
  - simpl. tauto.
  - reflexivity.
  - reflexivity.
Defined.

(** C5, as stated, fails: the location object built for a record that has
    only a city has ten sub-keys, not nine. *)
Lemma location_object_has_not_nine_keys :
  ~ emits_nine_key_location paris people_mapping.
Proof.
  intros (obj & Hobj & Hlen). vm_compute in Hobj.
  injection Hobj as <-. discriminate Hlen.
Qed.

(** ** What [execute_migration] records for a live write *)

(** What [post] hands back is the parsed body, which has no [json] method:
    whenever it is truthy, the identifier logged is the fallback of the bare
    [except], whatever the body holds. *)
Lemma log_response_from_post logger twenty_id payload v :
  py_truthy v = true ->
  log_response logger twenty_id payload (FromPost v)
  = log_success logger twenty_id (PStr "upserted-no-content") payload.
Proof. intros Hv. unfold log_response. cbn. now rewrite Hv. Qed.

(** On the [PUT] path the response object is kept, and the identifier is read
    from its body. *)
Lemma log_response_from_put logger twenty_id payload r body record_id :
  response_ok r = true ->
  json_body r = JSON (PDict body) ->
  dict_lookup "data" body = Some (PDict [("id", PDict [("record_id", record_id)])]) ->
  log_response logger twenty_id payload (FromRequest (Some r))
  = log_success logger twenty_id record_id payload.
Proof.
  intros Hok Hbody Hdata. unfold log_response. cbn [response_truthy call_json].
  rewrite Hok. unfold response_json. rewrite Hbody.
  cbn. unfold dict_has. rewrite Hdata. reflexivity.
Qed.

Lemma log_response_logs_once logger twenty_id payload response :
  (exists attio_id, log_response logger twenty_id payload response
                    = log_success logger twenty_id attio_id payload)
  \/ (exists msg, log_response logger twenty_id payload response
                  = log_error logger twenty_id msg payload).
Proof.
  unfold log_response. destruct (response_truthy response); [left | right; eauto].
  destruct (rbind _ _) as [[attio_id|]|]; eauto.
Qed.

Section Completion.
Context {W : Type} `{Server W} (cfg : Config).

(** Every record, dry or live, ends in exactly one log entry and never in an
    exception. *)
Lemma migrate_record_logs_once client mapping target dry_run logger record w :
  let twenty_id := dict_get_default "id" (PStr "unknown") record in
  let payload := build_payload record mapping in
  exists logger',
    result_of (migrate_record cfg client mapping target dry_run logger record w) = Ok logger'
    /\ ((exists attio_id, logger' = log_success logger twenty_id attio_id payload)
        \/ (exists msg, logger' = log_error logger twenty_id msg payload)).
Proof.
  intros twenty_id payload. destruct dry_run.
  - rewrite migrate_record_dry_run. cbn. eauto.
  - unfold migrate_record, bind, try, ret, result_of.
    fold twenty_id. change (PDict [("values", PDict (build_values record mapping))])
      with payload.
    destruct (send_payload cfg client target payload _ w) as [[[response|e] w1] t1];
      cbn; eexists; split; try reflexivity.
    + destruct (log_response_logs_once logger twenty_id payload response)
        as [(a & ->)|(m & ->)]; eauto.
    + eauto.
Qed.

Lemma execute_migration_completes client records mapping target dry_run : forall logger w,
  exists logger',
    result_of (execute_migration cfg client records mapping target logger dry_run w)
    = Ok logger'
    /\ (List.length (successful_records logger') + List.length (failed_records logger')
        = List.length (successful_records logger) + List.length (failed_records logger)
          + List.length records)%nat.
Proof.
  induction records as [|record rest IH]; intros logger w.
  - exists logger. cbn. split; [reflexivity | lia].
  - cbn [execute_migration]. unfold bind.
    destruct (migrate_record_logs_once client mapping target dry_run logger record w)
      as (logger1 & Hres & Hlog).
    destruct (migrate_record cfg client mapping target dry_run logger record w)
      as [[r w1] t1]. unfold result_of in Hres. cbn in Hres. subst r.
    destruct (IH logger1 w1) as (logger' & Hres' & Hlen).
    destruct (execute_migration cfg client rest mapping target logger1 dry_run w1)
      as [[r w2] t2]. unfold result_of in *. cbn in *. subst r.
    exists logger'. split; [reflexivity|].
    rewrite Hlen.
    destruct Hlog as [(a & ->)|(m & ->)]; cbn; rewrite length_app; cbn; lia.
Qed.
End Completion.

(** C3 at the input of [test_execute_migration_live]: a person without email
    is created with [POST], the service answers 200 with the new record's
    identifier ["attio_1"] in the body, and the success that is logged carries
    ["upserted-no-content"] instead of that identifier. *)
Theorem created_identifier_is_not_logged :
  let out := execute_migration default_config (attio "t") [alice] [("name", "name")]
               "people" new_logger false [Responded created_attio_1] in
  List.map req_method (requests_of (trace_of out)) = ["POST"]
  /\ response_json created_attio_1
     = Ok (PDict [("data", PDict [("id", PDict [("record_id", PStr "attio_1")])])])
  /\ exists logger',
       result_of out = Ok logger'
       /\ List.map s_attio_id (successful_records logger') = [PStr "upserted-no-content"]
       /\ failed_records logger' = [].
Proof.
  cbv zeta. split; [reflexivity|]. split; [reflexivity|].
  eexists. split; [reflexivity|]. split; reflexivity.
Qed.

(** A run of C6: the test's person has no email, so the write is a [POST]. *)
Lemma write_is_upsert_iff_people_with_email_witness :
  requests_of (trace_of (migrate_record default_config (attio "t") [("name", "name")]
                           "people" false new_logger alice
                           [Responded created_attio_1]))
  <> [].
Proof.
  apply (write_is_upsert_iff_people_with_email default_config (attio "t")
           [("name", "name")] "people" new_logger alice [Responded created_attio_1]).
  simpl. lia.
Defined.

Import merge_duplicates.

(** ** Order of strings *)

Lemma ascii_compare_N a b :
  Ascii.compare a b = N.compare (N_of_ascii a) (N_of_ascii b).
Proof. reflexivity. Qed.

Lemma string_leb_trans s1 : forall s2 s3,
  String.leb s1 s2 = true -> String.leb s2 s3 = true -> String.leb s1 s3 = true.
Proof.
  unfold String.leb.
  induction s1 as [|a s1 IH]; intros [|b s2] [|c s3]; cbn; try congruence.
  rewrite !ascii_compare_N.
  destruct (N.compare_spec (N_of_ascii a) (N_of_ascii b)) as [Hab|Hab|Hab];
    destruct (N.compare_spec (N_of_ascii b) (N_of_ascii c)) as [Hbc|Hbc|Hbc];
    destruct (N.compare_spec (N_of_ascii a) (N_of_ascii c)) as [Hac|Hac|Hac];
    try congruence; try lia; intros H12 H23.
  apply (IH s2 s3); assumption.
Qed.

Lemma string_ltb_leb s1 s2 : String.ltb s1 s2 = false <-> String.leb s2 s1 = true.
Proof.
  unfold String.ltb, String.leb. rewrite (String.compare_antisym s2 s1).
  destruct (String.compare s1 s2); cbn; split; congruence.
Qed.

Lemma string_ltb_true_leb s1 s2 : String.ltb s1 s2 = true -> String.leb s1 s2 = true.
Proof.
  unfold String.ltb, String.leb. destruct (String.compare s1 s2); congruence.
Qed.

(** ** The sort of a group *)

Lemma insert_by_created_at_perm x sorted :
  Permutation (x :: sorted) (insert_by_created_at x sorted).
Proof.
  induction sorted as [|y rest IH]; cbn; [reflexivity|].
  destruct (String.ltb (text_of (created_at x)) (text_of (created_at y))); [reflexivity|].
  rewrite <- IH. apply perm_swap.
Qed.

Lemma insert_by_created_at_sorted x sorted :
  sorted_by_created_at sorted -> sorted_by_created_at (insert_by_created_at x sorted).
Proof.
  induction 1 as [|y rest Hy Hrest IH]; cbn.
  - repeat constructor.
  - destruct (String.ltb (text_of (created_at x)) (text_of (created_at y))) eqn:Hlt.
    + apply string_ltb_true_leb in Hlt.
      constructor; [|now constructor].
      constructor; [exact Hlt|].
      eapply Forall_impl; [exact Hy|]. cbn. intros o Ho.
      eapply string_leb_trans; eassumption.
    + apply string_ltb_leb in Hlt. constructor; [|exact IH].
      unfold earliest. rewrite <- (insert_by_created_at_perm x rest).
      constructor; assumption.
Qed.

Lemma stable_sort_spec recs :
  Permutation recs (stable_sort recs) /\ sorted_by_created_at (stable_sort recs).
Proof.
  unfold stable_sort.
  enough (Hgen : forall acc, sorted_by_created_at acc ->
            Permutation (recs ++ acc)%list
              (List.fold_left (fun sorted x => insert_by_created_at x sorted) recs acc)
            /\ sorted_by_created_at
                 (List.fold_left (fun sorted x => insert_by_created_at x sorted) recs acc)).
  { destruct (Hgen [] sorted_nil) as [Hperm Hsorted]. rewrite app_nil_r in Hperm. auto. }
  induction recs as [|x rest IH]; intros acc Hacc; cbn [List.fold_left].
  - split; [reflexivity | assumption].
  - destruct (IH (insert_by_created_at x acc) (insert_by_created_at_sorted x acc Hacc))
      as [Hperm Hsorted].
    split; [|exact Hsorted].
    etransitivity; [|exact Hperm].
    etransitivity; [apply Permutation_middle|].
    apply Permutation_app_head, insert_by_created_at_perm.
Qed.

(** ** Well-formed records *)

Lemma well_formed_parts r :
  well_formed r = true ->
  is_str (id r) = true /\ is_str (created_at r) = true
  /\ List.forallb is_str (domains r) = true.
Proof.
  unfold well_formed. intros Hr.
  apply andb_true_iff in Hr as [Hr Hdomains]. apply andb_true_iff in Hr as [Hid Hcreated].
  auto.
Qed.

Lemma is_str_text v : is_str v = true -> v = PStr (text_of v).
Proof. destruct v; try discriminate. reflexivity. Qed.

(** On records whose creation times are text the sort is the stable one. *)
Lemma sort_by_created_at_texts recs :
  List.Forall (fun r => is_str (created_at r) = true) recs ->
  sort_by_created_at recs = Some (Ok (stable_sort recs)).
Proof.
  intros Hrecs. unfold sort_by_created_at.
  replace (List.forallb (fun x => is_str (created_at x)) recs) with true; [reflexivity|].
  symmetry. apply List.forallb_forall. intros r Hr.
  now apply (proj1 (List.Forall_forall _ _) Hrecs).
Qed.

(** Two leading records without a creation time stop the sort, and the run,
    with a [TypeError]. *)
Lemma sort_by_created_at_undated first second rest :
  created_at first = PNone ->
  created_at second = PNone ->
  sort_by_created_at (first :: second :: rest)
  = Some (Raise (TypeError
       "'<' not supported between instances of 'NoneType' and 'NoneType'")).
Proof.
  intros Hfirst Hsecond. unfold sort_by_created_at. cbn [List.forallb].
  rewrite Hfirst, Hsecond. reflexivity.
Qed.

Lemma id_texts_of_text others : forall index,
  List.Forall (fun o => is_str (id o) = true) others ->
  id_texts index others = Ok (List.map id_text others).
Proof.
  induction others as [|o rest IH]; intros index Hothers; [reflexivity|].
  inversion Hothers as [|? ? Ho Hrest]; subst. cbn [id_texts List.map].
  unfold id_text at 1. destruct (id o); try discriminate.
  rewrite (IH _ Hrest). reflexivity.
Qed.

Lemma join_ids_of_text others :
  List.Forall (fun o => is_str (id o) = true) others ->
  join_ids others = Ok (py_join ", " (List.map id_text others)).
Proof. intros Hothers. unfold join_ids. now rewrite id_texts_of_text. Qed.

(** ** The union of the domains *)

Lemma update_domains_elem new : forall all_domains,
  List.forallb is_str new = true ->
  exists updated,
    update_domains all_domains new = Some (Ok updated)
    /\ forall d, d ∈ updated <-> d ∈ all_domains \/ In (PStr d) new.
Proof.
  induction new as [|v rest IH]; intros all_domains Hnew.
  - exists all_domains. split; [reflexivity|]. intros d. cbn. tauto.
  - cbn in Hnew. apply andb_true_iff in Hnew as [Hv Hrest].
    destruct v as [| | | |s| |]; try discriminate. cbn [update_domains].
    destruct (IH (all_domains ∪ {[s]}) Hrest) as (updated & -> & Helem).
    exists updated. split; [reflexivity|]. intros d.
    rewrite Helem, elem_of_union, elem_of_singleton. cbn. split.
    + intros [[Hd| ->]|Hd]; auto.
    + intros [Hd|[[= ->]|Hd]]; auto.
Qed.

Lemma update_with_others_elem others : forall all_domains,
  List.Forall (fun o => List.forallb is_str (domains o) = true) others ->
  exists updated,
    update_with_others all_domains others = Some (Ok updated)
    /\ forall d, d ∈ updated
                 <-> d ∈ all_domains \/ exists r, In r others /\ In (PStr d) (domains r).
Proof.
  induction others as [|o rest IH]; intros all_domains Hothers.
  - exists all_domains. split; [reflexivity|]. intros d. split; [auto|].
    intros [Hd|(r & [] & _)]. exact Hd.
  - inversion Hothers as [|? ? Ho Hrest]; subst. cbn [update_with_others].
    destruct (update_domains_elem (domains o) all_domains Ho) as (first & -> & Hfirst).
    destruct (IH first Hrest) as (updated & -> & Helem).
    exists updated. split; [reflexivity|]. intros d. rewrite Helem, Hfirst. split.
    + intros [[Hd|Hd]|(r & Hr & Hd)]; [auto | right; exists o | right; exists r];
        cbn; auto.
    + intros [Hd|(r & [<-|Hr] & Hd)]; eauto.
Qed.

Lemma aggregate_domains_elem master others :
  List.Forall (fun o => List.forallb is_str (domains o) = true) (master :: others) ->
  exists all_domains,
    aggregate_domains master others = Some (Ok all_domains)
    /\ forall d, d ∈ all_domains <-> domain_of_group (master :: others) d.
Proof.
  intros Hall. inversion Hall as [|? ? Hmaster Hothers]; subst.
  unfold aggregate_domains, domain_of_group.
  destruct (update_domains_elem (domains master) ∅ Hmaster) as (first & -> & Hfirst).
  destruct (update_with_others_elem others first Hothers) as (updated & -> & Helem).
  exists updated. split; [reflexivity|]. intros d. rewrite Helem, Hfirst. split.
  - intros [[Hd|Hd]|(r & Hr & Hd)].
    + now apply not_elem_of_empty in Hd.
    + exists master. cbn. auto.
    + exists r. cbn. auto.
  - intros (r & [<-|Hr] & Hd); eauto.
Qed.

(** ** The merge of one group *)

(** The groups [main] keeps have more than one record. *)
Lemma more_than_one_length {A} (m : list (string * list A)) group :
  In group (find_duplicates.more_than_one m) -> (1 < List.length (snd group))%nat.
Proof.
  unfold find_duplicates.more_than_one. intros Hin%List.filter_In. destruct Hin as [_ Hlen].
  apply Z.ltb_lt in Hlen. lia.
Qed.

(** What the code sends for a record whose identifier is text is what the
    specification words. *)
Lemma delete_request_stated TOKEN o :
  is_str (id o) = true -> delete_request TOKEN (id o) = stated_delete TOKEN (id_text o).
Proof. unfold id_text. destruct (id o); try discriminate. reflexivity. Qed.

Lemma patch_request_stated TOKEN master final_domains :
  is_str (id master) = true ->
  patch_request TOKEN (id master) (List.map PStr final_domains)
  = stated_update TOKEN (id_text master) final_domains.
Proof.
  unfold id_text. destruct (id master); try discriminate. intros _.
  unfold patch_request, stated_update, domains_payload. rewrite List.map_map. reflexivity.
Qed.

Section MergeRuns.
Context {W : Type} `{Server W} (TOKEN : string).

Lemma delete_record_run record_id w o w1 :
  send (delete_request TOKEN record_id) w = (o, w1) ->
  delete_record TOKEN record_id w
  = (Ok (negb (outcome_fails o)), w1, [Sent (delete_request TOKEN record_id) o]).
Proof.
  intros Hsend. unfold delete_record, bind, try, http, lift, ret. rewrite Hsend.
  unfold outcome_fails, outcome_error.
  destruct o as [resp|msg]; [|reflexivity].
  cbn. destruct (raise_for_status resp) as [[]|e]; reflexivity.
Qed.

Lemma update_company_domains_run record_id domains w o w1 :
  send (patch_request TOKEN record_id domains) w = (o, w1) ->
  update_company_domains TOKEN record_id domains w
  = (Ok (negb (outcome_fails o)), w1, [Sent (patch_request TOKEN record_id domains) o]).
Proof.
  intros Hsend. unfold update_company_domains, bind, try, http, lift, ret. rewrite Hsend.
  unfold outcome_fails, outcome_error.
  destruct o as [resp|msg]; [|reflexivity].
  cbn. destruct (raise_for_status resp) as [[]|e]; reflexivity.
Qed.

Lemma delete_others_cons o rest w answer w1 :
  send (delete_request TOKEN (id o)) w = (answer, w1) ->
  delete_others TOKEN (o :: rest) w
  = if outcome_fails answer then
      (Ok false, w1, [Sent (delete_request TOKEN (id o)) answer])
    else
      (result_of (delete_others TOKEN rest w1), world_of (delete_others TOKEN rest w1),
       Sent (delete_request TOKEN (id o)) answer :: Slept 500
         :: trace_of (delete_others TOKEN rest w1)).
Proof.
  intros Hsend. cbn [delete_others]. unfold bind at 1.
  rewrite (delete_record_run _ _ _ _ Hsend).
  destruct (outcome_fails answer); cbn [negb]; [reflexivity|].
  unfold bind, sleep, result_of, world_of, trace_of.
  destruct (delete_others TOKEN rest w1) as [[r w2] t2]. reflexivity.
Qed.

Lemma delete_others_run others : forall w,
  List.Forall (fun o => is_str (id o) = true) others ->
  let out := delete_others TOKEN others w in
  (result_of out = Ok true /\ all_deleted TOKEN others (trace_of out))
  \/ (result_of out = Ok false /\ stopped_at_failed_delete TOKEN others (trace_of out)).
Proof.
  induction others as [|o rest IH]; intros w Hothers; cbv zeta.
  - left. split; [reflexivity|]. exists []. cbn. auto.
  - inversion Hothers as [|? ? Ho Hrest]; subst.
    destruct (send (delete_request TOKEN (id o)) w) as [answer w1] eqn:Hsend.
    rewrite (delete_others_cons _ _ _ _ _ Hsend), (delete_request_stated TOKEN o Ho).
    destruct (outcome_fails answer) eqn:Hanswer.
    + right. split; [reflexivity|].
      exists [], o, rest, [], answer. cbn. auto.
    + specialize (IH w1 Hrest). cbv zeta in IH.
      unfold result_of, trace_of in *. cbn [fst snd] in *.
      destruct IH as [[-> (outcomes & Hlen & Hall & ->)]
                     |[-> (deleted & failed & remaining & outcomes & bad
                           & -> & Hlen & Hall & Hbad & ->)]].
      * left. split; [reflexivity|].
        exists (answer :: outcomes). cbn. auto.
      * right. split; [reflexivity|].
        exists (o :: deleted), failed, remaining, (answer :: outcomes), bad.
        cbn. auto 6.
Qed.

Lemma requests_of_app t1 t2 :
  requests_of (t1 ++ t2) = (requests_of t1 ++ requests_of t2)%list.
Proof.
  induction t1 as [|[r o|ms] t1 IH]; cbn; [reflexivity | now rewrite IH | exact IH].
Qed.

Lemma delete_trace_only_deletes deleted : forall outcomes,
  Forall (deletes_one_of TOKEN deleted) (requests_of (delete_trace TOKEN deleted outcomes)).
Proof.
  induction deleted as [|o rest IH]; intros [|answer answers]; cbn; try constructor.
  - exists o. split; [now left | reflexivity].
  - eapply Forall_impl; [apply IH|]. cbn. intros r (o' & Ho' & Hr). exists o'.
    split; [now right | exact Hr].
Qed.

(** An aborted group has sent nothing but [DELETE]s of other records. *)
Lemma stopped_only_deletes others t :
  stopped_at_failed_delete TOKEN others t ->
  Forall (deletes_one_of TOKEN others) (requests_of t).
Proof.
  intros (deleted & failed & remaining & outcomes & bad & -> & _ & _ & _ & ->).
  rewrite requests_of_app. apply Forall_app. split.
  - eapply Forall_impl; [apply delete_trace_only_deletes|]. cbn.
    intros r (o & Ho & Hr). exists o. split; [|exact Hr].
    apply in_or_app. now left.
  - cbn. constructor; [|constructor].
    exists failed. split; [|reflexivity]. apply in_or_app. right. now left.
Qed.

(** A group of well-formed records has a plan, and the code follows it up to
    the first call. *)
Lemma merge_plan_exists recs :
  recs <> [] ->
  List.Forall (fun r => well_formed r = true) recs ->
  exists master others all_domains,
    merge_plan recs master others (elements all_domains)
    /\ aggregate_domains master others = Some (Ok all_domains)
    /\ is_str (id master) = true
    /\ List.Forall (fun o => is_str (id o) = true) others.
Proof.
  intros Hne Hrecs.
  assert (Hparts : List.Forall (fun r => is_str (id r) = true
                                         /\ is_str (created_at r) = true
                                         /\ List.forallb is_str (domains r) = true) recs).
  { eapply List.Forall_impl; [|exact Hrecs]. apply well_formed_parts. }
  destruct (stable_sort_spec recs) as [Hperm Hsorted].
  assert (Hsort : sort_by_created_at recs = Some (Ok (stable_sort recs))).
  { apply sort_by_created_at_texts. eapply List.Forall_impl; [|exact Hparts]. cbn. tauto. }
  destruct (stable_sort recs) as [|master others] eqn:Hstable.
  - apply Permutation_nil_r in Hperm. contradiction.
  - assert (Hsortedparts : List.Forall (fun r => is_str (id r) = true
                                                 /\ is_str (created_at r) = true
                                                 /\ List.forallb is_str (domains r) = true)
                             (master :: others)).
    { apply List.Forall_forall. intros r Hr.
      apply (proj1 (List.Forall_forall _ _) Hparts).
      eapply Permutation_in; [symmetry; exact Hperm | exact Hr]. }
    destruct (aggregate_domains_elem master others) as (all_domains & Hagg & Helem).
    { eapply List.Forall_impl; [|exact Hsortedparts]. cbn. tauto. }
    exists master, others, all_domains.
    inversion Hsortedparts as [|? ? Hmaster Hothers]; subst.
    split; [|split; [exact Hagg|split; [tauto|]]].
    + repeat split.
      * exact Hsort.
      * exact Hperm.
      * now inversion Hsorted.
      * apply NoDup_elements.
      * intros Hd. apply list_elem_of_In, elem_of_elements, Helem in Hd.
        destruct Hd as (r & Hr & Hd). exists r. split; [|exact Hd].
        eapply Permutation_in; [symmetry; exact Hperm | exact Hr].
      * intros (r & Hr & Hd). apply list_elem_of_In, elem_of_elements, Helem.
        exists r. split; [|exact Hd]. eapply Permutation_in; eassumption.
    + eapply List.Forall_impl; [|exact Hothers]. cbn. tauto.
Qed.

(** The run of a group that gets through the sort, the printing of the
    identifiers and the set of domains. *)
Lemma merge_group_run recs master others joined all_domains w :
  sort_by_created_at recs = Some (Ok (master :: others)) ->
  join_ids others = Ok joined ->
  aggregate_domains master others = Some (Ok all_domains) ->
  let final_domains := List.map PStr (elements all_domains) in
  let deletes := delete_others TOKEN others w in
  let update := send (patch_request TOKEN (id master) final_domains) (world_of deletes) in
  merge_group TOKEN recs w
  = match result_of deletes with
    | Ok true =>
        (Ok (Some tt), snd update,
         (trace_of deletes
          ++ [Slept 1000;
              Sent (patch_request TOKEN (id master) final_domains) (fst update)])%list)
    | Ok false => (Ok (Some tt), world_of deletes, trace_of deletes)
    | Raise e => (Raise e, world_of deletes, trace_of deletes)
    end.
Proof.
  intros Hsort Hjoin Hagg. cbv zeta. unfold merge_group.
  rewrite Hsort, Hjoin, Hagg. unfold bind at 1. unfold delete_then_update, bind at 1.
  destruct (delete_others TOKEN others w) as [[[[|]|e] w1] t1];
    unfold result_of, world_of, trace_of; cbn [fst snd negb]; [| |reflexivity].
  - unfold bind, sleep.
    destruct (send (patch_request TOKEN (id master) _) w1) as [answer w2] eqn:Hsend.
    rewrite (update_company_domains_run _ _ _ _ _ Hsend). cbn.
    now rewrite app_nil_r.
  - unfold ret. cbn. now rewrite !app_nil_r.
Qed.

(** A group whose two leading records carry no creation time raises at the
    sort, before any call. *)
Lemma merge_group_undated first second rest w :
  created_at first = PNone ->
  created_at second = PNone ->
  merge_group TOKEN (first :: second :: rest) w
  = (Raise (TypeError "'<' not supported between instances of 'NoneType' and 'NoneType'"),
     w, []).
Proof.
  intros Hfirst Hsecond. unfold merge_group.
  now rewrite (sort_by_created_at_undated first second rest Hfirst Hsecond).
Qed.

Lemma delete_others_returns others : forall w,
  exists deleted, result_of (delete_others TOKEN others w) = Ok deleted.
Proof.
  induction others as [|o rest IH]; intros w; [now exists true|].
  destruct (send (delete_request TOKEN (id o)) w) as [answer w1] eqn:Hsend.
  rewrite (delete_others_cons _ _ _ _ _ Hsend).
  destruct (outcome_fails answer); [now exists false | exact (IH w1)].
Qed.

(** Whatever the records hold, a group that does not end well has raised, or
    was left, before any call: calls are made only by a group that gets
    through the sort, the identifiers and the set of domains, and such a group
    ends well. *)
Lemma merge_group_stops_before_any_call recs w :
  result_of (merge_group TOKEN recs w) <> Ok (Some tt) ->
  trace_of (merge_group TOKEN recs w) = [].
Proof.
  unfold merge_group.
  destruct (sort_by_created_at recs) as [[[|master others]|e]|]; try reflexivity.
  destruct (join_ids others) as [joined|e]; [|reflexivity].
  destruct (aggregate_domains master others) as [[all_domains|e]|]; try reflexivity.
  intros Hends. exfalso. apply Hends. unfold bind at 1, delete_then_update, bind at 1.
  destruct (delete_others_returns others w) as [deleted Hdeleted].
  destruct (delete_others TOKEN others w) as [[r w1] t1].
  unfold result_of in Hdeleted. cbn in Hdeleted. subst r.
  destruct deleted; cbn [negb].
  - unfold bind, sleep.
    destruct (send (patch_request TOKEN (id master)
                      (List.map PStr (elements all_domains))) w1) as [answer w2] eqn:Hsend.
    rewrite (update_company_domains_run _ _ _ _ _ Hsend). reflexivity.
  - reflexivity.
Qed.

(** C1: for a duplicate group of well-formed records (identifier, creation
    time and domains are text), the master is the earliest-created record; the
    update of the master, a [PATCH] of its address whose body holds each domain
    of the group once and nothing else, is sent only after the [DELETE] of the
    address of every other record has succeeded; when a [DELETE] fails the
    group stops there: the failing call is the last one of the group, every
    call of the group is a [DELETE] of another record and no [PATCH] is sent,
    so the master keeps its domains; and in both cases the loop goes on with
    the next group. *)
Theorem master_updated_only_after_all_deletes name recs next_groups w :
  (1 < List.length recs)%nat ->
  List.Forall (fun r => well_formed r = true) recs ->
  let group := merge_group TOKEN recs w in
  let following := merge_all TOKEN next_groups (world_of group) in
  exists master others final_domains,
    merge_plan recs master others final_domains
    /\ result_of group = Ok (Some tt)
    /\ ((exists deletes answer,
           all_deleted TOKEN others deletes
           /\ trace_of group
              = (deletes
                 ++ [Slept 1000;
                     Sent (stated_update TOKEN (id_text master) final_domains) answer])%list)
        \/ (stopped_at_failed_delete TOKEN others (trace_of group)
            /\ Forall (deletes_one_of TOKEN others) (requests_of (trace_of group))))
    /\ merge_all TOKEN ((name, recs) :: next_groups) w
       = (result_of following, world_of following,
          (trace_of group ++ trace_of following)%list).
Proof.
  intros Hlen Hrecs group following.
  destruct (merge_plan_exists recs) as (master & others & all_domains & Hplan & Hagg
                                        & Hmaster & Hothers); [|exact Hrecs|].
  { intros ->. cbn in Hlen. lia. }
  exists master, others, (elements all_domains). split; [exact Hplan|].
  destruct Hplan as (Hsort & _).
  assert (Hgroup : result_of group = Ok (Some tt)
            /\ ((exists deletes answer,
                   all_deleted TOKEN others deletes
                   /\ trace_of group
                      = (deletes
                         ++ [Slept 1000;
                             Sent (stated_update TOKEN (id_text master)
                                     (elements all_domains)) answer])%list)
                \/ (stopped_at_failed_delete TOKEN others (trace_of group)
                    /\ Forall (deletes_one_of TOKEN others)
                         (requests_of (trace_of group))))).
  { subst group.
    rewrite (merge_group_run _ _ _ _ _ _ Hsort (join_ids_of_text others Hothers) Hagg).
    rewrite (patch_request_stated TOKEN master _ Hmaster).
    pose proof (delete_others_run others w Hothers) as Hdel. cbv zeta in Hdel.
    destruct Hdel as [[-> Hall]|[-> Hstop]].
    - split; [reflexivity|]. left.
      exists (trace_of (delete_others TOKEN others w)). eexists.
      split; [exact Hall | reflexivity].
    - split; [reflexivity|]. right. split; [exact Hstop|].
      now apply stopped_only_deletes. }
  destruct Hgroup as [Hres Hcases]. split; [exact Hres|]. split; [exact Hcases|].
  cbn [merge_all snd]. unfold bind.
  fold group. subst following.
  destruct group as [[r w1] t1]. unfold result_of in Hres. cbn in Hres. subst r.
  unfold world_of, result_of, trace_of. cbn [fst snd].
  destruct (merge_all TOKEN next_groups w1) as [[r2 w2] t2]. reflexivity.
Qed.
End MergeRuns.

(** ** [process_people] *)

Import find_duplicates.

(** A record with one address adds its summary under the lowercased address,
    and nothing when the address is empty. *)
Lemma add_person_one_address email_map record_id full_name address created_at :
  add_person email_map (person record_id full_name [address] created_at)
  = Ok (if str_is_empty address then email_map
        else multimap_append (py_lower address)
               (person_summary record_id full_name address created_at) email_map).
Proof. destruct address; reflexivity. Qed.

(** C9: two person records whose addresses, of ASCII text, lowercase to the
    same non-empty key (such as [a@b.com]) and a third record with an unrelated
    address, in any order, give exactly one duplicate group, under that key,
    holding the summaries of the two records in input order; the third record
    is in no group. *)
Theorem two_people_sharing_an_email_form_one_group
    key id1 name1 address1 created1 id2 name2 address2 created2
    id3 name3 address3 created3 before after :
  is_ascii address1 = true ->
  is_ascii address2 = true ->
  is_ascii address3 = true ->
  key <> EmptyString ->
  py_lower address1 = key ->
  py_lower address2 = key ->
  py_lower address3 <> key ->
  (before ++ after)%list
  = [person id1 name1 [address1] created1; person id2 name2 [address2] created2] ->
  process_people (before ++ person id3 name3 [address3] created3 :: after)
  = Ok [(key, [person_summary id1 name1 address1 created1;
               person_summary id2 name2 address2 created2])].
Proof.
  intros _ _ _ Hkey H1 H2 H3 Hsplit.
  assert (E1 : str_is_empty address1 = false).
  { destruct address1; [cbn in H1; congruence | reflexivity]. }
  assert (E2 : str_is_empty address2 = false).
  { destruct address2; [cbn in H2; congruence | reflexivity]. }
  assert (Hne : String.eqb key (py_lower address3) = false).
  { apply String.eqb_neq. congruence. }
  assert (Hne' : String.eqb (py_lower address3) key = false).
  { apply String.eqb_neq. congruence. }
  assert (Hcases : (before = [] /\ after = [person id1 name1 [address1] created1;
                                             person id2 name2 [address2] created2])
                   \/ (before = [person id1 name1 [address1] created1]
                       /\ after = [person id2 name2 [address2] created2])
                   \/ (before = [person id1 name1 [address1] created1;
                                 person id2 name2 [address2] created2] /\ after = [])).
  { destruct before as [|b1 [|b2 [|b3 before]]]; cbn in Hsplit.
    - left. auto.
    - right. left. injection Hsplit as -> ->. auto.
    - right. right. injection Hsplit as -> -> ->. auto.
    - discriminate Hsplit. }
  unfold process_people.
  destruct Hcases as [[-> ->]|[[-> ->]|[-> ->]]]; cbn [app fill_email_map];
    rewrite !add_person_one_address; cbn [rbind];
    rewrite ?add_person_one_address; cbn [rbind];
    rewrite ?add_person_one_address; cbn [rbind];
    rewrite E1, E2, H1, H2;
    destruct (str_is_empty address3); cbn [multimap_append];
    rewrite ?Hne, ?Hne', ?String.eqb_refl; cbn [multimap_append];
    rewrite ?Hne, ?Hne', ?String.eqb_refl; reflexivity.
Qed.

Lemma two_people_sharing_an_email_form_one_group_witness :
  process_people [person "r1" "Ann" ["a@b.com"] "2024-01-01";
                  person "r3" "Cy" ["c@d.com"] "2024-01-02";
                  person "r2" "Ann B" ["A@B.com"] "2024-01-03"]
  = Ok [("a@b.com", [person_summary "r1" "Ann" "a@b.com" "2024-01-01";
                     person_summary "r2" "Ann B" "A@B.com" "2024-01-03"])].
Proof.
  apply (two_people_sharing_an_email_form_one_group "a@b.com"
           "r1" "Ann" "a@b.com" "2024-01-01" "r2" "Ann B" "A@B.com" "2024-01-03"
           "r3" "Cy" "c@d.com" "2024-01-02"
           [person "r1" "Ann" ["a@b.com"] "2024-01-01"]
           [person "r2" "Ann B" ["A@B.com"] "2024-01-03"]).
  - reflexivity.
  - reflexivity.
  - reflexivity.
  - discriminate.
  - reflexivity.
  - reflexivity.
  - discriminate.
  - reflexivity.
Defined.

(** ** Splitting strings *)

Lemma py_split_not_nil c s : py_split c s <> [].
Proof.
  destruct s as [|a s]; cbn; [discriminate|].
  destruct (ascii_eqb a c); [discriminate|].
  destruct (py_split c s); discriminate.
Qed.

Lemma first_segment_split c s : first_segment (py_split c s) = before_first c s.
Proof.
  induction s as [|a s IH]; cbn; [reflexivity|].
  destruct (ascii_eqb a c); [reflexivity|].
  destruct (py_split c s) as [|h t] eqn:Hsplit; [now apply py_split_not_nil in Hsplit|].
  cbn in *. now rewrite IH.
Qed.

Lemma py_split_no_separator c s : py_contains_char c s = false -> py_split c s = [s].
Proof.
  induction s as [|a s IH]; cbn; [reflexivity|].
  destruct (ascii_eqb a c); cbn; [discriminate|].
  intros Hs. now rewrite (IH Hs).
Qed.

Lemma py_split_separator c s :
  py_contains_char c s = true -> exists h h' t, py_split c s = h :: h' :: t.
Proof.
  induction s as [|a s IH]; cbn; [discriminate|].
  destruct (ascii_eqb a c); cbn.
  - intros _. destruct (py_split c s) as [|h t] eqn:Hsplit;
      [now apply py_split_not_nil in Hsplit | eauto].
  - intros Hs. destruct (IH Hs) as (h & h' & t & ->). eauto.
Qed.

Lemma last_segment_split c s : last_segment (py_split c s) = after_last c s.
Proof.
  unfold last_segment.
  induction s as [|a s IH]; [reflexivity|].
  cbn [py_split after_last].
  destruct (ascii_eqb a c); cbn [orb].
  - destruct (py_split c s) as [|h t] eqn:Hsplit;
      [now apply py_split_not_nil in Hsplit | exact IH].
  - destruct (py_contains_char c s) eqn:Hs.
    + destruct (py_split_separator c s Hs) as (h & h' & t & Hsplit).
      rewrite Hsplit in *. exact IH.
    + now rewrite (py_split_no_separator c s Hs).
Qed.

Lemma before_first_no_separator c s : py_contains_char c s = false -> before_first c s = s.
Proof.
  induction s as [|a s IH]; cbn; [reflexivity|].
  destruct (ascii_eqb a c); cbn; [discriminate|].
  intros Hs. now rewrite (IH Hs).
Qed.

Lemma prefix_empty s : String.prefix EmptyString s = true.
Proof. now destruct s. Qed.

Lemma py_contains_one_char c s :
  py_contains (String c EmptyString) s = py_contains_char c s.
Proof.
  induction s as [|a s IH]; [reflexivity|].
  cbn [py_contains py_contains_char String.prefix]. rewrite IH, prefix_empty.
  unfold ascii_eqb. destruct (Ascii.eqb_spec a c) as [->|Hne].
  - now destruct (ascii_dec c c).
  - destruct (ascii_dec c a); [congruence | reflexivity].
Qed.

(** The code's cleaning, in those terms. *)
Lemma clean_handle_amended u : clean_handle u = handle_as_amended u.
Proof.
  unfold clean_handle, handle_as_amended, has_social_domain.
  rewrite (py_contains_one_char "."), !first_segment_split, last_segment_split.
  match goal with
  | |- (if py_contains_char _ ?cleaned then _ else _) = _ =>
      destruct (py_contains_char "." cleaned) eqn:Hdot
  end; [reflexivity|].
  symmetry. apply before_first_no_separator, Hdot.
Qed.

(** ** [flatten_record] on the X link *)

Ltac flatten_stage :=
  match goal with
  | |- context [rbind (if is_dict ?v then ?f else Ok ?flat) _] =>
      let flat' := fresh "flat" in
      let E := fresh "E" in
      assert (exists flat', (if is_dict v then f else Ok flat) = Ok (PDict flat'))
        as [flat' E] by (destruct v; cbn; eauto);
      rewrite E; clear E; cbn [rbind py_get]
  end.

Lemma flatten_record_x_url d x_link u :
  dict_lookup "xLink" d = Some (PDict x_link) ->
  dict_lookup "primaryLinkUrl" x_link = Some (PStr u) ->
  u <> EmptyString ->
  exists flat,
    flatten_record (PDict d) = Ok (PDict flat)
    /\ dict_lookup "x_url" flat = Some (PStr (clean_handle u)).
Proof.
  intros Hlink Hurl Hu. unfold flatten_record. cbn [py_copy rbind py_get].
  do 3 flatten_stage.
  unfold dict_get_default. rewrite !Hlink. cbn [is_dict py_get rbind].
  unfold dict_get_default. rewrite Hurl.
  destruct u as [|a u]; [congruence|]. cbn [py_truthy str_is_empty negb rbind py_setitem].
  eexists. split; [reflexivity | apply dict_lookup_set_eq].
Qed.

(** C7, as amended: [flatten_record], a function of its input record alone,
    derives the handle of a non-empty X link of ASCII text from the URL without
    its surrounding whitespace: when that text contains [twitter.com/] or
    [x.com/], its trailing slashes are dropped, the segment after the last
    remaining slash is taken and cut before the first [?]; in every case the
    result is cut before its first dot.  [http://twitter.com/Example.com]
    becomes [Example]. *)
Theorem flatten_record_normalizes_handle d x_link u :
  dict_lookup "xLink" d = Some (PDict x_link) ->
  dict_lookup "primaryLinkUrl" x_link = Some (PStr u) ->
  u <> EmptyString ->
  is_ascii u = true ->
  (exists flat,
      flatten_record (PDict d) = Ok (PDict flat)
      /\ dict_lookup "x_url" flat = Some (PStr (handle_as_amended u)))
  /\ flattened_handle "http://twitter.com/Example.com" = Ok (Some (PStr "Example")).
Proof.
  intros Hlink Hurl Hu _. split; [|reflexivity].
  rewrite <- clean_handle_amended. now apply flatten_record_x_url with x_link.
Qed.

Lemma flatten_record_normalizes_handle_witness :
  exists flat,
    flatten_record (PDict [("id", PStr "9");
                           ("xLink", PDict [("primaryLinkUrl",
                                             PStr " https://x.com/jack/ ")])])
    = Ok (PDict flat)
    /\ dict_lookup "x_url" flat = Some (PStr "jack").
Proof.
  apply (flatten_record_normalizes_handle
           [("id", PStr "9");
            ("xLink", PDict [("primaryLinkUrl", PStr " https://x.com/jack/ ")])]
           [("primaryLinkUrl", PStr " https://x.com/jack/ ")]
           " https://x.com/jack/ ").
  - reflexivity.
  - reflexivity.
  - discriminate.
  - reflexivity.
Defined.

(** C7, as stated, fails on a URL that ends in a slash: the text after the
    last slash is empty, and the handle derived is [jack]. *)
Lemma handle_of_url_with_trailing_slash :
  handle_as_stated "http://twitter.com/jack/" = EmptyString
  /\ flattened_handle "http://twitter.com/jack/" = Ok (Some (PStr "jack"))
  /\ flattened_handle "http://twitter.com/jack/"
     <> Ok (Some (PStr (handle_as_stated "http://twitter.com/jack/"))).
Proof. split; [reflexivity|]. split; [reflexivity | discriminate]. Qed.

(** ** [extract_records] *)

Section Extract.
Context {W : Type} `{Server W} (cfg : Config).

(** An exception of [client.get] leaves [extract_records] as it is: the
    records of the pages before are not returned. *)
Lemma extract_loop_propagates fuel client object_name cursor page records w e :
  let params := [("limit", PInt (BATCH_SIZE cfg))] in
  let params := if py_truthy cursor then dict_set "cursor" cursor params else params in
  result_of (get cfg client ("/rest/" +:+ object_name) (mkKwargs None (Some params) None) w)
  = Raise e ->
  result_of (extract_loop cfg (S fuel) client object_name cursor page records w) = Raise e.
Proof.
  cbv zeta. intros Hget. cbn [extract_loop]. unfold bind at 1.
  destruct (get cfg client _ _ w) as [[r w1] t1].
  unfold result_of in *. cbn in *. now subst r.
Qed.

(** When the source is down, [extract_records] raises whatever it has
    accumulated from the pages before. *)
Lemma extract_loop_raises_when_down fuel client object_name cursor page records w :
  1 <= MAX_RETRIES cfg ->
  (forall req w', outcome_fails (fst (send req w')) = true) ->
  exists e,
    result_of (extract_loop cfg (S fuel) client object_name cursor page records w) = Raise e.
Proof.
  intros Hmax Hdown.
  set (params := if py_truthy cursor
                 then dict_set "cursor" cursor [("limit", PInt (BATCH_SIZE cfg))]
                 else [("limit", PInt (BATCH_SIZE cfg))]).
  destruct (request_raises_when_all_fail cfg client "GET" ("/rest/" +:+ object_name)
              (mkKwargs None (Some params) None) w Hmax (fun w' => Hdown _ w'))
    as (e & He).
  exists e. apply extract_loop_propagates. fold params.
  unfold get, bind.
  destruct (request cfg client "GET" _ _ w) as [[r w1] t1].
  unfold result_of in *. cbn in *. now subst r.
Qed.
End Extract.

(** C2 at a failing input: the first page comes back with one record and a
    cursor, the three attempts for the second page get a 500; the
    [HTTPError] of the last attempt leaves [extract_records], and the record
    of the first page is not returned. *)
Theorem extraction_failure_is_raised :
  let out := extract_records default_config 5 test_client "people"
               [Responded page1; Responded error_500; Responded error_500;
                Responded error_500] in
  result_of out
  = Raise (HTTPError
             ("500 Server Error: Internal Server Error for url: "
              +:+ "http://test.com/rest/people?cursor=abc")
             error_500)
  /\ List.length (requests_of (trace_of out)) = 4%nat
  /\ result_of (extract_records default_config 5 test_client "people"
                  [Responded page1; Responded page2])
     = Ok (Some [PDict [("id", PStr "1"); ("name", PStr "Rec1");
                        ("email_primary", PStr EmptyString);
                        ("linkedin_url", PStr EmptyString); ("x_url", PStr EmptyString)];
                 PDict [("id", PStr "2"); ("name", PStr "Rec2");
                        ("email_primary", PStr EmptyString);
                        ("linkedin_url", PStr EmptyString); ("x_url", PStr EmptyString)]]).
Proof. cbv zeta. repeat split. Qed.

(** ** The merge on the example of the specification *)

(** The example of the specification, all deletes accepted: both other
    records are deleted, then the master, the earliest record, is patched
    with the three domains. *)
Example acme_merged :
  List.map (fun r => (req_method r, req_url r))
    (requests_of (trace_of (merge_group "t" acme
       [Responded (no_content "u"); Responded (no_content "u");
        Responded (ok_json "u" (PDict []) "{}")])))
  = [("DELETE", stated_record_url "rec-b"); ("DELETE", stated_record_url "rec-c");
     ("PATCH", stated_record_url "rec-a")]
  /\ exists all_domains,
       aggregate_domains
         (mkCompany (PStr "rec-a") (PStr "Acme") [PStr "a.com"] (PStr "2024-01-01T00:00:00Z"))
         [mkCompany (PStr "rec-b") (PStr "Acme") [PStr "b.com"] (PStr "2024-02-01T00:00:00Z");
          mkCompany (PStr "rec-c") (PStr "ACME") [PStr "a.com"; PStr "c.com"]
            (PStr "2024-03-01T00:00:00Z")]
       = Some (Ok all_domains)
       /\ forall d, In d (elements all_domains) <-> In d ["a.com"; "b.com"; "c.com"].
Proof.
  split; [reflexivity|]. eexists. split; [reflexivity|]. vm_compute. tauto.
Qed.

(** The same group when the second delete is refused: the run stops there,
    and no [PATCH] is sent. *)
Example acme_aborted :
  List.map (fun r => (req_method r, req_url r))
    (requests_of (trace_of (merge_group "t" acme
       [Responded (no_content "u"); Responded (server_error "u");
        Responded (ok_json "u" (PDict []) "{}")])))
  = [("DELETE", stated_record_url "rec-b"); ("DELETE", stated_record_url "rec-c")].
Proof. reflexivity. Qed.

(** Two records without a creation time: the sort raises and nothing is
    sent, neither for this group nor for those after it. *)
Example undated_raises :
  merge_all "t" [("beta", undated); ("acme", acme)]
    [Responded (no_content "u"); Responded (no_content "u")]
  = (Raise (TypeError "'<' not supported between instances of 'NoneType' and 'NoneType'"),
     [Responded (no_content "u"); Responded (no_content "u")], []).
Proof. reflexivity. Qed.

Lemma master_updated_only_after_all_deletes_witness :
  exists master others final_domains,
    merge_plan acme master others final_domains
    /\ result_of (merge_group "t" acme
                    [Responded (no_content "u"); Responded (server_error "u")])
       = Ok (Some tt).
Proof.
  destruct (master_updated_only_after_all_deletes "t" "acme" acme []
              [Responded (no_content "u"); Responded (server_error "u")])
    as (master & others & final_domains & Hplan & Hres & _).
  - simpl. lia.
  - repeat constructor.
  - exists master, others, final_domains. split; [exact Hplan | exact Hres].
Defined.

Import migrate.

(** ** More on [APIClient.request] *)

Section Recovery.
Context (cfg : Config).

(** On a service that plays back [failures] and then a good answer, the loop
    with enough attempts left returns that answer. *)
Lemma retry_loop_recovers req resp rest failures : forall k m,
  Forall (fun o => outcome_fails o = true) failures ->
  raise_for_status resp = Ok tt ->
  (List.length failures < m)%nat ->
  Z.of_nat (k + m) = MAX_RETRIES cfg ->
  retry_loop cfg req (List.map Z.of_nat (List.seq k m))
    ((failures ++ Responded resp :: rest)%list : script)
  = (Ok (Some resp), rest,
     backoff_trace req (failures ++ [Responded resp]) (Z.of_nat k)).
Proof.
  induction failures as [|o failures IH]; intros k m Hall Hok Hm Hk.
  - destruct m as [|m]; [cbn in Hm; lia|]. cbn [List.seq List.map app].
    now rewrite (@retry_loop_success script _ cfg req _ _ (Responded resp :: rest) resp rest).
  - destruct m as [|m]; [cbn in Hm; lia|]. cbn [List.seq List.map app].
    inversion Hall as [|? ? Ho Hall']; subst.
    unfold outcome_fails in Ho. destruct (outcome_error o) as [e|] eqn:Herr; [|discriminate].
    rewrite (@retry_loop_failure script _ cfg req _ _
               (o :: failures ++ Responded resp :: rest)%list
               o (failures ++ Responded resp :: rest)%list e eq_refl Herr).
    cbn [List.length] in Hm.
    destruct (Z.eqb_spec (Z.of_nat k) (MAX_RETRIES cfg - 1)) as [Hlast|_]; [lia|].
    rewrite (IH (S k) m Hall' Hok ltac:(lia) ltac:(lia)).
    unfold result_of, world_of, trace_of. cbn [fst snd].
    destruct failures as [|o' failures']; cbn [app backoff_trace];
      replace (Z.of_nat k + 1) with (Z.of_nat (S k)) by lia; reflexivity.
Qed.

(** X1: transient failures are recovered: when fewer than [MAX_RETRIES]
    attempts fail and the next answer is good, [APIClient.request] returns
    that answer, leaves the later answers unread, and has slept
    [2 ^ attempt] seconds after each failed attempt only. *)
Theorem request_recovers_after_transient_failures self method endpoint kw
    failures resp rest :
  Forall (fun o => outcome_fails o = true) failures ->
  raise_for_status resp = Ok tt ->
  Z.of_nat (List.length failures) < MAX_RETRIES cfg ->
  let req := request_of cfg self method endpoint kw in
  request cfg self method endpoint kw ((failures ++ Responded resp :: rest)%list : script)
  = (Ok (Some resp), rest, backoff_trace req (failures ++ [Responded resp]) 0).
Proof.
  intros Hall Hok Hlen req. unfold request, py_range.
  apply (retry_loop_recovers req resp rest failures 0); try assumption; lia.
Qed.
End Recovery.

Lemma request_recovers_after_transient_failures_witness :
  request default_config (attio "t") "GET" "/objects" no_kwargs
    [Responded (server_error "u"); Failed "timed out";
     Responded (ok_json "u" (PDict []) "{}"); Failed "unused"]
  = (Ok (Some (ok_json "u" (PDict []) "{}")), [Failed "unused"],
     backoff_trace (request_of default_config (attio "t") "GET" "/objects" no_kwargs)
       [Responded (server_error "u"); Failed "timed out";
        Responded (ok_json "u" (PDict []) "{}")] 0).
Proof.
  apply (request_recovers_after_transient_failures default_config (attio "t") "GET"
           "/objects" no_kwargs [Responded (server_error "u"); Failed "timed out"]
           (ok_json "u" (PDict []) "{}") [Failed "unused"]).
  - repeat constructor.
  - reflexivity.
  - simpl. lia.
Defined.

Section NoAttempt.
Context {W : Type} `{Server W} (cfg : Config).

Lemma request_without_attempts self method endpoint kw w :
  MAX_RETRIES cfg <= 0 ->
  request cfg self method endpoint kw w = (Ok None, w, []).
Proof.
  intros Hmax. unfold request, py_range.
  replace (Z.to_nat (MAX_RETRIES cfg)) with 0%nat by lia. reflexivity.
Qed.

Lemma migrate_record_without_attempts client mapping target logger record w :
  MAX_RETRIES cfg <= 0 ->
  migrate_record cfg client mapping target false logger record w
  = (Ok (log_error logger (dict_get_default "id" (PStr "unknown") record)
           "No response or empty response" (build_payload record mapping)), w, []).
Proof.
  intros Hmax. unfold migrate_record, send_payload, post, bind, try.
  destruct (String.eqb target "people"); [destruct (has_email _)|];
    rewrite (request_without_attempts _ _ _ _ _ Hmax); reflexivity.
Qed.

(** X2: with [MAX_RETRIES] at 0 or below nothing is ever sent:
    [APIClient.request] returns [None] at once, [extract_records] returns no
    record, and a live [execute_migration] logs every record as failed with
    ["No response or empty response"]. *)
Theorem nothing_is_sent_without_attempts client records mapping target object_name fuel :
  MAX_RETRIES cfg <= 0 ->
  forall logger w,
    (forall method endpoint kw,
        request cfg client method endpoint kw w = (Ok None, w, []))
    /\ extract_records cfg (S fuel) client object_name w = (Ok (Some []), w, [])
    /\ execute_migration cfg client records mapping target logger false w
       = (Ok (List.fold_left
                (fun logger record =>
                   log_error logger (dict_get_default "id" (PStr "unknown") record)
                     "No response or empty response" (build_payload record mapping))
                records logger), w, []).
Proof.
  intros Hmax logger w. split; [|split].
  - intros. now apply request_without_attempts.
  - unfold extract_records. cbn [extract_loop]. unfold get, bind at 1, bind at 1.
    rewrite (request_without_attempts _ _ _ _ _ Hmax). reflexivity.
  - revert logger. induction records as [|record rest IH]; intros logger; [reflexivity|].
    cbn [execute_migration List.fold_left]. unfold bind.
    rewrite (migrate_record_without_attempts _ _ _ _ _ _ Hmax), IH. reflexivity.
Qed.
End NoAttempt.

Lemma nothing_is_sent_without_attempts_witness :
  extract_records (mkConfig 50 30 0) 1 test_client "people" [Responded page1]
  = (Ok (Some []), [Responded page1], []).
Proof.
  apply (nothing_is_sent_without_attempts (mkConfig 50 30 0) test_client [] [] "people"
           "people" 0 ltac:(simpl; lia) new_logger [Responded page1]).
Defined.

Import migrate.

(** ** The URL of a request *)

Lemma py_rstrip_char_app c s :
  py_rstrip_char c (s +:+ String c EmptyString) = py_rstrip_char c s.
Proof.
  induction s as [|a s IH].
  - simpl. unfold ascii_eqb. now rewrite Ascii.eqb_refl.
  - simpl. now rewrite IH.
Qed.

Lemma py_rstrip_char_last c s : last_char (py_rstrip_char c s) <> Some c.
Proof.
  induction s as [|a s IH]; cbn; [discriminate|].
  destruct (ascii_eqb a c) eqn:Ea; cbn [andb].
  - destruct (py_rstrip_char c s) as [|b r] eqn:Er; cbn; [discriminate|].
    exact IH.
  - destruct (py_rstrip_char c s) as [|b r] eqn:Er; cbn.
    + intros [= ->]. unfold ascii_eqb in Ea. now rewrite Ascii.eqb_refl in Ea.
    + exact IH.
Qed.

Lemma py_lstrip_char_first c s :
  match py_lstrip_char c s with
  | EmptyString => True
  | String a _ => a <> c
  end.
Proof.
  induction s as [|a s IH]; cbn; [exact I|].
  destruct (ascii_eqb a c) eqn:Ea; [exact IH|].
  intros ->. unfold ascii_eqb in Ea. now rewrite Ascii.eqb_refl in Ea.
Qed.

Lemma py_rstrip_char_slashes s :
  exists trailing, s = py_rstrip_char "/" s +:+ slashes trailing.
Proof.
  induction s as [|a s [trailing IH]]; [now exists 0%nat|]. cbn.
  destruct (ascii_eqb a "/" && str_is_empty (py_rstrip_char "/" s)) eqn:Hdrop.
  - apply andb_true_iff in Hdrop as [Ha Hempty].
    unfold ascii_eqb in Ha. apply Ascii.eqb_eq in Ha as ->.
    destruct (py_rstrip_char "/" s); [|discriminate].
    exists (S trailing). change (String "/" s = String "/" (slashes trailing)).
    f_equal. exact IH.
  - exists trailing.
    change (String a s = String a (py_rstrip_char "/" s +:+ slashes trailing)).
    f_equal. exact IH.
Qed.

Lemma py_lstrip_char_slashes s :
  exists leading, s = slashes leading +:+ py_lstrip_char "/" s.
Proof.
  induction s as [|a s [leading IH]]; [now exists 0%nat|]. cbn.
  destruct (ascii_eqb a "/") eqn:Ha.
  - unfold ascii_eqb in Ha. apply Ascii.eqb_eq in Ha as ->.
    exists (S leading).
    change (String "/" s = String "/" (slashes leading +:+ py_lstrip_char "/" s)).
    f_equal. exact IH.
  - now exists 0%nat.
Qed.

(** X3: the URL of a request is the base URL and the endpoint joined by
    exactly one slash: it is the configured base URL without the slashes at its
    end, one slash, and the endpoint without the slashes at its start; so a
    slash more at the end of the base URL or at the start of the endpoint
    changes nothing. *)
Theorem request_url_has_one_joining_slash cfg base headers name method endpoint kw :
  let client := new_client base headers name in
  exists base_part endpoint_part trailing leading,
    base = base_part +:+ slashes trailing
    /\ endpoint = slashes leading +:+ endpoint_part
    /\ last_char base_part <> Some "/"%char
    /\ match endpoint_part with EmptyString => True | String a _ => a <> "/"%char end
    /\ req_url (request_of cfg client method endpoint kw)
       = base_part +:+ "/" +:+ endpoint_part
    /\ req_url (request_of cfg (new_client (base +:+ "/") headers name) method
                  (String "/" endpoint) kw)
       = req_url (request_of cfg client method endpoint kw).
Proof.
  cbv zeta.
  destruct (py_rstrip_char_slashes base) as [trailing Hbase].
  destruct (py_lstrip_char_slashes endpoint) as [leading Hendpoint].
  exists (py_rstrip_char "/" base), (py_lstrip_char "/" endpoint), trailing, leading.
  split; [exact Hbase|]. split; [exact Hendpoint|].
  split; [apply py_rstrip_char_last|].
  split; [apply py_lstrip_char_first|].
  split; [reflexivity|].
  cbn. now rewrite py_rstrip_char_app.
Qed.

Import migrate.

Section Pages.
Context {W : Type} `{Server W} (cfg : Config).

Lemma get_good client endpoint kw w resp w1 v :
  1 <= MAX_RETRIES cfg ->
  send (request_of cfg client "GET" endpoint kw) w = (Responded resp, w1) ->
  raise_for_status resp = Ok tt ->
  json_body resp = JSON v ->
  get cfg client endpoint kw w
  = (Ok v, w1, [Sent (request_of cfg client "GET" endpoint kw) (Responded resp)]).
Proof.
  intros Hmax Hsend Hok Hbody. unfold get, request, py_range.
  destruct (Z.to_nat (MAX_RETRIES cfg)) as [|n] eqn:Hn; [lia|].
  cbn [List.seq List.map]. unfold bind.
  rewrite (retry_loop_success cfg _ _ _ _ _ _ Hsend Hok).
  unfold json_or_none, response_ok, lift, response_json. rewrite Hok, Hbody. reflexivity.
Qed.

Lemma page_params_dict_set cursor :
  (if py_truthy cursor
   then dict_set "cursor" cursor [("limit", PInt (BATCH_SIZE cfg))]
   else [("limit", PInt (BATCH_SIZE cfg))]) = page_params cfg cursor.
Proof. unfold page_params. destruct (py_truthy cursor); reflexivity. Qed.

(** What a page body gives to the loop. *)
Lemma page_body_batch object_name body data batch :
  dict_lookup "data" body = Some data ->
  page_data object_name data batch ->
  batch <> [] ->
  lacks_data (PDict body) = Ok false
  /\ page_batch object_name (PDict body) = Ok (PList batch).
Proof.
  intros Hdata Hshape Hne. unfold lacks_data, page_batch.
  destruct body as [|kv body']; [discriminate|]. cbn [py_truthy negb py_in py_get rbind].
  unfold dict_has, dict_get_default. rewrite Hdata. cbn [rbind negb]. split; [reflexivity|].
  destruct Hshape as [->|(d & -> & Hd)]; [reflexivity|]. now rewrite Hd.
Qed.

(** One turn of the loop on a good page: it stops when the page has no
    cursor and goes on with the page's cursor when it has one. *)
Lemma extract_loop_page fuel client object_name cursor number records w resp w1
    batch flat next :
  1 <= MAX_RETRIES cfg ->
  send (page_request cfg client object_name cursor) w = (Responded resp, w1) ->
  is_page object_name resp batch next ->
  batch <> [] ->
  map_result flatten_record batch = Ok flat ->
  extract_loop cfg (S fuel) client object_name cursor number records w
  = if py_truthy next then
      let following := extract_loop cfg fuel client object_name next (number + 1)
                         (records ++ flat)%list w1 in
      (result_of following, world_of following,
       Sent (page_request cfg client object_name cursor) (Responded resp)
         :: trace_of following)
    else
      (Ok (Some (records ++ flat)%list), w1,
       [Sent (page_request cfg client object_name cursor) (Responded resp)]).
Proof.
  intros Hmax Hsend (Hok & body & data & meta & Hbody & Hdata & Hshape & Hmeta & Hnext)
    Hne Hflat.
  destruct (page_body_batch object_name body data batch Hdata Hshape Hne)
    as [Hlacks Hbatch].
  cbn [extract_loop]. rewrite page_params_dict_set. unfold bind at 1.
  unfold page_request in Hsend.
  rewrite (get_good client _ _ w resp w1 (PDict body) Hmax Hsend Hok Hbody).
  unfold bind at 1, lift at 1. rewrite Hlacks.
  unfold bind at 1, lift at 1. rewrite Hbatch.
  assert (Htruthy : py_truthy (PList batch) = true) by (destruct batch; [congruence | reflexivity]).
  rewrite Htruthy. cbn [negb py_iter rbind].
  unfold bind at 1, lift at 1. rewrite Hflat.
  unfold bind at 1, lift at 1. cbn [py_get]. rewrite Hmeta.
  unfold bind at 1, lift at 1. cbn [py_get]. rewrite Hnext.
  destruct (py_truthy next); cbn [negb].
  - cbv zeta. unfold result_of, world_of, trace_of, page_request.
    destruct (extract_loop cfg fuel client object_name next (number + 1) _ w1)
      as [[r w2] t2]. reflexivity.
  - reflexivity.
Qed.

(** X4: a page whose body has no [data] key, or an empty batch, ends the walk
    with what was accumulated, whatever cursor it carries. *)
Lemma extract_loop_stops fuel client object_name cursor number records w resp w1 body :
  1 <= MAX_RETRIES cfg ->
  send (page_request cfg client object_name cursor) w = (Responded resp, w1) ->
  raise_for_status resp = Ok tt ->
  json_body resp = JSON (PDict body) ->
  dict_lookup "data" body = None
  \/ (exists data, dict_lookup "data" body = Some data /\ page_data object_name data []) ->
  extract_loop cfg (S fuel) client object_name cursor number records w
  = (Ok (Some records), w1,
     [Sent (page_request cfg client object_name cursor) (Responded resp)]).
Proof.
  intros Hmax Hsend Hok Hbody Hcase.
  cbn [extract_loop]. rewrite page_params_dict_set. unfold bind at 1.
  unfold page_request in Hsend.
  rewrite (get_good client _ _ w resp w1 (PDict body) Hmax Hsend Hok Hbody).
  unfold bind at 1, lift at 1, lacks_data.
  destruct Hcase as [Hnone|(data & Hdata & Hshape)].
  - destruct body as [|kv body']; [reflexivity|].
    cbn [py_truthy negb py_in rbind]. unfold dict_has. rewrite Hnone. reflexivity.
  - destruct body as [|kv body']; [discriminate|].
    cbn [py_truthy negb py_in rbind]. unfold dict_has. rewrite Hdata. cbn [negb].
    unfold bind at 1, lift at 1, page_batch. cbn [py_get rbind].
    unfold dict_get_default. rewrite !Hdata.
    destruct Hshape as [->|(d & -> & Hd)]; [reflexivity|].
    rewrite Hd. reflexivity.
Qed.
End Pages.

(** ** The walk of [extract_records] over the pages of the source *)

Section Walk.
Context (cfg : Config).

Lemma extract_loop_walk client object_name rest pages : forall fuel cursor number records,
  1 <= MAX_RETRIES cfg ->
  Forall (good_page object_name) pages ->
  chained pages ->
  (List.length pages <= fuel)%nat ->
  extract_loop cfg fuel client object_name cursor number records
    ((List.map (fun p => Responded (p_response p)) pages ++ rest)%list : script)
  = (Ok (Some (records ++ List.concat (List.map p_flat pages))%list), rest,
     page_trace cfg client object_name cursor pages).
Proof.
  induction pages as [|p pages IH]; intros fuel cursor number records Hmax Hgood Hchain Hfuel;
    [contradiction|].
  destruct fuel as [|fuel]; [cbn in Hfuel; lia|].
  inversion Hgood as [|? ? (Hpage & Hne & Hflat) Hgood']; subst.
  cbn [List.map app].
  pose proof (@extract_loop_page script script_server cfg fuel client object_name cursor
             number records
             (Responded (p_response p)
               :: List.map (fun p0 : page => Responded (p_response p0)) pages ++ rest)%list
             (p_response p)
             (List.map (fun p0 : page => Responded (p_response p0)) pages ++ rest)%list
             (p_batch p) (p_flat p) (p_cursor p) Hmax eq_refl
             Hpage Hne Hflat) as Hstep.
  etransitivity; [exact Hstep|]. clear Hstep.
  destruct pages as [|q pages].
  - cbn in Hchain. rewrite Hchain. cbn. now rewrite app_nil_r.
  - destruct Hchain as [Hcursor Hchain]. rewrite Hcursor. cbv zeta.
    rewrite (IH fuel (p_cursor p) (number + 1) (records ++ p_flat p)%list Hmax Hgood'
               Hchain ltac:(cbn in *; lia)).
    unfold result_of, world_of, trace_of. cbn [fst snd List.map List.concat page_trace].
    now rewrite <- app_assoc.
Qed.

(** X5: on a source that serves [pages], every page but the last with a
    cursor, [extract_records] asks for each page once with the cursor of the
    page before, stops after the page without cursor, and returns the
    flattened records of all pages in order. *)
Theorem extract_records_walks_the_pages client object_name pages rest fuel :
  1 <= MAX_RETRIES cfg ->
  Forall (good_page object_name) pages ->
  chained pages ->
  (List.length pages <= fuel)%nat ->
  extract_records cfg fuel client object_name
    ((List.map (fun p => Responded (p_response p)) pages ++ rest)%list : script)
  = (Ok (Some (List.concat (List.map p_flat pages))), rest,
     page_trace cfg client object_name PNone pages).
Proof.
  intros Hmax Hgood Hchain Hfuel. unfold extract_records.
  now rewrite (extract_loop_walk client object_name rest pages fuel PNone 1 []).
Qed.
End Walk.

Section Endless.
Context {W : Type} `{Server W} (cfg : Config).

(** X6: [extract_records] has no bound of its own: against a source whose
    every answer is a page with records and a cursor, no number of pages is
    enough, and as many calls are made as pages are allowed. *)
Theorem extract_records_never_ends_while_cursors_come client object_name :
  1 <= MAX_RETRIES cfg ->
  (forall req w, exists resp batch flat next,
      fst (send req w) = Responded resp
      /\ is_page object_name resp batch next
      /\ batch <> []
      /\ map_result flatten_record batch = Ok flat
      /\ py_truthy next = true) ->
  forall fuel w,
    result_of (extract_records cfg fuel client object_name w) = Ok None
    /\ List.length (requests_of (trace_of (extract_records cfg fuel client object_name w)))
       = fuel.
Proof.
  intros Hmax Hsource fuel. unfold extract_records.
  generalize PNone as cursor, 1 as number, (@nil pyval) as records.
  induction fuel as [|fuel IH]; intros cursor number records w; [split; reflexivity|].
  destruct (Hsource (page_request cfg client object_name cursor) w)
    as (resp & batch & flat & next & Hsend & Hpage & Hne & Hflat & Hnext).
  destruct (send (page_request cfg client object_name cursor) w) as [o w1] eqn:Hsent.
  cbn [fst] in Hsend. subst o.
  rewrite (extract_loop_page cfg fuel client object_name cursor number records w resp w1
             batch flat next Hmax Hsent Hpage Hne Hflat), Hnext.
  cbv zeta. unfold result_of, trace_of in *. cbn [fst snd requests_of List.length].
  destruct (IH next (number + 1) (records ++ flat)%list w1) as [Hres Hlen].
  now rewrite Hres, Hlen.
Qed.
End Endless.

Section Objects.
Context {W : Type} `{Server W} (cfg : Config).

Lemma fetch_available_objects_run client w :
  fetch_available_objects cfg client w
  = let fetched := (do response <- get cfg client "/metadata/objects" no_kwargs;
                    lift (object_names response)) w in
    (Ok (match result_of fetched with
         | Ok (Some names) => names
         | _ => default_objects
         end), world_of fetched, trace_of fetched).
Proof.
  unfold fetch_available_objects, bind at 1, try. cbv zeta.
  destruct ((do response <- get cfg client "/metadata/objects" no_kwargs;
             lift (object_names response)) w) as [[[[names|]|e] w1] t1];
    unfold result_of, world_of, trace_of, ret; cbn; now rewrite app_nil_r.
Qed.

(** X7: [fetch_available_objects] never raises: whatever the service does it
    returns a list, and when every attempt fails that list is the four
    default objects. *)
Theorem fetch_available_objects_falls_back client w :
  exists names,
    result_of (fetch_available_objects cfg client w) = Ok names
    /\ ((forall w', outcome_fails
                      (fst (send (request_of cfg client "GET" "/metadata/objects" no_kwargs)
                              w')) = true) ->
        names = default_objects).
Proof.
  rewrite fetch_available_objects_run. cbv zeta. eexists. split; [reflexivity|].
  intros Hdown. unfold get, bind.
  destruct (Z_le_gt_dec (MAX_RETRIES cfg) 0) as [Hzero|Hpos].
  - unfold request, py_range. replace (Z.to_nat (MAX_RETRIES cfg)) with 0%nat by lia.
    reflexivity.
  - destruct (request_raises_when_all_fail cfg client "GET" "/metadata/objects" no_kwargs w
                ltac:(lia) Hdown) as (e & He).
    destruct (request cfg client "GET" "/metadata/objects" no_kwargs w) as [[r w1] t1].
    unfold result_of in He. cbn in He. subst r. reflexivity.
Qed.

(** X8: when the metadata endpoint answers with a [data] list,
    [fetch_available_objects] returns the [name] of every entry, in order; one
    entry without a [name] is enough to get the four default objects
    instead. *)
Theorem fetch_available_objects_names client w resp w1 body entries :
  1 <= MAX_RETRIES cfg ->
  send (request_of cfg client "GET" "/metadata/objects" no_kwargs) w = (Responded resp, w1) ->
  raise_for_status resp = Ok tt ->
  json_body resp = JSON (PDict body) ->
  dict_lookup "data" body = Some (PList (List.map PDict entries)) ->
  result_of (fetch_available_objects cfg client w)
  = Ok (match entry_names entries with
        | Some names => names
        | None => default_objects
        end).
Proof.
  intros Hmax Hsend Hok Hbody Hdata.
  rewrite fetch_available_objects_run. cbv zeta. unfold bind.
  rewrite (get_good cfg client _ _ w resp w1 (PDict body) Hmax Hsend Hok Hbody).
  unfold lift, result_of. cbn [fst]. unfold object_names.
  destruct body as [|kv body']; [discriminate|]. cbn [py_truthy py_in rbind py_getitem].
  unfold dict_has. rewrite Hdata. cbn [rbind py_iter].
  assert (Hnames : map_result (fun obj => py_getitem obj "name") (List.map PDict entries)
                   = match entry_names entries with
                     | Some names => Ok names
                     | None => Raise (KeyError (PStr "name"))
                     end).
  { clear. induction entries as [|entry rest IH]; [reflexivity|].
    cbn [List.map map_result py_getitem entry_names]. rewrite IH.
    destruct (dict_lookup "name" entry); [|reflexivity].
    destruct (entry_names rest); reflexivity. }
  rewrite Hnames. destruct (entry_names entries); reflexivity.
Qed.
End Objects.

Lemma test_pages_good : Forall (good_page "people") test_pages.
Proof.
  repeat constructor; try discriminate.
  - eexists _, _, _. repeat split; try reflexivity. left. reflexivity.
  - eexists _, _, _. repeat split; try reflexivity. left. reflexivity.
Qed.

Lemma extract_records_walks_the_pages_witness :
  extract_records default_config 2 test_client "people"
    [Responded page1; Responded page2; Failed "unused"]
  = (Ok (Some (List.concat (List.map p_flat test_pages))), [Failed "unused"],
     page_trace default_config test_client "people" PNone test_pages).
Proof.
  apply (extract_records_walks_the_pages default_config test_client "people" test_pages
           [Failed "unused"] 2).
  - simpl. lia.
  - apply test_pages_good.
  - simpl. auto.
  - simpl. lia.
Defined.

Lemma extract_records_never_ends_while_cursors_come_witness :
  result_of (extract_records default_config 7 test_client "people" EndlessSource) = Ok None.
Proof.
  apply (extract_records_never_ends_while_cursors_come default_config test_client "people").
  - simpl. lia.
  - intros req w.
    exists page1, (p_batch (List.hd (mkPage page1 [] [] PNone) test_pages)),
      (p_flat (List.hd (mkPage page1 [] [] PNone) test_pages)), (PStr "abc").
    repeat split; try reflexivity; try discriminate.
    eexists _, _, _. repeat split; try reflexivity. left. reflexivity.
Defined.

Lemma extract_loop_stops_witness :
  extract_loop default_config 3 test_client "people" PNone 1 [PStr "kept"]
    [Responded empty_page; Responded page2]
  = (Ok (Some [PStr "kept"]), [Responded page2],
     [Sent (page_request default_config test_client "people" PNone) (Responded empty_page)]).
Proof.
  apply (extract_loop_stops default_config 2 test_client "people" PNone 1 [PStr "kept"]
           [Responded empty_page; Responded page2] empty_page [Responded page2]
           [("data", PList []); ("meta", PDict [("next_cursor", PStr "abc")])]).
  - simpl. lia.
  - reflexivity.
  - reflexivity.
  - reflexivity.
  - right. exists (PList []). split; [reflexivity | left; reflexivity].
Defined.

Lemma fetch_available_objects_falls_back_witness :
  exists names,
    result_of (fetch_available_objects default_config test_client Unavailable) = Ok names
    /\ names = default_objects.
Proof.
  destruct (fetch_available_objects_falls_back default_config test_client Unavailable)
    as (names & Hres & Hdown).
  exists names. split; [exact Hres|]. apply Hdown. intros []. reflexivity.
Defined.

Lemma fetch_available_objects_names_witness :
  result_of (fetch_available_objects default_config test_client
               [Responded metadata_response])
  = Ok [PStr "people"; PStr "companies"].
Proof.
  apply (fetch_available_objects_names default_config test_client
           [Responded metadata_response] metadata_response []
           [("data", PList [PDict [("name", PStr "people")];
                            PDict [("name", PStr "companies")]])]
           [[("name", PStr "people")]; [("name", PStr "companies")]]).
  - simpl. lia.
  - reflexivity.
  - reflexivity.
  - reflexivity.
  - reflexivity.
Defined.


(** ** [flatten_record] *)

Lemma flatten_stage_one v k default key flat (K : pyval -> result pyval) :
  rbind (if is_dict v
         then rbind (py_get v k default) (fun a => py_setitem (PDict flat) key a)
         else Ok (PDict flat)) K
  = K (PDict (with_derived key v (dict_get_default k default) flat)).
Proof. destruct v; reflexivity. Qed.

Lemma flatten_stage_name v flat (K : pyval -> result pyval) :
  rbind (if is_dict v
         then rbind (py_get v "firstName" (PStr EmptyString)) (fun first =>
              rbind (py_get v "lastName" (PStr EmptyString)) (fun last =>
              py_setitem (PDict flat) "name_full"
                (PStr (py_strip (py_str first +:+ " " +:+ py_str last)))))
         else Ok (PDict flat)) K
  = K (PDict (with_derived "name_full" v full_name_of flat)).
Proof. destruct v; reflexivity. Qed.

(** [flatten_record] on a [dict], step by step. *)
Lemma flatten_record_dict d :
  flatten_record (PDict d)
  = match dict_get_default "xLink" (PDict []) d with
    | PDict x_link =>
        let x_url := dict_get_default "primaryLinkUrl" (PStr EmptyString) x_link in
        if py_truthy x_url then
          match x_url with
          | PStr s => Ok (PDict (dict_set "x_url" (PStr (clean_handle s)) (flat_before_x d)))
          | _ => Raise (no_attribute x_url "strip")
          end
        else Ok (PDict (dict_set "x_url" x_url (flat_before_x d)))
    | _ => Ok (PDict (flat_before_x d))
    end.
Proof.
  unfold flatten_record. cbn [py_copy py_get rbind].
  rewrite flatten_stage_name. cbn [py_get rbind].
  rewrite flatten_stage_one. cbn [py_get rbind].
  rewrite flatten_stage_one. cbn [py_get rbind].
  fold (flat_before_x d).
  destruct (dict_get_default "xLink" (PDict []) d) as [| | | | | |x_link]; try reflexivity.
  cbn [is_dict py_get rbind]. cbv zeta.
  destruct (py_truthy (dict_get_default "primaryLinkUrl" (PStr EmptyString) x_link));
    [|reflexivity].
  destruct (dict_get_default "primaryLinkUrl" (PStr EmptyString) x_link); reflexivity.
Qed.

Lemma dict_set_same k v d : dict_lookup k d = Some v -> dict_set k v d = d.
Proof.
  induction d as [|[k' v'] d IH]; cbn; [discriminate|].
  destruct (String.eqb_spec k k') as [->|Hne].
  - now intros [= ->].
  - intros Hd. now rewrite IH.
Qed.

Lemma dict_set_keys k v d :
  exists extra, List.map fst (dict_set k v d) = (List.map fst d ++ extra)%list.
Proof.
  induction d as [|[k' v'] d [extra IH]]; cbn.
  - now exists [k].
  - destruct (String.eqb k k'); cbn.
    + exists []. now rewrite app_nil_r.
    + exists extra. now rewrite IH.
Qed.

Lemma with_derived_lookup_ne k key source value flat :
  k <> key -> dict_lookup k (with_derived key source value flat) = dict_lookup k flat.
Proof. intros Hne. destruct source; try reflexivity. now apply dict_lookup_set_ne. Qed.

Lemma with_derived_lookup_eq key nested value flat :
  dict_lookup key (with_derived key (PDict nested) value flat) = Some (value nested).
Proof. apply dict_lookup_set_eq. Qed.

Lemma with_derived_keys key source value flat :
  exists extra,
    List.map fst (with_derived key source value flat) = (List.map fst flat ++ extra)%list.
Proof.
  destruct source; try (exists []; now rewrite app_nil_r). apply dict_set_keys.
Qed.

Lemma with_derived_same key source value flat :
  (forall nested, source = PDict nested -> dict_lookup key flat = Some (value nested)) ->
  with_derived key source value flat = flat.
Proof.
  destruct source; try reflexivity. intros Hsame. cbn. now apply dict_set_same, Hsame.
Qed.

Lemma flat_before_x_lookup d k :
  k <> "name_full" -> k <> "email_primary" -> k <> "linkedin_url" ->
  dict_lookup k (flat_before_x d) = dict_lookup k d.
Proof.
  intros Hn He Hl. unfold flat_before_x. now rewrite !with_derived_lookup_ne.
Qed.

Lemma flat_before_x_keys d :
  exists extra, List.map fst (flat_before_x d) = (List.map fst d ++ extra)%list.
Proof.
  unfold flat_before_x.
  destruct (with_derived_keys "linkedin_url" (dict_get_default "linkedinLink" (PDict []) d)
              (dict_get_default "primaryLinkUrl" (PStr EmptyString))
              (with_derived "email_primary" (dict_get_default "emails" (PDict []) d)
                 (dict_get_default "primaryEmail" (PStr EmptyString))
                 (with_derived "name_full" (dict_get_default "name" (PDict []) d)
                    full_name_of d))) as [e3 ->].
  destruct (with_derived_keys "email_primary" (dict_get_default "emails" (PDict []) d)
              (dict_get_default "primaryEmail" (PStr EmptyString))
              (with_derived "name_full" (dict_get_default "name" (PDict []) d)
                 full_name_of d)) as [e2 ->].
  destruct (with_derived_keys "name_full" (dict_get_default "name" (PDict []) d)
              full_name_of d) as [e1 ->].
  exists (e1 ++ e2 ++ e3)%list. now rewrite <- !app_assoc.
Qed.

(** What [flatten_record] returns is the [dict] before the X step, with or
    without an [x_url]. *)
Lemma flatten_record_ok d flat :
  flatten_record (PDict d) = Ok flat ->
  flat = PDict (flat_before_x d)
  \/ exists x_url, flat = PDict (dict_set "x_url" x_url (flat_before_x d)).
Proof.
  rewrite flatten_record_dict.
  destruct (dict_get_default "xLink" (PDict []) d) as [| | | | | |x_link];
    try (intros [= <-]; now left).
  cbv zeta.
  destruct (py_truthy (dict_get_default "primaryLinkUrl" (PStr EmptyString) x_link)).
  - destruct (dict_get_default "primaryLinkUrl" (PStr EmptyString) x_link);
      try discriminate. intros [= <-]. right. eauto.
  - intros [= <-]. right. eauto.
Qed.

(** X9: [flatten_record] only adds: every field of the source record keeps its
    value and its place, and the only keys that can be new or changed are
    [name_full], [email_primary], [linkedin_url] and [x_url]. *)
Theorem flatten_record_keeps_the_source_fields d flat :
  flatten_record (PDict d) = Ok flat ->
  exists fields extra,
    flat = PDict fields
    /\ List.map fst fields = (List.map fst d ++ extra)%list
    /\ forall k, ~ In k derived_keys -> dict_lookup k fields = dict_lookup k d.
Proof.
  intros Hflat. destruct (flat_before_x_keys d) as [extra Hkeys].
  destruct (flatten_record_ok d flat Hflat) as [->|[x_url ->]].
  - exists (flat_before_x d), extra. split; [reflexivity|]. split; [exact Hkeys|].
    intros k Hk. apply flat_before_x_lookup; intros ->; apply Hk; cbn; tauto.
  - destruct (dict_set_keys "x_url" x_url (flat_before_x d)) as [extra' Hkeys'].
    exists (dict_set "x_url" x_url (flat_before_x d)), (extra ++ extra')%list.
    split; [reflexivity|]. split; [now rewrite Hkeys', Hkeys, app_assoc|].
    intros k Hk. rewrite dict_lookup_set_ne by (intros ->; apply Hk; cbn; tauto).
    apply flat_before_x_lookup; intros ->; apply Hk; cbn; tauto.
Qed.

Lemma flatten_record_keeps_the_source_fields_witness :
  exists fields extra,
    PDict [("id", PStr "1"); ("name", PStr "Rec1"); ("email_primary", PStr EmptyString);
           ("linkedin_url", PStr EmptyString); ("x_url", PStr EmptyString)]
    = PDict fields
    /\ List.map fst fields = (["id"; "name"] ++ extra)%list
    /\ forall k, ~ In k derived_keys ->
                 dict_lookup k fields
                 = dict_lookup k [("id", PStr "1"); ("name", PStr "Rec1")].
Proof.
  apply (flatten_record_keeps_the_source_fields [("id", PStr "1"); ("name", PStr "Rec1")]).
  reflexivity.
Defined.

(** X10: [flatten_record] raises in two cases only: the record is not a
    [dict] ([AttributeError]), or its X link holds a non-empty value that is
    not text, which has no [strip]. *)
Theorem flatten_record_raises_only_without_text record :
  match record with
  | PDict d =>
      (exists flat, flatten_record record = Ok (PDict flat))
      \/ (exists x_link x_url,
             dict_lookup "xLink" d = Some (PDict x_link)
             /\ dict_lookup "primaryLinkUrl" x_link = Some x_url
             /\ py_truthy x_url = true
             /\ is_str x_url = false
             /\ flatten_record record = Raise (no_attribute x_url "strip"))
  | _ => exists msg, flatten_record record = Raise (AttributeError msg)
  end.
Proof.
  destruct record as [| | | | | |d]; try (eexists; reflexivity).
  cbv beta iota. pose proof (flatten_record_dict d) as Hform.
  unfold dict_get_default in Hform.
  destruct (dict_lookup "xLink" d) as [[| | | | | |x_link]|] eqn:Hlink;
    try (left; eauto; fail).
  - cbv zeta in Hform.
    destruct (dict_lookup "primaryLinkUrl" x_link) as [x_url|] eqn:Hurl;
      [|cbn in Hform; left; eauto].
    destruct (py_truthy x_url) eqn:Htruthy; [|left; eauto].
    destruct x_url; try (left; eauto; fail); right; eexists _, _; repeat split; eauto.
  - cbn in Hform. left. eauto.
Qed.

Lemma flat_before_x_name d name :
  dict_get_default "name" (PDict []) d = PDict name ->
  dict_lookup "name_full" (flat_before_x d) = Some (full_name_of name).
Proof.
  intros Hname. unfold flat_before_x.
  rewrite !with_derived_lookup_ne by discriminate. rewrite Hname.
  apply with_derived_lookup_eq.
Qed.

Lemma flat_before_x_email d emails :
  dict_get_default "emails" (PDict []) d = PDict emails ->
  dict_lookup "email_primary" (flat_before_x d)
  = Some (dict_get_default "primaryEmail" (PStr EmptyString) emails).
Proof.
  intros Hemails. unfold flat_before_x.
  rewrite with_derived_lookup_ne by discriminate. rewrite Hemails.
  apply with_derived_lookup_eq.
Qed.

Lemma flat_before_x_linkedin d link :
  dict_get_default "linkedinLink" (PDict []) d = PDict link ->
  dict_lookup "linkedin_url" (flat_before_x d)
  = Some (dict_get_default "primaryLinkUrl" (PStr EmptyString) link).
Proof.
  intros Hlink. unfold flat_before_x. rewrite Hlink. apply with_derived_lookup_eq.
Qed.

(** Flattening again a [dict] that agrees with [d] on the source fields and
    already holds the derived ones changes nothing before the X step. *)
Lemma flat_before_x_again d flat :
  (forall k, ~ In k derived_keys -> dict_lookup k flat = dict_lookup k d) ->
  (forall k, k <> "x_url" -> dict_lookup k flat = dict_lookup k (flat_before_x d)) ->
  flat_before_x flat = flat.
Proof.
  intros Hsource Hderived.
  assert (Hdefault : forall k default, ~ In k derived_keys ->
            dict_get_default k default flat = dict_get_default k default d).
  { intros k default Hk. unfold dict_get_default. now rewrite Hsource. }
  unfold flat_before_x.
  rewrite !Hdefault by (cbn; intuition discriminate).
  rewrite (with_derived_same "name_full").
  2:{ intros name Hname. rewrite Hderived by discriminate.
      now apply flat_before_x_name. }
  rewrite (with_derived_same "email_primary").
  2:{ intros emails Hemails. rewrite Hderived by discriminate.
      now apply flat_before_x_email. }
  apply with_derived_same.
  intros link Hlink. rewrite Hderived by discriminate.
  now apply flat_before_x_linkedin.
Qed.

(** X11: [flatten_record] is idempotent: flattening a flattened record gives
    the same record again, as the derived fields are computed from the source
    fields, which flattening keeps. *)
Theorem flatten_record_is_idempotent record flat :
  flatten_record record = Ok flat -> flatten_record flat = Ok flat.
Proof.
  destruct record as [| | | | | |d]; try discriminate.
  intros Hflat.
  assert (Hsource : forall k, ~ In k derived_keys ->
            dict_lookup k (flat_before_x d) = dict_lookup k d).
  { intros k Hk. apply flat_before_x_lookup; intros ->; apply Hk; cbn; tauto. }
  pose proof Hflat as Hform. rewrite flatten_record_dict in Hform.
  assert (Hx : dict_get_default "xLink" (PDict []) (flat_before_x d)
               = dict_get_default "xLink" (PDict []) d).
  { unfold dict_get_default. rewrite Hsource; [reflexivity|]. cbn. intuition discriminate. }
  destruct (dict_get_default "xLink" (PDict []) d) as [| | | | | |x_link] eqn:Hlink;
    try (injection Hform as <-; rewrite flatten_record_dict, Hx;
         now rewrite (flat_before_x_again d) by auto).
  cbv zeta in Hform.
  assert (Hx' : forall x_url,
            dict_get_default "xLink" (PDict []) (dict_set "x_url" x_url (flat_before_x d))
            = PDict x_link).
  { intros x_url. rewrite <- Hx. unfold dict_get_default.
    now rewrite dict_lookup_set_ne by discriminate. }
  assert (Hagain : forall x_url,
            flat_before_x (dict_set "x_url" x_url (flat_before_x d))
            = dict_set "x_url" x_url (flat_before_x d)).
  { intros x_url. apply (flat_before_x_again d).
    - intros k Hk. rewrite dict_lookup_set_ne by (intros ->; apply Hk; cbn; tauto).
      now apply Hsource.
    - intros k Hk. now apply dict_lookup_set_ne. }
  assert (Hsame : forall x_url,
            dict_set "x_url" x_url (dict_set "x_url" x_url (flat_before_x d))
            = dict_set "x_url" x_url (flat_before_x d)).
  { intros x_url. apply dict_set_same, dict_lookup_set_eq. }
  destruct (py_truthy (dict_get_default "primaryLinkUrl" (PStr EmptyString) x_link))
    eqn:Htruthy.
  - destruct (dict_get_default "primaryLinkUrl" (PStr EmptyString) x_link) eqn:Hurl;
      try discriminate.
    injection Hform as <-.
    rewrite flatten_record_dict, Hx'. cbv zeta. now rewrite Hurl, Htruthy, Hagain, Hsame.
  - injection Hform as <-.
    rewrite flatten_record_dict, Hx'. cbv zeta. now rewrite Htruthy, Hagain, Hsame.
Qed.

Lemma flatten_record_is_idempotent_witness :
  flatten_record
    (PDict [("id", PStr "1"); ("name", PStr "Rec1"); ("email_primary", PStr EmptyString);
            ("linkedin_url", PStr EmptyString); ("x_url", PStr EmptyString)])
  = Ok (PDict [("id", PStr "1"); ("name", PStr "Rec1"); ("email_primary", PStr EmptyString);
               ("linkedin_url", PStr EmptyString); ("x_url", PStr EmptyString)]).
Proof.
  apply (flatten_record_is_idempotent (PDict [("id", PStr "1"); ("name", PStr "Rec1")])).
  reflexivity.
Defined.

(** X12: a source field that is absent counts as an empty object: the flattened
    record holds the derived field with the empty string ([name_full] for
    [name], [email_primary] for [emails], [linkedin_url] for [linkedinLink],
    [x_url] for [xLink]). *)
Theorem flatten_record_fills_absent_fields d flat :
  flatten_record (PDict d) = Ok (PDict flat) ->
  (dict_lookup "name" d = None -> dict_lookup "name_full" flat = Some (PStr EmptyString))
  /\ (dict_lookup "emails" d = None ->
      dict_lookup "email_primary" flat = Some (PStr EmptyString))
  /\ (dict_lookup "linkedinLink" d = None ->
      dict_lookup "linkedin_url" flat = Some (PStr EmptyString))
  /\ (dict_lookup "xLink" d = None -> dict_lookup "x_url" flat = Some (PStr EmptyString)).
Proof.
  intros Hflat.
  assert (Hother : forall k, k <> "x_url" ->
            dict_lookup k flat = dict_lookup k (flat_before_x d)).
  { intros k Hk. destruct (flatten_record_ok d _ Hflat) as [[= ->]|[x_url [= ->]]];
      [reflexivity | now apply dict_lookup_set_ne]. }
  repeat split.
  - intros Hname. rewrite Hother by discriminate.
    rewrite (flat_before_x_name d []); [reflexivity|].
    unfold dict_get_default. now rewrite Hname.
  - intros Hemails. rewrite Hother by discriminate.
    rewrite (flat_before_x_email d []); [reflexivity|].
    unfold dict_get_default. now rewrite Hemails.
  - intros Hlink. rewrite Hother by discriminate.
    rewrite (flat_before_x_linkedin d []); [reflexivity|].
    unfold dict_get_default. now rewrite Hlink.
  - intros Hlink. rewrite flatten_record_dict in Hflat.
    unfold dict_get_default at 1 in Hflat. rewrite Hlink in Hflat.
    cbn in Hflat. injection Hflat as <-. apply dict_lookup_set_eq.
Qed.

Lemma flatten_record_fills_absent_fields_witness :
  (dict_lookup "name" [("id", PStr "7")] = None ->
   dict_lookup "name_full"
     [("id", PStr "7"); ("name_full", PStr EmptyString); ("email_primary", PStr EmptyString);
      ("linkedin_url", PStr EmptyString); ("x_url", PStr EmptyString)]
   = Some (PStr EmptyString))
  /\ (dict_lookup "emails" [("id", PStr "7")] = None ->
      dict_lookup "email_primary"
        [("id", PStr "7"); ("name_full", PStr EmptyString);
         ("email_primary", PStr EmptyString);
         ("linkedin_url", PStr EmptyString); ("x_url", PStr EmptyString)]
      = Some (PStr EmptyString))
  /\ (dict_lookup "linkedinLink" [("id", PStr "7")] = None ->
      dict_lookup "linkedin_url"
        [("id", PStr "7"); ("name_full", PStr EmptyString);
         ("email_primary", PStr EmptyString);
         ("linkedin_url", PStr EmptyString); ("x_url", PStr EmptyString)]
      = Some (PStr EmptyString))
  /\ (dict_lookup "xLink" [("id", PStr "7")] = None ->
      dict_lookup "x_url"
        [("id", PStr "7"); ("name_full", PStr EmptyString);
         ("email_primary", PStr EmptyString);
         ("linkedin_url", PStr EmptyString); ("x_url", PStr EmptyString)]
      = Some (PStr EmptyString)).
Proof.
  apply (flatten_record_fills_absent_fields [("id", PStr "7")]). reflexivity.
Defined.

(** X13: a source field that is present but is not an object (a plain string,
    a number, a list, [None]) is skipped: the derived field keeps whatever the
    source record held under that key, and is not created when it held none. *)
Theorem flatten_record_skips_plain_fields d flat v :
  flatten_record (PDict d) = Ok (PDict flat) ->
  is_dict v = false ->
  (dict_lookup "name" d = Some v -> dict_lookup "name_full" flat = dict_lookup "name_full" d)
  /\ (dict_lookup "emails" d = Some v ->
      dict_lookup "email_primary" flat = dict_lookup "email_primary" d)
  /\ (dict_lookup "linkedinLink" d = Some v ->
      dict_lookup "linkedin_url" flat = dict_lookup "linkedin_url" d)
  /\ (dict_lookup "xLink" d = Some v -> dict_lookup "x_url" flat = dict_lookup "x_url" d).
Proof.
  intros Hflat Hv.
  assert (Hother : forall k, k <> "x_url" ->
            dict_lookup k flat = dict_lookup k (flat_before_x d)).
  { intros k Hk. destruct (flatten_record_ok d _ Hflat) as [[= ->]|[x_url [= ->]]];
      [reflexivity | now apply dict_lookup_set_ne]. }
  assert (Hskip : forall key value fields,
            dict_lookup key (with_derived key v value fields) = dict_lookup key fields).
  { intros key value fields. now destruct v. }
  repeat split.
  - intros Hname. rewrite Hother by discriminate. unfold flat_before_x.
    rewrite !with_derived_lookup_ne by discriminate.
    unfold dict_get_default at 1. rewrite Hname. apply Hskip.
  - intros Hemails. rewrite Hother by discriminate. unfold flat_before_x.
    rewrite with_derived_lookup_ne by discriminate.
    unfold dict_get_default at 1. rewrite Hemails, Hskip.
    now apply with_derived_lookup_ne.
  - intros Hlink. rewrite Hother by discriminate. unfold flat_before_x.
    unfold dict_get_default at 1. rewrite Hlink, Hskip.
    now rewrite !with_derived_lookup_ne by discriminate.
  - intros Hlink. rewrite flatten_record_dict in Hflat.
    unfold dict_get_default at 1 in Hflat. rewrite Hlink in Hflat.
    destruct v; try discriminate; injection Hflat as <-;
      now apply flat_before_x_lookup.
Qed.

Lemma flatten_record_skips_plain_fields_witness :
  (dict_lookup "name" [("id", PStr "1"); ("name", PStr "Rec1")] = Some (PStr "Rec1") ->
   dict_lookup "name_full"
     [("id", PStr "1"); ("name", PStr "Rec1"); ("email_primary", PStr EmptyString);
      ("linkedin_url", PStr EmptyString); ("x_url", PStr EmptyString)]
   = dict_lookup "name_full" [("id", PStr "1"); ("name", PStr "Rec1")])
  /\ (dict_lookup "emails" [("id", PStr "1"); ("name", PStr "Rec1")] = Some (PStr "Rec1") ->
      dict_lookup "email_primary"
        [("id", PStr "1"); ("name", PStr "Rec1"); ("email_primary", PStr EmptyString);
         ("linkedin_url", PStr EmptyString); ("x_url", PStr EmptyString)]
      = dict_lookup "email_primary" [("id", PStr "1"); ("name", PStr "Rec1")])
  /\ (dict_lookup "linkedinLink" [("id", PStr "1"); ("name", PStr "Rec1")]
      = Some (PStr "Rec1") ->
      dict_lookup "linkedin_url"
        [("id", PStr "1"); ("name", PStr "Rec1"); ("email_primary", PStr EmptyString);
         ("linkedin_url", PStr EmptyString); ("x_url", PStr EmptyString)]
      = dict_lookup "linkedin_url" [("id", PStr "1"); ("name", PStr "Rec1")])
  /\ (dict_lookup "xLink" [("id", PStr "1"); ("name", PStr "Rec1")] = Some (PStr "Rec1") ->
      dict_lookup "x_url"
        [("id", PStr "1"); ("name", PStr "Rec1"); ("email_primary", PStr EmptyString);
         ("linkedin_url", PStr EmptyString); ("x_url", PStr EmptyString)]
      = dict_lookup "x_url" [("id", PStr "1"); ("name", PStr "Rec1")]).
Proof.
  apply (flatten_record_skips_plain_fields [("id", PStr "1"); ("name", PStr "Rec1")]);
    reflexivity.
Defined.

Lemma before_first_absent c s : py_contains_char c (before_first c s) = false.
Proof.
  induction s as [|a s IH]; [reflexivity|]. cbn.
  destruct (ascii_eqb a c) eqn:Hac; [reflexivity|]. cbn. now rewrite Hac.
Qed.

Lemma before_first_keeps_absent c c' s :
  py_contains_char c' s = false -> py_contains_char c' (before_first c s) = false.
Proof.
  induction s as [|a s IH]; [reflexivity|]. cbn.
  destruct (ascii_eqb a c); [reflexivity|]. cbn.
  destruct (ascii_eqb a c'); [discriminate|]. exact IH.
Qed.

Lemma after_last_absent c s : py_contains_char c (after_last c s) = false.
Proof.
  induction s as [|a s IH]; [reflexivity|]. cbn [after_last].
  destruct (ascii_eqb a c || py_contains_char c s) eqn:H; [exact IH|exact H].
Qed.

(** X14: the handle made of a textual X link never contains a dot, and when
    the trimmed link names [twitter.com/] or [x.com/] it contains no slash and
    no question mark either. *)
Theorem x_url_handle_has_no_separator d x_link u :
  dict_lookup "xLink" d = Some (PDict x_link) ->
  dict_lookup "primaryLinkUrl" x_link = Some (PStr u) ->
  exists flat handle,
    flatten_record (PDict d) = Ok (PDict flat)
    /\ dict_lookup "x_url" flat = Some (PStr handle)
    /\ py_contains_char "." handle = false
    /\ (has_social_domain (py_strip u) = true ->
        py_contains_char "/" handle = false /\ py_contains_char "?" handle = false).
Proof.
  intros Hlink Hurl. rewrite flatten_record_dict.
  unfold dict_get_default at 1. rewrite Hlink. cbv zeta.
  unfold dict_get_default. rewrite Hurl.
  destruct (py_truthy (PStr u)) eqn:Htruthy.
  - eexists _, _. split; [reflexivity|]. split; [apply dict_lookup_set_eq|].
    rewrite clean_handle_amended. unfold handle_as_amended. cbv zeta.
    split; [apply before_first_absent|].
    intros ->. split.
    + apply before_first_keeps_absent, before_first_keeps_absent, after_last_absent.
    + apply before_first_keeps_absent, before_first_absent.
  - destruct u; [|discriminate].
    eexists _, _. split; [reflexivity|]. split; [apply dict_lookup_set_eq|].
    split; [reflexivity|]. discriminate.
Qed.

Lemma x_url_handle_has_no_separator_witness :
  exists flat handle,
    flatten_record
      (PDict [("xLink", PDict [("primaryLinkUrl", PStr "https://x.com/jack.d/?lang=en")])])
    = Ok (PDict flat)
    /\ dict_lookup "x_url" flat = Some (PStr handle)
    /\ py_contains_char "." handle = false
    /\ (has_social_domain (py_strip "https://x.com/jack.d/?lang=en") = true ->
        py_contains_char "/" handle = false /\ py_contains_char "?" handle = false).
Proof.
  apply (x_url_handle_has_no_separator
           [("xLink", PDict [("primaryLinkUrl", PStr "https://x.com/jack.d/?lang=en")])]
           [("primaryLinkUrl", PStr "https://x.com/jack.d/?lang=en")]);
    reflexivity.
Defined.


(** ** The payload, field by field *)

Section Fields.
Variable record : pydict.

Lemma add_field_lookup values source_field target_field t :
  dict_lookup t (add_field record values (source_field, target_field))
  = if non_empty_value (dict_get_default source_field PNone record) && String.eqb t target_field
    then Some (encode_field target_field (dict_get_default source_field PNone record))
    else dict_lookup t values.
Proof.
  unfold add_field.
  destruct (non_empty_value (dict_get_default source_field PNone record)); [|reflexivity].
  cbn [andb]. destruct (String.eqb_spec t target_field) as [->|Hne].
  - apply dict_lookup_set_eq.
  - now apply dict_lookup_set_ne.
Qed.

(** Fields whose sources are all empty leave the entry of [t] alone. *)
Lemma fold_add_field_skips fields t : forall values,
  (forall s, In (s, t) fields ->
             non_empty_value (dict_get_default s PNone record) = false) ->
  dict_lookup t (List.fold_left (add_field record) fields values) = dict_lookup t values.
Proof.
  induction fields as [|[s' t'] rest IH]; intros values Hempty; [reflexivity|].
  cbn [List.fold_left]. rewrite IH by (intros s Hs; apply Hempty; now right).
  rewrite add_field_lookup.
  destruct (String.eqb_spec t t') as [->|Hne]; [|now rewrite andb_false_r].
  rewrite (Hempty s') by now left. reflexivity.
Qed.

(** An entry is the one it was, or the encoding of a non-empty source. *)
Lemma fold_add_field_origin fields t v : forall values,
  dict_lookup t (List.fold_left (add_field record) fields values) = Some v ->
  dict_lookup t values = Some v
  \/ exists s, In (s, t) fields
               /\ non_empty_value (dict_get_default s PNone record) = true
               /\ v = encode_field t (dict_get_default s PNone record).
Proof.
  induction fields as [|[s' t'] rest IH]; intros values Hv; [now left|].
  cbn [List.fold_left] in Hv. destruct (IH _ Hv) as [Hhere|(s & Hin & Hne & ->)].
  - rewrite add_field_lookup in Hhere.
    destruct (non_empty_value (dict_get_default s' PNone record)) eqn:Hne;
      [|now left].
    destruct (String.eqb_spec t t') as [->|Hother]; [|now left].
    cbn [andb] in Hhere. injection Hhere as <-. right. exists s'. split; [now left|].
    now split.
  - right. exists s. split; [now right|]. now split.
Qed.

(** An entry that is there stays there. *)
Lemma fold_add_field_keeps fields t : forall values v,
  dict_lookup t values = Some v ->
  exists v', dict_lookup t (List.fold_left (add_field record) fields values) = Some v'.
Proof.
  induction fields as [|[s' t'] rest IH]; intros values v Hv; [eauto|].
  cbn [List.fold_left].
  destruct (dict_lookup t (add_field record values (s', t'))) as [v'|] eqn:Hnext;
    [exact (IH _ v' Hnext)|].
  rewrite add_field_lookup in Hnext. destruct (_ && _); congruence.
Qed.

(** A non-empty source puts an entry under its target. *)
Lemma fold_add_field_present fields s t : forall values,
  In (s, t) fields ->
  non_empty_value (dict_get_default s PNone record) = true ->
  exists v, dict_lookup t (List.fold_left (add_field record) fields values) = Some v.
Proof.
  intros values Hin Hne. apply in_split in Hin as (front & back & ->).
  rewrite fold_left_app. cbn [List.fold_left].
  apply (fold_add_field_keeps back t _
           (encode_field t (dict_get_default s PNone record))).
  now rewrite add_field_lookup, Hne, String.eqb_refl.
Qed.

(** X15: the payload holds, under a target field, the encoding of the value
    of the last source field mapped to it whose value is neither [None] nor
    the empty string. *)
Theorem payload_holds_the_last_non_empty_source front s t back :
  non_empty_value (dict_get_default s PNone record) = true ->
  (forall s', In (s', t) back ->
              non_empty_value (dict_get_default s' PNone record) = false) ->
  dict_lookup t (build_values record (front ++ (s, t) :: back))
  = Some (encode_field t (dict_get_default s PNone record)).
Proof.
  intros Hne Hback. unfold build_values.
  rewrite fold_left_app. cbn [List.fold_left].
  rewrite fold_add_field_skips by exact Hback.
  rewrite add_field_lookup, Hne, String.eqb_refl. reflexivity.
Qed.

(** X16: a target field is missing from the payload exactly when every source
    field mapped to it is missing from the record, [None] or the empty
    string; fields that no mapping entry targets never appear. *)
Theorem payload_omits_empty_and_unmapped_fields mapping t :
  dict_lookup t (build_values record mapping) = None
  <-> forall s, In (s, t) mapping ->
                non_empty_value (dict_get_default s PNone record) = false.
Proof.
  unfold build_values. split.
  - intros Hnone s Hin.
    destruct (non_empty_value (dict_get_default s PNone record)) eqn:Hne; [|reflexivity].
    destruct (fold_add_field_present mapping s t [] Hin Hne) as [v Hv]. congruence.
  - intros Hempty. now rewrite fold_add_field_skips.
Qed.
End Fields.

Lemma payload_holds_the_last_non_empty_source_witness :
  dict_lookup "job_title"
    (build_values [("jobTitle", PStr "CEO"); ("role", PStr "Founder"); ("title", PStr EmptyString)]
       ([("name_full", "name")]
        ++ ("role", "job_title")
        :: [("title", "job_title")]))
  = Some (encode_field "job_title"
            (dict_get_default "role" PNone
               [("jobTitle", PStr "CEO"); ("role", PStr "Founder");
                ("title", PStr EmptyString)])).
Proof.
  apply (payload_holds_the_last_non_empty_source
           [("jobTitle", PStr "CEO"); ("role", PStr "Founder"); ("title", PStr EmptyString)]
           [("name_full", "name")] "role" "job_title" [("title", "job_title")]).
  - reflexivity.
  - intros s' [[= <-]|[]]. reflexivity.
Defined.

(** X17: a record is written by the upsert on [email_addresses] exactly when
    one of the source fields mapped to [email_addresses] has a value that is
    neither [None] nor the empty string. *)
Theorem has_email_iff_record_has_address record mapping :
  has_email (build_values record mapping) = true
  <-> exists s, In (s, "email_addresses") mapping
                /\ non_empty_value (dict_get_default s PNone record) = true.
Proof.
  unfold has_email, dict_has, dict_get_default. split.
  - destruct (dict_lookup "email_addresses" (build_values record mapping)) as [v|] eqn:Hv;
      [|discriminate].
    intros _. destruct (fold_add_field_origin record mapping _ v [] Hv)
      as [Hnil|(s & Hin & Hne & _)]; [discriminate | eauto].
  - intros (s & Hin & Hne).
    destruct (dict_lookup "email_addresses" (build_values record mapping)) as [v|] eqn:Hv.
    + destruct (fold_add_field_origin record mapping _ v [] Hv)
        as [Hnil|(s' & _ & _ & ->)]; [discriminate | reflexivity].
    + destruct (fold_add_field_present record mapping s _ [] Hin Hne) as [v Hsome].
      unfold build_values in Hv. congruence.
Qed.

Lemma py_split1_first c s :
  first_segment (py_split1 c s) = before_first c s.
Proof.
  induction s as [|a s IH]; [reflexivity|]. cbn.
  destruct (ascii_eqb a c); [reflexivity|].
  destruct (py_split1 c s) as [|h t]; cbn in *; now rewrite <- IH.
Qed.

Lemma py_split1_parts c s :
  if py_contains_char c s
  then exists last, py_split1 c s = [before_first c s; last]
                    /\ s = before_first c s +:+ String c last
  else py_split1 c s = [s].
Proof.
  induction s as [|a s IH]; [reflexivity|]. cbn.
  destruct (Ascii.eqb_spec a c) as [->|Hne].
  - unfold ascii_eqb. rewrite Ascii.eqb_refl. cbn. eauto.
  - unfold ascii_eqb in *. destruct (Ascii.eqb a c) eqn:Hac;
      [apply Ascii.eqb_eq in Hac; congruence|]. cbn.
    destruct (py_contains_char c s).
    + destruct IH as (last & -> & Hs). exists last. split; [reflexivity|].
      change (String a s = String a (before_first c s +:+ String c last)).
      now rewrite <- Hs.
    + now rewrite IH.
Qed.

(** X18: the name entry keeps the value as [full_name] and cuts its text at the
    first space: [first_name] has no space, and with a space in the text
    [first_name], a space and [last_name] spell the text again; without one
    [first_name] is the whole text and [last_name] is empty. *)
Theorem name_parts_spell_the_full_name value :
  exists first_name last_name,
    encode_field "name" value
    = PList [PDict [("full_name", value); ("first_name", PStr first_name);
                    ("last_name", PStr last_name)]]
    /\ py_contains_char " " first_name = false
    /\ if py_contains_char " " (py_str value)
       then py_str value = first_name +:+ " " +:+ last_name
       else first_name = py_str value /\ last_name = EmptyString.
Proof.
  unfold encode_field. cbn [String.eqb Ascii.eqb Bool.eqb].
  cbv zeta. rewrite py_split1_first.
  pose proof (py_split1_parts " " (py_str value)) as Hparts.
  destruct (py_contains_char " " (py_str value)) eqn:Hspace.
  - destruct Hparts as (last & -> & Hs). eexists _, _. split; [reflexivity|].
    split; [apply before_first_absent | exact Hs].
  - rewrite Hparts. eexists _, _. split; [reflexivity|].
    split; [apply before_first_absent|].
    split; [now apply before_first_no_separator | reflexivity].
Qed.


(** ** The log of [execute_migration] *)

Section Accounts.
Context {W : Type} `{Server W} (cfg : Config).

(** X19: [execute_migration] never raises, whatever the service does, in
    dry-run and in live mode: the entries logged before are kept, every
    record adds exactly one entry, to the successes or to the failures, the
    two counters count the entries added, and nothing is counted as skipped. *)
Theorem execute_migration_accounts_for_every_record client records mapping target dry_run :
  forall logger w,
  exists logger' successes failures,
    result_of (execute_migration cfg client records mapping target logger dry_run w)
    = Ok logger'
    /\ successful_records logger' = (successful_records logger ++ successes)%list
    /\ failed_records logger' = (failed_records logger ++ failures)%list
    /\ (List.length successes + List.length failures = List.length records)%nat
    /\ success_count logger' = success_count logger + Z.of_nat (List.length successes)
    /\ error_count logger' = error_count logger + Z.of_nat (List.length failures)
    /\ skipped_count logger' = skipped_count logger.
Proof.
  induction records as [|record rest IH]; intros logger w.
  - exists logger, [], []. cbn. rewrite !app_nil_r. repeat split; lia.
  - cbn [execute_migration]. unfold bind.
    destruct (migrate_record_logs_once cfg client mapping target dry_run logger record w)
      as (logger1 & Hres & Hlog).
    destruct (migrate_record cfg client mapping target dry_run logger record w)
      as [[r w1] t1]. unfold result_of in Hres. cbn in Hres. subst r.
    destruct (IH logger1 w1) as (logger' & successes & failures & Hres' & Hs & Hf & Hlen
                                 & Hsc & Hec & Hskip).
    destruct (execute_migration cfg client rest mapping target logger1 dry_run w1)
      as [[r w2] t2]. unfold result_of in *. cbn in Hres'. subst r. cbn [fst].
    destruct Hlog as [(attio_id & ->)|(msg & ->)]; cbn in Hs, Hf, Hsc, Hec, Hskip.
    + eexists logger', (_ :: successes), failures. split; [reflexivity|].
      rewrite Hs, Hf, <- ?app_assoc. repeat split; cbn [List.length]; lia.
    + eexists logger', successes, (_ :: failures). split; [reflexivity|].
      rewrite Hs, Hf, <- ?app_assoc. repeat split; cbn [List.length]; lia.
Qed.

(** With an attempt allowed and a service on which every call fails,
    [request] raises after [MAX_RETRIES] calls. *)
Lemma request_on_dead_service self method endpoint kw w :
  1 <= MAX_RETRIES cfg ->
  (forall req w', outcome_fails (fst (send req w')) = true) ->
  exists e w1 t,
    request cfg self method endpoint kw w = (Raise e, w1, t)
    /\ requests_of t
       = List.repeat (request_of cfg self method endpoint kw) (Z.to_nat (MAX_RETRIES cfg)).
Proof.
  intros Hmax Hfail.
  destruct (request_raises_when_all_fail cfg self method endpoint kw w Hmax
              (fun w' => Hfail _ w')) as [e He].
  pose proof (retry_loop_all_fail cfg (request_of cfg self method endpoint kw)
                (fun w' => Hfail _ w') (Z.to_nat (MAX_RETRIES cfg)) 0 w ltac:(lia))
    as (outcomes & Hlen & _ & Htrace & _).
  unfold request, py_range in *.
  destruct (retry_loop cfg _ _ w) as [[r w1] t]. unfold result_of, trace_of in *.
  cbn in He, Htrace. subst r t. eexists e, w1, _. split; [reflexivity|].
  now rewrite requests_of_backoff, Hlen.
Qed.

Lemma migrate_record_on_dead_service client mapping target logger record w :
  1 <= MAX_RETRIES cfg ->
  (forall req w', outcome_fails (fst (send req w')) = true) ->
  exists msg w1 t,
    migrate_record cfg client mapping target false logger record w
    = (Ok (log_error logger (dict_get_default "id" (PStr "unknown") record) msg
             (build_payload record mapping)), w1, t)
    /\ List.length (requests_of t) = Z.to_nat (MAX_RETRIES cfg).
Proof.
  intros Hmax Hfail. unfold migrate_record, send_payload, post, build_payload.
  destruct (String.eqb target "people"); [destruct (has_email _)|].
  all: unfold bind, try;
    match goal with
    | |- context [request ?cf ?c ?m ?e ?kw ?w0] =>
        destruct (request_on_dead_service c m e kw w0 Hmax Hfail)
          as (e' & w1 & t & Hreq & Hcalls)
    end;
    rewrite Hreq; cbn;
    eexists _, w1, _; (split; [reflexivity|]);
    rewrite ?app_nil_r, Hcalls; apply repeat_length.
Qed.

(** X20: on a target where every call fails, a live migration with at least
    one attempt allowed still runs to its end: no success is logged, every
    record is logged as a failure, in order, and each record has cost
    [MAX_RETRIES] calls. *)
Theorem dead_target_fails_every_record client records mapping target :
  1 <= MAX_RETRIES cfg ->
  (forall req w, outcome_fails (fst (send req w)) = true) ->
  forall logger w,
  exists logger',
    result_of (execute_migration cfg client records mapping target logger false w)
    = Ok logger'
    /\ successful_records logger' = successful_records logger
    /\ List.map f_twenty_id (failed_records logger')
       = (List.map f_twenty_id (failed_records logger)
          ++ List.map (dict_get_default "id" (PStr "unknown")) records)%list
    /\ List.map f_record_data (failed_records logger')
       = (List.map f_record_data (failed_records logger)
          ++ List.map (fun record => build_payload record mapping) records)%list
    /\ List.length
         (requests_of
            (trace_of (execute_migration cfg client records mapping target logger false w)))
       = (Z.to_nat (MAX_RETRIES cfg) * List.length records)%nat.
Proof.
  intros Hmax Hfail. induction records as [|record rest IH]; intros logger w.
  - exists logger. cbn. rewrite !app_nil_r. repeat split; lia.
  - cbn [execute_migration]. unfold bind.
    destruct (migrate_record_on_dead_service client mapping target logger record w
                Hmax Hfail) as (msg & w1 & t1 & -> & Hcalls).
    destruct (IH (log_error logger (dict_get_default "id" (PStr "unknown") record) msg
                    (build_payload record mapping)) w1)
      as (logger' & Hres & Hs & Hids & Hdata & Hcount).
    destruct (execute_migration cfg client rest mapping target _ false w1)
      as [[r w2] t2]. unfold result_of, trace_of in *. cbn in Hres, Hcount. subst r.
    exists logger'. cbn [fst snd]. split; [reflexivity|].
    cbn in Hs, Hids, Hdata. rewrite Hs, Hids, Hdata, !map_app, <- !app_assoc.
    repeat split. rewrite requests_of_app, length_app, Hcalls, Hcount.
    cbn [List.length]. lia.
Qed.
End Accounts.

Lemma dead_target_fails_every_record_witness :
  exists logger',
    result_of (execute_migration default_config (attio "t") [alice; paris] people_mapping
                 "people" new_logger false Unavailable)
    = Ok logger'
    /\ successful_records logger' = successful_records new_logger
    /\ List.map f_twenty_id (failed_records logger')
       = (List.map f_twenty_id (failed_records new_logger)
          ++ List.map (dict_get_default "id" (PStr "unknown")) [alice; paris])%list
    /\ List.map f_record_data (failed_records logger')
       = (List.map f_record_data (failed_records new_logger)
          ++ List.map (fun record => build_payload record people_mapping) [alice; paris])%list
    /\ List.length
         (requests_of
            (trace_of (execute_migration default_config (attio "t") [alice; paris]
                         people_mapping "people" new_logger false Unavailable)))
       = (Z.to_nat (MAX_RETRIES default_config) * List.length [alice; paris])%nat.
Proof.
  apply (dead_target_fails_every_record default_config (attio "t") [alice; paris]
           people_mapping "people").
  - cbn. lia.
  - intros req w. reflexivity.
Defined.


(** ** The upsert of a person *)

Section Upsert.
Context {W : Type} `{Server W} (cfg : Config).

(** A person with an address whose upsert is answered well at once: one call,
    and what is logged is decided by the answer. *)
Lemma migrate_record_upsert client mapping logger record w r w1 :
  1 <= MAX_RETRIES cfg ->
  has_email (build_values record mapping) = true ->
  send (upsert_request cfg client (build_payload record mapping)) w = (Responded r, w1) ->
  raise_for_status r = Ok tt ->
  migrate_record cfg client mapping "people" false logger record w
  = (Ok (log_response logger (dict_get_default "id" (PStr "unknown") record)
           (build_payload record mapping) (FromRequest (Some r))),
     w1, [Sent (upsert_request cfg client (build_payload record mapping)) (Responded r)]).
Proof.
  intros Hmax Hemail Hsend Hok.
  unfold migrate_record, send_payload. cbn [String.eqb Ascii.eqb Bool.eqb].
  rewrite Hemail. unfold bind, try, request, py_range.
  destruct (Z.to_nat (MAX_RETRIES cfg)) as [|n] eqn:Hn; [lia|].
  cbn [List.seq List.map].
  unfold upsert_request, build_payload in Hsend.
  rewrite (retry_loop_success cfg _ _ _ _ _ _ Hsend Hok). reflexivity.
Qed.

(** X21: when the upsert of a person with an address is answered at once with
    a good status and a JSON object whose [data.id.record_id] is there, the
    record is logged as a success under that identifier, after one call. *)
Theorem upsert_logs_the_record_identifier client mapping logger record w r w1
    body data id record_id :
  1 <= MAX_RETRIES cfg ->
  has_email (build_values record mapping) = true ->
  send (upsert_request cfg client (build_payload record mapping)) w = (Responded r, w1) ->
  raise_for_status r = Ok tt ->
  json_body r = JSON (PDict body) ->
  dict_lookup "data" body = Some (PDict data) ->
  dict_lookup "id" data = Some (PDict id) ->
  dict_lookup "record_id" id = Some record_id ->
  migrate_record cfg client mapping "people" false logger record w
  = (Ok (log_success logger (dict_get_default "id" (PStr "unknown") record) record_id
           (build_payload record mapping)),
     w1, [Sent (upsert_request cfg client (build_payload record mapping)) (Responded r)]).
Proof.
  intros Hmax Hemail Hsend Hok Hbody Hdata Hid Hrecord.
  rewrite (migrate_record_upsert _ _ _ _ _ _ _ Hmax Hemail Hsend Hok).
  unfold log_response. cbn [response_truthy call_json]. unfold response_ok.
  rewrite Hok. cbn [is_ok]. unfold response_json. rewrite Hbody.
  cbn [rbind record_id_of py_in]. unfold dict_has. rewrite Hdata.
  cbn [rbind py_getitem]. rewrite Hdata. cbn [rbind py_get].
  unfold dict_get_default. rewrite Hid. cbn [rbind py_get].
  unfold dict_get_default. rewrite Hrecord. reflexivity.
Qed.

(** A good answer to the upsert that carries no identifier is a success
    all the same: without a [data] key in its JSON object the record is logged
    under ["upserted"], and with a body that is not JSON under
    ["upserted-no-content"]. *)
Theorem upsert_without_identifier_is_a_success client mapping logger record w r w1 :
  1 <= MAX_RETRIES cfg ->
  has_email (build_values record mapping) = true ->
  send (upsert_request cfg client (build_payload record mapping)) w = (Responded r, w1) ->
  raise_for_status r = Ok tt ->
  match json_body r with
  | JSON (PDict body) => dict_lookup "data" body = None
  | JSON _ => False
  | NotJSON _ => True
  end ->
  result_of (migrate_record cfg client mapping "people" false logger record w)
  = Ok (log_success logger (dict_get_default "id" (PStr "unknown") record)
          (PStr (match json_body r with
                 | JSON _ => "upserted"
                 | NotJSON _ => "upserted-no-content"
                 end))
          (build_payload record mapping)).
Proof.
  intros Hmax Hemail Hsend Hok Hbody.
  rewrite (migrate_record_upsert _ _ _ _ _ _ _ Hmax Hemail Hsend Hok).
  unfold result_of, log_response. cbn [fst response_truthy call_json].
  unfold response_ok. rewrite Hok. cbn [is_ok]. unfold response_json.
  destruct (json_body r) as [err|[| | | | | |body]]; try contradiction; [reflexivity|].
  cbn [rbind record_id_of py_in]. unfold dict_has. rewrite Hbody. reflexivity.
Qed.
End Upsert.

Lemma upsert_logs_the_record_identifier_witness :
  migrate_record default_config (attio "t") people_mapping "people" false new_logger bob
    ([Responded created_attio_1] : script)
  = (Ok (log_success new_logger (dict_get_default "id" (PStr "unknown") bob) (PStr "attio_1")
           (build_payload bob people_mapping)),
     [],
     [Sent (upsert_request default_config (attio "t") (build_payload bob people_mapping))
        (Responded created_attio_1)]).
Proof.
  apply (upsert_logs_the_record_identifier default_config (attio "t") people_mapping
           new_logger bob ([Responded created_attio_1] : script) created_attio_1 []
           [("data", PDict [("id", PDict [("record_id", PStr "attio_1")])])]
           [("id", PDict [("record_id", PStr "attio_1")])]
           [("record_id", PStr "attio_1")] (PStr "attio_1"));
    try reflexivity.
  cbn. lia.
Defined.

Lemma upsert_without_identifier_is_a_success_witness :
  result_of (migrate_record default_config (attio "t") people_mapping "people" false
               new_logger bob ([Responded empty_ok] : script))
  = Ok (log_success new_logger (dict_get_default "id" (PStr "unknown") bob)
          (PStr "upserted-no-content") (build_payload bob people_mapping)).
Proof.
  apply (upsert_without_identifier_is_a_success default_config (attio "t") people_mapping
           new_logger bob ([Responded empty_ok] : script) empty_ok []);
    try reflexivity; try exact I.
  cbn. lia.
Defined.


(** ** Fetching all the records of an object *)

Lemma query_trace_app request_at answers more : forall offset,
  query_trace request_at offset (answers ++ more)
  = (query_trace request_at offset answers
     ++ query_trace request_at (offset + 1000 * Z.of_nat (List.length answers)) more)%list.
Proof.
  induction answers as [|o answers IH]; intros offset.
  - cbn. now rewrite Z.add_0_r.
  - cbn [app query_trace List.length]. rewrite IH. do 3 f_equal. lia.
Qed.

Lemma query_trace_ext request_at request_at' answers : forall offset,
  (forall o, request_at o = request_at' o) ->
  query_trace request_at offset answers = query_trace request_at' offset answers.
Proof.
  induction answers as [|o answers IH]; intros offset Hsame; [reflexivity|].
  cbn. now rewrite Hsame, (IH _ Hsame).
Qed.

Section FetchRecords.
Import find_duplicates.
Variable TOKEN : string.
Variable object_slug : string.

Lemma fetch_batch_good offset resp batch (rest : script) :
  holds_batch resp batch ->
  fetch_batch TOKEN object_slug offset (Responded resp :: rest)
  = (Ok batch, rest, [Sent (query_request TOKEN object_slug offset) (Responded resp)]).
Proof.
  intros (Hok & body & Hbody & Hdata).
  unfold fetch_batch, bind, http, lift, response_json. cbn.
  rewrite Hok, Hbody. cbn. unfold dict_get_default. rewrite Hdata. reflexivity.
Qed.

Lemma fetch_batch_breaks offset o (rest : script) :
  breaks_fetch o ->
  exists e, fetch_batch TOKEN object_slug offset (o :: rest)
            = (Raise e, rest, [Sent (query_request TOKEN object_slug offset) o]).
Proof.
  unfold fetch_batch, bind, http, lift, response_json.
  intros [Hfails|(resp & err & -> & Hbody)].
  - unfold outcome_fails, outcome_error in Hfails. destruct o as [resp|msg]; cbn.
    + destruct (raise_for_status resp) as [[]|e]; [discriminate|]. eauto.
    + eauto.
  - cbn. destruct (raise_for_status resp) as [[]|e]; [|eauto].
    rewrite Hbody. eauto.
Qed.

(** The loop over full pages, up to the answer that ends it. *)
Lemma fetch_loop_walk pages : forall fuel offset records last (rest : script),
  List.Forall full_batch pages ->
  (List.length pages < fuel)%nat ->
  fetch_loop TOKEN fuel object_slug offset records (page_answers pages ++ last :: rest)%list
  = let out := fetch_loop TOKEN (fuel - List.length pages) object_slug
                 (offset + 1000 * Z.of_nat (List.length pages))
                 (records ++ List.concat (List.map snd pages))%list (last :: rest) in
    (result_of out, world_of out,
     (query_trace (query_request TOKEN object_slug) offset (page_answers pages)
      ++ trace_of out)%list).
Proof.
  induction pages as [|[resp batch] pages IH]; intros fuel offset records last rest Hfull Hfuel.
  - cbn. rewrite Nat.sub_0_r, Z.add_0_r, app_nil_r.
    now destruct (fetch_loop TOKEN fuel object_slug offset records (last :: rest))
      as [[r w] t].
  - inversion Hfull as [|? ? [Hholds Hlen] Hfull']; subst. cbn in Hholds, Hlen.
    destruct fuel as [|fuel]; [cbn in Hfuel; lia|].
    cbn [page_answers List.map app fst fetch_loop]. unfold bind at 1. unfold try.
    rewrite (fetch_batch_good offset resp batch _ Hholds).
    assert (Hshort : (Z.of_nat (List.length batch) <? limit) = false)
      by (apply Z.ltb_ge; unfold limit; lia).
    rewrite Hshort.
    fold (page_answers pages).
    rewrite (IH fuel (offset + limit) (records ++ batch)%list last rest Hfull')
      by (cbn in Hfuel; lia).
    cbn [List.length List.map List.concat snd query_trace Nat.sub].
    replace (offset + limit + 1000 * Z.of_nat (List.length pages))
      with (offset + 1000 * Z.of_nat (S (List.length pages))) by (unfold limit; lia).
    rewrite <- app_assoc. unfold limit.
    destruct (fetch_loop TOKEN _ object_slug _ _ (last :: rest)) as [[r w] t].
    reflexivity.
Qed.

(** X22: [fetch_all_records] asks for pages of 1000 records at the offsets
    0, 1000, 2000, ..., each with a [POST] to the query address of the object
    whose body holds that limit and that offset, and stops at the first page
    that is shorter: it returns the records of all the pages, that one
    included, in order, and leaves the rest of the service unread. *)
Theorem fetch_all_records_ends_at_a_short_page pages resp batch (rest : script) fuel :
  List.Forall full_batch pages ->
  holds_batch resp batch ->
  Z.of_nat (List.length batch) < 1000 ->
  (List.length pages < fuel)%nat ->
  fetch_all_records TOKEN fuel object_slug (page_answers pages ++ Responded resp :: rest)%list
  = (Ok (Some (List.concat (List.map snd pages) ++ batch)%list), rest,
     query_trace (stated_query TOKEN object_slug) 0
       (page_answers pages ++ [Responded resp])%list).
Proof.
  intros Hfull Hholds Hshort Hfuel. unfold fetch_all_records.
  rewrite <- (query_trace_ext (query_request TOKEN object_slug)) by reflexivity.
  rewrite (fetch_loop_walk pages fuel 0 [] _ rest Hfull Hfuel).
  destruct (fuel - List.length pages)%nat as [|fuel'] eqn:Hleft; [lia|].
  cbn [fetch_loop]. unfold bind, try.
  rewrite (fetch_batch_good _ resp batch _ Hholds).
  assert (Hlt : (Z.of_nat (List.length batch) <? limit) = true)
    by (apply Z.ltb_lt; unfold limit; lia).
  rewrite Hlt. cbn. f_equal.
  unfold page_answers. rewrite query_trace_app, length_map. reflexivity.
Qed.

(** X23: [fetch_all_records] never retries and never raises: at the first
    answer that is a transport failure, an error status or not JSON, it stops
    and returns the records of the pages fetched before, as if the object held
    no more. *)
Theorem fetch_all_records_keeps_the_pages_before_a_failure pages o (rest : script) fuel :
  List.Forall full_batch pages ->
  breaks_fetch o ->
  (List.length pages < fuel)%nat ->
  fetch_all_records TOKEN fuel object_slug (page_answers pages ++ o :: rest)%list
  = (Ok (Some (List.concat (List.map snd pages))), rest,
     query_trace (query_request TOKEN object_slug) 0 (page_answers pages ++ [o])%list).
Proof.
  intros Hfull Hbreaks Hfuel. unfold fetch_all_records.
  rewrite (fetch_loop_walk pages fuel 0 [] _ rest Hfull Hfuel).
  destruct (fuel - List.length pages)%nat as [|fuel'] eqn:Hleft; [lia|].
  cbn [fetch_loop]. unfold bind, try.
  destruct (fetch_batch_breaks (0 + 1000 * Z.of_nat (List.length pages)) o rest Hbreaks)
    as [e ->].
  cbn. f_equal.
  unfold page_answers. rewrite query_trace_app, length_map. reflexivity.
Qed.
End FetchRecords.

Section FetchCompanies.
Import merge_duplicates.
Variable TOKEN : string.

Lemma companies_batch_good offset resp batch (rest : script) :
  holds_batch resp batch ->
  companies_batch TOKEN offset (Responded resp :: rest)
  = (Ok batch, rest, [Sent (companies_request TOKEN offset) (Responded resp)]).
Proof.
  intros (Hok & body & Hbody & Hdata).
  unfold companies_batch, bind, http, lift, response_json. cbn.
  rewrite Hok, Hbody. cbn. unfold dict_get_default. rewrite Hdata. reflexivity.
Qed.

Lemma companies_batch_breaks offset o (rest : script) :
  breaks_fetch o ->
  exists e, companies_batch TOKEN offset (o :: rest)
            = (Raise e, rest, [Sent (companies_request TOKEN offset) o]).
Proof.
  unfold companies_batch, bind, http, lift, response_json.
  intros [Hfails|(resp & err & -> & Hbody)].
  - unfold outcome_fails, outcome_error in Hfails. destruct o as [resp|msg]; cbn.
    + destruct (raise_for_status resp) as [[]|e]; [discriminate|]. eauto.
    + eauto.
  - cbn. destruct (raise_for_status resp) as [[]|e]; [|eauto].
    rewrite Hbody. eauto.
Qed.

Lemma companies_loop_walk pages : forall fuel offset records last (rest : script),
  List.Forall full_batch pages ->
  (List.length pages < fuel)%nat ->
  companies_loop TOKEN fuel offset records (page_answers pages ++ last :: rest)%list
  = let out := companies_loop TOKEN (fuel - List.length pages)
                 (offset + 1000 * Z.of_nat (List.length pages))
                 (records ++ List.concat (List.map snd pages))%list (last :: rest) in
    (result_of out, world_of out,
     (query_trace (companies_request TOKEN) offset (page_answers pages)
      ++ trace_of out)%list).
Proof.
  induction pages as [|[resp batch] pages IH]; intros fuel offset records last rest Hfull Hfuel.
  - cbn. rewrite Nat.sub_0_r, Z.add_0_r, app_nil_r.
    now destruct (companies_loop TOKEN fuel offset records (last :: rest)) as [[r w] t].
  - inversion Hfull as [|? ? [Hholds Hlen] Hfull']; subst. cbn in Hholds, Hlen.
    destruct fuel as [|fuel]; [cbn in Hfuel; lia|].
    cbn [page_answers List.map app fst companies_loop]. unfold bind at 1. unfold try.
    rewrite (companies_batch_good offset resp batch _ Hholds).
    assert (Hshort : (Z.of_nat (List.length batch) <? limit) = false)
      by (apply Z.ltb_ge; unfold limit; lia).
    rewrite Hshort.
    fold (page_answers pages).
    rewrite (IH fuel (offset + limit) (records ++ batch)%list last rest Hfull')
      by (cbn in Hfuel; lia).
    cbn [List.length List.map List.concat snd query_trace Nat.sub].
    replace (offset + limit + 1000 * Z.of_nat (List.length pages))
      with (offset + 1000 * Z.of_nat (S (List.length pages))) by (unfold limit; lia).
    rewrite <- app_assoc. unfold limit.
    destruct (companies_loop TOKEN _ _ _ (last :: rest)) as [[r w] t].
    reflexivity.
Qed.

(** X24: [fetch_all_companies] asks for the companies sorted by creation time,
    earliest first, 1000 at a time, at the offsets 0, 1000, ..., each with a
    [POST] to the query address of the companies whose body holds that limit,
    that offset and that sort; it ends at the first page that is shorter, which
    it keeps, or at the first answer that is a failure, an error status or not
    JSON, and then returns the companies fetched so far without raising. *)
Theorem fetch_all_companies_returns_what_it_fetched pages o batch (rest : script) fuel :
  List.Forall full_batch pages ->
  (exists resp, o = Responded resp /\ holds_batch resp batch
                /\ Z.of_nat (List.length batch) < 1000)
  \/ (breaks_fetch o /\ batch = []) ->
  (List.length pages < fuel)%nat ->
  fetch_all_companies TOKEN fuel (page_answers pages ++ o :: rest)%list
  = (Ok (Some (List.concat (List.map snd pages) ++ batch)%list), rest,
     query_trace (stated_companies_query TOKEN) 0 (page_answers pages ++ [o])%list).
Proof.
  intros Hfull Hlast Hfuel. unfold fetch_all_companies.
  rewrite <- (query_trace_ext (companies_request TOKEN)) by reflexivity.
  rewrite (companies_loop_walk pages fuel 0 [] _ rest Hfull Hfuel).
  destruct (fuel - List.length pages)%nat as [|fuel'] eqn:Hleft; [lia|].
  cbn [companies_loop]. unfold bind, try.
  destruct Hlast as [(resp & -> & Hholds & Hshort)|[Hbreaks ->]].
  - rewrite (companies_batch_good _ resp batch _ Hholds).
    assert (Hlt : (Z.of_nat (List.length batch) <? limit) = true)
      by (apply Z.ltb_lt; unfold limit; lia).
    rewrite Hlt. cbn. f_equal.
    unfold page_answers. rewrite query_trace_app, length_map. reflexivity.
  - destruct (companies_batch_breaks (0 + 1000 * Z.of_nat (List.length pages)) o rest
                Hbreaks) as [e ->].
    cbn. rewrite app_nil_r. f_equal.
    unfold page_answers. rewrite query_trace_app, length_map. reflexivity.
Qed.
End FetchCompanies.

Lemma query_page_holds batch : holds_batch (query_page batch) batch.
Proof. split; [reflexivity|]. eexists. split; reflexivity. Qed.

Lemma thousand_records_full : full_batch (query_page thousand_records, thousand_records).
Proof. split; [apply query_page_holds|]. vm_compute. discriminate. Qed.

Lemma fetch_all_records_ends_at_a_short_page_witness :
  find_duplicates.fetch_all_records "t" 3 "people"
    (page_answers [(query_page thousand_records, thousand_records)]
     ++ Responded (query_page [PDict []]) :: [Failed "unread"])%list
  = (Ok (Some (List.concat (List.map snd [(query_page thousand_records, thousand_records)])
               ++ [PDict []])%list),
     [Failed "unread"],
     query_trace (stated_query "t" "people") 0
       (page_answers [(query_page thousand_records, thousand_records)]
        ++ [Responded (query_page [PDict []])])%list).
Proof.
  apply (fetch_all_records_ends_at_a_short_page "t" "people"
           [(query_page thousand_records, thousand_records)]
           (query_page [PDict []]) [PDict []] [Failed "unread"] 3).
  - constructor; [apply thousand_records_full | constructor].
  - apply query_page_holds.
  - cbn. lia.
  - cbn. lia.
Defined.

Lemma fetch_all_records_keeps_the_pages_before_a_failure_witness :
  find_duplicates.fetch_all_records "t" 3 "people"
    (page_answers [(query_page thousand_records, thousand_records)]
     ++ Failed "timed out" :: [Responded (query_page [PDict []])])%list
  = (Ok (Some (List.concat (List.map snd [(query_page thousand_records, thousand_records)]))),
     [Responded (query_page [PDict []])],
     query_trace (find_duplicates.query_request "t" "people") 0
       (page_answers [(query_page thousand_records, thousand_records)]
        ++ [Failed "timed out"])%list).
Proof.
  apply (fetch_all_records_keeps_the_pages_before_a_failure "t" "people"
           [(query_page thousand_records, thousand_records)]
           (Failed "timed out") [Responded (query_page [PDict []])] 3).
  - constructor; [apply thousand_records_full | constructor].
  - left. reflexivity.
  - cbn. lia.
Defined.

Lemma fetch_all_companies_returns_what_it_fetched_witness :
  merge_duplicates.fetch_all_companies "t" 3
    (page_answers [(query_page thousand_records, thousand_records)]
     ++ Responded (server_error "u") :: [])%list
  = (Ok (Some (List.concat (List.map snd [(query_page thousand_records, thousand_records)])
               ++ [])%list),
     [],
     query_trace (stated_companies_query "t") 0
       (page_answers [(query_page thousand_records, thousand_records)]
        ++ [Responded (server_error "u")])%list).
Proof.
  apply (fetch_all_companies_returns_what_it_fetched "t"
           [(query_page thousand_records, thousand_records)]
           (Responded (server_error "u")) [] [] 3).
  - constructor; [apply thousand_records_full | constructor].
  - right. split; [left; reflexivity | reflexivity].
  - cbn. lia.
Defined.

Import find_duplicates.

(** ** The groups of [find_duplicates] *)

Lemma lower_ascii_idempotent c : lower_ascii (lower_ascii c) = lower_ascii c.
Proof. destruct c as [[] [] [] [] [] [] [] []]; reflexivity. Qed.

Lemma py_lower_idempotent s : py_lower (py_lower s) = py_lower s.
Proof.
  induction s as [|a s IH]; [reflexivity|]. cbn. now rewrite lower_ascii_idempotent, IH.
Qed.

Lemma py_lower_not_empty s : s <> EmptyString -> py_lower s <> EmptyString.
Proof. destruct s; [congruence | discriminate]. Qed.

Lemma py_lower_method_key v key :
  py_truthy v = true -> py_lower_method v = Ok key -> is_lower_key key.
Proof.
  destruct v; try discriminate. cbn. intros Hs [= <-]. split.
  - apply py_lower_not_empty. now destruct s.
  - apply py_lower_idempotent.
Qed.

Section Multimap.
Variable P : string -> pyval -> Prop.

Lemma multimap_append_keys k x m k' :
  In k' (List.map fst (multimap_append k x m)) <-> k' = k \/ In k' (List.map fst m).
Proof.
  induction m as [|[k0 xs] m IH]; cbn.
  - intuition.
  - destruct (String.eqb_spec k k0) as [->|Hne]; cbn; [intuition|].
    rewrite IH. intuition.
Qed.

Lemma multimap_append_grouped k x m :
  P k x -> grouped P m -> grouped P (multimap_append k x m).
Proof.
  intros Hx [Hkeys Hall]. induction m as [|[k0 xs] m IH]; cbn.
  - split; cbn.
    + constructor; [intros [] | constructor].
    + repeat constructor. exact Hx.
  - cbn in Hkeys. inversion Hkeys as [|? ? Hnotin Hkeys']; subst.
    inversion Hall as [|? ? Hxs Hall']; subst. cbn in Hxs.
    destruct (String.eqb_spec k k0) as [->|Hne].
    + split; cbn; [exact Hkeys|]. constructor; [|exact Hall'].
      cbn. apply List.Forall_app. split; [exact Hxs | now constructor].
    + destruct (IH Hkeys' Hall') as [Hkeys'' Hall'']. split; cbn.
      * constructor; [|exact Hkeys''].
        rewrite multimap_append_keys. intros [->|Hin]; [congruence | contradiction].
      * now constructor.
Qed.

Lemma fold_multimap_append_grouped x keys : forall m,
  (forall k, In k keys -> P k x) ->
  grouped P m ->
  grouped P (List.fold_left (fun m k => multimap_append k x m) keys m).
Proof.
  induction keys as [|k keys IH]; intros m Hkeys Hm; [exact Hm|].
  cbn [List.fold_left]. apply IH.
  - intros k' Hk'. apply Hkeys. now right.
  - apply multimap_append_grouped; [apply Hkeys; now left | exact Hm].
Qed.

Lemma more_than_one_grouped m :
  grouped P m -> grouped P (more_than_one m).
Proof.
  intros [Hkeys Hall]. unfold more_than_one. split.
  - induction m as [|kv m IH]; cbn; [constructor|].
    cbn in Hkeys. inversion Hkeys as [|? ? Hnotin Hkeys']; subst.
    inversion Hall as [|? ? _ Hall']; subst.
    destruct (1 <? _); cbn; [|now apply IH].
    constructor; [|now apply IH].
    intros Hin. apply Hnotin. apply List.in_map_iff in Hin as (kv' & <- & Hkv').
    apply List.filter_In in Hkv' as [Hkv' _]. now apply List.in_map.
  - apply List.Forall_forall. intros kv Hkv%List.filter_In.
    destruct Hkv as [Hkv _]. revert kv Hkv. now apply List.Forall_forall.
Qed.
End Multimap.

(** The addresses [extract_emails] keeps are lowercase and non-empty. *)
Lemma extract_emails_keys email_vals : forall emails,
  extract_emails email_vals = Ok emails -> List.Forall is_lower_key emails.
Proof.
  induction email_vals as [|e rest IH]; intros emails; cbn.
  - intros [= <-]. constructor.
  - destruct (py_get e "email_address" PNone) as [addr|]; [|discriminate]. cbn.
    destruct (py_truthy addr) eqn:Haddr; [|apply IH].
    destruct (py_lower_method addr) as [lowered|] eqn:Hlower; [|discriminate]. cbn.
    destruct (extract_emails rest) as [emails'|]; [|discriminate]. cbn.
    intros [= <-]. constructor; [|now apply IH].
    exact (py_lower_method_key _ _ Haddr Hlower).
Qed.

Lemma extract_domains_keys domain_vals : forall domains,
  extract_domains domain_vals = Ok domains -> List.Forall is_lower_key domains.
Proof.
  induction domain_vals as [|e rest IH]; intros domains; cbn.
  - intros [= <-]. constructor.
  - destruct (py_get e "domain" PNone) as [dom|]; [|discriminate]. cbn.
    destruct (py_truthy dom) eqn:Hdom; [|apply IH].
    destruct (py_lower_method dom) as [lowered|] eqn:Hlower; [|discriminate]. cbn.
    destruct (extract_domains rest) as [domains'|]; [|discriminate]. cbn.
    intros [= <-]. constructor; [|now apply IH].
    exact (py_lower_method_key _ _ Hdom Hlower).
Qed.

Lemma add_person_grouped email_map r email_map' :
  add_person email_map r = Ok email_map' ->
  grouped under_address email_map -> grouped under_address email_map'.
Proof.
  unfold add_person.
  destruct (py_getitem r "id") as [id|]; [|discriminate]. cbn [rbind].
  destruct (py_getitem id "record_id") as [rid|]; [|discriminate]. cbn [rbind].
  destruct (py_get r "values" (PDict [])) as [values|]; [|discriminate]. cbn [rbind].
  destruct (extract_full_name values) as [full_name|]; [|discriminate]. cbn [rbind].
  destruct (py_get values "email_addresses" (PList [])) as [email_vals|]; [|discriminate].
  cbn [rbind].
  destruct (py_iter email_vals) as [email_items|]; [|discriminate]. cbn [rbind].
  destruct (extract_emails email_items) as [emails|] eqn:Hemails; [|discriminate].
  cbn [rbind].
  destruct (py_get r "created_at" PNone) as [created_at|]; [|discriminate]. cbn [rbind].
  intros [= <-] Hm. apply fold_multimap_append_grouped; [|exact Hm].
  intros k Hk. split.
  - apply extract_emails_keys in Hemails.
    now apply (proj1 (List.Forall_forall _ _) Hemails).
  - eexists _, _. split; [reflexivity|]. split; [reflexivity|]. now apply List.in_map.
Qed.

Lemma fill_email_map_grouped records : forall email_map email_map',
  fill_email_map email_map records = Ok email_map' ->
  grouped under_address email_map -> grouped under_address email_map'.
Proof.
  induction records as [|r rest IH]; intros email_map email_map'; cbn.
  - now intros [= <-].
  - destruct (add_person email_map r) as [m1|] eqn:Hadd; [|discriminate]. cbn.
    intros Hfill Hm. apply (IH _ _ Hfill). exact (add_person_grouped _ _ _ Hadd Hm).
Qed.

Lemma grouped_nil P : grouped P [].
Proof. split; constructor. Qed.

(** X25: what [process_people] returns is a sound grouping: the keys are
    distinct, lowercase and not empty, every group has at least two entries,
    and every entry of a group lists the key of the group among its
    addresses. *)
Theorem process_people_groups_are_sound records groups :
  process_people records = Ok groups ->
  List.NoDup (List.map fst groups)
  /\ forall key group, In (key, group) groups ->
       (2 <= List.length group)%nat
       /\ key <> EmptyString
       /\ py_lower key = key
       /\ List.Forall (lists_key "emails" key) group.
Proof.
  unfold process_people.
  destruct (fill_email_map [] records) as [email_map|] eqn:Hfill; [|discriminate].
  cbn. intros [= <-].
  pose proof (fill_email_map_grouped _ _ _ Hfill (grouped_nil _)) as Hm.
  destruct (more_than_one_grouped _ _ Hm) as [Hkeys Hall].
  split; [exact Hkeys|]. intros key group Hin.
  pose proof (more_than_one_length _ _ Hin) as Hlen. cbn in Hlen.
  pose proof (proj1 (List.Forall_forall _ _) Hall _ Hin) as Hgroup. cbn in Hgroup.
  split; [lia|].
  destruct group as [|entry group]; [cbn in Hlen; lia|].
  inversion Hgroup as [|? ? [[Hne Hlow] _] _]; subst.
  repeat split; try assumption.
  eapply List.Forall_impl; [|exact Hgroup]. now intros entry' [_ Hlists].
Qed.

Lemma process_people_groups_are_sound_witness :
  List.NoDup (List.map fst
    [("a@b.com", [person_summary "p1" "Ann" "A@b.com" "2024-01-01";
                  person_summary "p2" "Bea" "a@B.com" "2024-02-01"])])
  /\ forall key group,
       In (key, group)
          [("a@b.com", [person_summary "p1" "Ann" "A@b.com" "2024-01-01";
                        person_summary "p2" "Bea" "a@B.com" "2024-02-01"])] ->
       (2 <= List.length group)%nat
       /\ key <> EmptyString
       /\ py_lower key = key
       /\ List.Forall (lists_key "emails" key) group.
Proof.
  apply (process_people_groups_are_sound
           [person "p1" "Ann" ["A@b.com"] "2024-01-01";
            person "p2" "Bea" ["a@B.com"] "2024-02-01"]).
  reflexivity.
Defined.

Lemma add_company_grouped domain_map name_map r domain_map' name_map' :
  add_company (domain_map, name_map) r = Ok (domain_map', name_map') ->
  grouped under_domain domain_map -> grouped under_name name_map ->
  grouped under_domain domain_map' /\ grouped under_name name_map'.
Proof.
  unfold add_company.
  destruct (py_getitem r "id") as [id|]; [|discriminate]. cbn [rbind].
  destruct (py_getitem id "record_id") as [rid|]; [|discriminate]. cbn [rbind].
  destruct (py_get r "values" (PDict [])) as [values|]; [|discriminate]. cbn [rbind].
  destruct (extract_company_name values) as [name|]; [|discriminate]. cbn [rbind].
  destruct (py_get values "domains" (PList [])) as [domain_vals|]; [|discriminate].
  cbn [rbind].
  destruct (py_iter domain_vals) as [domain_items|]; [|discriminate]. cbn [rbind].
  destruct (extract_domains domain_items) as [domains|] eqn:Hdomains; [|discriminate].
  cbn [rbind].
  destruct (py_get r "created_at" PNone) as [created_at|]; [|discriminate]. cbn [rbind].
  cbv zeta. intros Hadd Hd Hn.
  revert Hadd.
  assert (Hd' : grouped under_domain
                  (List.fold_left
                     (fun m d => multimap_append d
                        (PDict [("id", rid); ("name", name);
                                ("domains", PList (List.map PStr domains));
                                ("created_at", created_at)]) m) domains domain_map)).
  { apply fold_multimap_append_grouped; [|exact Hd].
    intros k Hk. split.
    - apply extract_domains_keys in Hdomains.
      now apply (proj1 (List.Forall_forall _ _) Hdomains).
    - eexists _, _. split; [reflexivity|]. split; [reflexivity|]. now apply List.in_map. }
  destruct (is_known_name name) eqn:Hknown.
  - destruct (py_lower_method name) as [key|] eqn:Hkey; [|discriminate].
    cbn [rbind]. intros [= <- <-]. split; [exact Hd'|].
    apply multimap_append_grouped; [|exact Hn].
    unfold is_known_name in Hknown. apply andb_true_iff in Hknown as [Htruthy Hother].
    split; [exact (py_lower_method_key _ _ Htruthy Hkey)|].
    destruct name as [| | | |s| |]; try discriminate.
    cbn in Hkey. injection Hkey as <-.
    eexists _, s. split; [reflexivity|]. split; [reflexivity|].
    split; [now destruct s|]. split; [|reflexivity].
    intros ->. discriminate.
  - intros [= <- <-]. now split.
Qed.

Lemma fill_company_maps_grouped records : forall domain_map name_map domain_map' name_map',
  fill_company_maps (domain_map, name_map) records = Ok (domain_map', name_map') ->
  grouped under_domain domain_map -> grouped under_name name_map ->
  grouped under_domain domain_map' /\ grouped under_name name_map'.
Proof.
  induction records as [|r rest IH]; intros domain_map name_map domain_map' name_map';
    cbn [fill_company_maps].
  - intros [= <- <-]. now split.
  - destruct (add_company (domain_map, name_map) r) as [[d1 n1]|] eqn:Hadd; [|discriminate].
    cbn [rbind]. intros Hfill Hd Hn.
    destruct (add_company_grouped _ _ _ _ _ Hadd Hd Hn) as [Hd1 Hn1].
    exact (IH _ _ _ _ Hfill Hd1 Hn1).
Qed.

(** X26: what [process_companies] returns is a sound pair of groupings. By
    domain: distinct, lowercase, non-empty keys and groups of at least two
    entries that each list the key among their domains. By name: distinct,
    lowercase, non-empty keys and groups of at least two entries, each with a
    name that is text, is not empty and is not ["Unknown"], so unnamed companies
    are never grouped by name; and when such a name is ASCII text the key of
    its group is the name in lower case. *)
Theorem process_companies_groups_are_sound records by_domain by_name :
  process_companies records = Ok (by_domain, by_name) ->
  (List.NoDup (List.map fst by_domain)
   /\ forall key group, In (key, group) by_domain ->
        (2 <= List.length group)%nat
        /\ key <> EmptyString
        /\ py_lower key = key
        /\ List.Forall (lists_key "domains" key) group)
  /\ (List.NoDup (List.map fst by_name)
      /\ forall key group, In (key, group) by_name ->
           (2 <= List.length group)%nat
           /\ key <> EmptyString
           /\ py_lower key = key
           /\ List.Forall (named_as key) group).
Proof.
  unfold process_companies.
  destruct (fill_company_maps ([], []) records) as [[domain_map name_map]|] eqn:Hfill;
    [|discriminate].
  cbn. intros [= <- <-].
  destruct (fill_company_maps_grouped _ _ _ _ _ Hfill (grouped_nil _) (grouped_nil _))
    as [Hd Hn].
  destruct (more_than_one_grouped _ _ Hd) as [Hdkeys Hdall].
  destruct (more_than_one_grouped _ _ Hn) as [Hnkeys Hnall].
  split; (split; [assumption|]); intros key group Hin;
    pose proof (more_than_one_length _ _ Hin) as Hlen; cbn in Hlen.
  - pose proof (proj1 (List.Forall_forall _ _) Hdall _ Hin) as Hgroup. cbn in Hgroup.
    split; [lia|].
    destruct group as [|entry group]; [cbn in Hlen; lia|].
    inversion Hgroup as [|? ? [[Hne Hlow] _] _]; subst.
    repeat split; try assumption.
    eapply List.Forall_impl; [|exact Hgroup]. now intros entry' [_ Hlists].
  - pose proof (proj1 (List.Forall_forall _ _) Hnall _ Hin) as Hgroup. cbn in Hgroup.
    split; [lia|].
    destruct group as [|entry group]; [cbn in Hlen; lia|].
    inversion Hgroup as [|? ? [[Hne Hlow] _] _]; subst.
    repeat split; try assumption.
    eapply List.Forall_impl; [|exact Hgroup]. now intros entry' [_ Hnamed].
Qed.

Lemma process_companies_groups_are_sound_witness :
  (List.NoDup (List.map fst
     [("acme.com", [company_summary "c1" "Acme" ["acme.com"] "2024-01-01";
                    company_summary "c2" "ACME" ["acme.com"; "acme.io"] "2024-02-01"])])
   /\ forall key group,
        In (key, group)
           [("acme.com", [company_summary "c1" "Acme" ["acme.com"] "2024-01-01";
                          company_summary "c2" "ACME" ["acme.com"; "acme.io"]
                            "2024-02-01"])] ->
        (2 <= List.length group)%nat
        /\ key <> EmptyString
        /\ py_lower key = key
        /\ List.Forall (lists_key "domains" key) group)
  /\ (List.NoDup (List.map fst
        [("acme", [company_summary "c1" "Acme" ["acme.com"] "2024-01-01";
                   company_summary "c2" "ACME" ["acme.com"; "acme.io"] "2024-02-01"])])
      /\ forall key group,
           In (key, group)
              [("acme", [company_summary "c1" "Acme" ["acme.com"] "2024-01-01";
                         company_summary "c2" "ACME" ["acme.com"; "acme.io"]
                           "2024-02-01"])] ->
           (2 <= List.length group)%nat
           /\ key <> EmptyString
           /\ py_lower key = key
           /\ List.Forall (named_as key) group).
Proof.
  apply (process_companies_groups_are_sound
           [company_record "c1" "Acme" ["Acme.com"] "2024-01-01";
            company_record "c2" "ACME" ["acme.com"; "ACME.io"] "2024-02-01";
            company_record "c3" "Unknown" ["other.org"] "2024-03-01"]).
  reflexivity.
Defined.

(** X27: one person record that lists the same address of ASCII text twice,
    in any case, is reported as a duplicate of itself: the group of that
    address holds the summary of the record two times. *)
Theorem a_person_with_a_repeated_address_is_its_own_duplicate
    record_id full_name address1 address2 created_at key :
  is_ascii address1 = true ->
  is_ascii address2 = true ->
  key <> EmptyString ->
  py_lower address1 = key ->
  py_lower address2 = key ->
  process_people [person record_id full_name [address1; address2] created_at]
  = Ok [(key, [person_entry record_id full_name [key; key] created_at;
               person_entry record_id full_name [key; key] created_at])].
Proof.
  intros _ _ Hkey H1 H2.
  destruct address1 as [|a1 s1]; [cbn in H1; congruence|].
  destruct address2 as [|a2 s2]; [cbn in H2; congruence|].
  unfold process_people, person. cbn [fill_email_map].
  unfold add_person. cbn [py_getitem dict_lookup String.eqb Ascii.eqb Bool.eqb rbind
                           py_get dict_get_default extract_full_name py_truthy py_first
                           py_iter List.map extract_emails str_is_empty negb
                           py_lower_method].
  rewrite H1, H2. cbn [List.fold_left multimap_append]. rewrite String.eqb_refl.
  cbn. reflexivity.
Qed.

Lemma a_person_with_a_repeated_address_is_its_own_duplicate_witness :
  process_people [person "p1" "Ann" ["Ann@b.com"; "ann@B.com"] "2024-01-01"]
  = Ok [("ann@b.com", [person_entry "p1" "Ann" ["ann@b.com"; "ann@b.com"] "2024-01-01";
                       person_entry "p1" "Ann" ["ann@b.com"; "ann@b.com"] "2024-01-01"])].
Proof.
  apply (a_person_with_a_repeated_address_is_its_own_duplicate
           "p1" "Ann" "Ann@b.com" "ann@B.com" "2024-01-01" "ann@b.com");
    [reflexivity | reflexivity | discriminate | reflexivity | reflexivity].
Defined.

Lemma fill_email_map_app front back : forall email_map,
  fill_email_map email_map (front ++ back)
  = rbind (fill_email_map email_map front) (fun m => fill_email_map m back).
Proof.
  induction front as [|r front IH]; intros email_map; [reflexivity|].
  cbn. destruct (add_person email_map r); [apply IH | reflexivity].
Qed.

(** X28: a record without an [id] stops [process_people] with a [KeyError]:
    the groups of the records before it, and of those after it, are lost. *)
Theorem process_people_raises_without_id front d back groups :
  process_people front = Ok groups ->
  dict_lookup "id" d = None ->
  process_people (front ++ PDict d :: back) = Raise (KeyError (PStr "id")).
Proof.
  unfold process_people. intros Hfront Hid. rewrite fill_email_map_app.
  destruct (fill_email_map [] front) as [email_map|]; [|discriminate].
  cbn [rbind fill_email_map]. unfold add_person. cbn [py_getitem]. rewrite Hid.
  reflexivity.
Qed.

Lemma process_people_raises_without_id_witness :
  process_people
    ([person "p1" "Ann" ["a@b.com"] "2024-01-01"; person "p2" "Bea" ["a@b.com"] "2024-02-01"]
     ++ PDict [("values", PDict [])] :: [])
  = Raise (KeyError (PStr "id")).
Proof.
  apply (process_people_raises_without_id
           [person "p1" "Ann" ["a@b.com"] "2024-01-01";
            person "p2" "Bea" ["a@b.com"] "2024-02-01"]
           [("values", PDict [])] []
           [("a@b.com", [person_summary "p1" "Ann" "a@b.com" "2024-01-01";
                         person_summary "p2" "Bea" "a@b.com" "2024-02-01"])]);
    reflexivity.
Defined.

Import merge_duplicates.

(** ** What [main] of merge_duplicates touches *)

Section MainRuns.
Context {W : Type} `{Server W} (TOKEN : string).

Lemma merge_group_touches recs w :
  recs <> [] ->
  List.Forall (fun r => well_formed r = true) recs ->
  result_of (merge_group TOKEN recs w) = Ok (Some tt)
  /\ List.Forall (touches recs) (requests_of (trace_of (merge_group TOKEN recs w))).
Proof.
  intros Hne Hrecs.
  destruct (merge_plan_exists recs Hne Hrecs)
    as (master & others & all_domains & Hplan & Hagg & Hmaster & Hothers).
  destruct Hplan as (Hsort & Hperm & _ & _ & _).
  assert (Hin : forall o, In o others -> In o recs).
  { intros o Ho. eapply Permutation_in; [symmetry; exact Hperm | now right]. }
  assert (Hin_master : In master recs).
  { eapply Permutation_in; [symmetry; exact Hperm | now left]. }
  assert (Hdeletes : forall t,
            List.Forall (deletes_one_of TOKEN others) (requests_of t) ->
            List.Forall (touches recs) (requests_of t)).
  { intros t Ht. eapply List.Forall_impl; [|exact Ht]. cbn.
    intros r (o & Ho & ->). exists o. auto. }
  rewrite (merge_group_run TOKEN _ _ _ _ _ _ Hsort (join_ids_of_text others Hothers) Hagg).
  rewrite (patch_request_stated TOKEN master _ Hmaster).
  pose proof (delete_others_run TOKEN others w Hothers) as Hdel. cbv zeta in Hdel.
  destruct Hdel as [[-> (outcomes & _ & _ & Htrace)]|[-> Hstop]].
  - split; [reflexivity|]. unfold trace_of at 1. cbn [snd].
    rewrite requests_of_app. apply List.Forall_app. split.
    + apply Hdeletes. rewrite Htrace. apply (delete_trace_only_deletes TOKEN).
    + cbn. constructor; [|constructor]. exists master. auto.
  - split; [reflexivity|]. unfold trace_of at 1. cbn [snd].
    apply Hdeletes. now apply (stopped_only_deletes TOKEN).
Qed.

Lemma merge_all_touches groups : forall w,
  (forall group, In group groups ->
                 snd group <> [] /\ List.Forall (fun r => well_formed r = true) (snd group)) ->
  result_of (merge_all TOKEN groups w) = Ok (Some tt)
  /\ List.Forall (fun r => exists group, In group groups /\ touches (snd group) r)
       (requests_of (trace_of (merge_all TOKEN groups w))).
Proof.
  induction groups as [|group rest IH]; intros w Hgroups.
  - cbn. split; [reflexivity | constructor].
  - cbn [merge_all]. unfold bind.
    destruct (Hgroups group) as [Hne Hrecs]; [now left|].
    destruct (merge_group_touches (snd group) w Hne Hrecs) as [Hres Hreq].
    destruct (merge_group TOKEN (snd group) w) as [[r w1] t1].
    unfold result_of, trace_of in Hres, Hreq. cbn in Hres, Hreq. subst r.
    destruct (IH w1) as [Hres' Hreq']; [intros g Hg; apply Hgroups; now right|].
    destruct (merge_all TOKEN rest w1) as [[r2 w2] t2].
    unfold result_of, trace_of in *. cbn in Hres', Hreq' |- *. subst r2.
    split; [reflexivity|]. rewrite requests_of_app. apply List.Forall_app. split.
    + eapply List.Forall_impl; [|exact Hreq]. cbn. intros r Hr. exists group. auto.
    + eapply List.Forall_impl; [|exact Hreq']. cbn. intros r (g & Hg & Hr). exists g. auto.
Qed.

(** X29: when the records of every name group that holds more than one are
    well formed (identifier, creation time and domains are text), [main]
    does not raise, whatever the service answers; every call it makes is a
    [DELETE] or a [PATCH] of the address of a record of such a group, so a
    company whose name is unique is never touched; and without a token it
    makes no call at all. *)
Theorem main_only_touches_duplicate_groups name_map w :
  (forall key recs, In (key, recs) name_map -> (1 < List.length recs)%nat ->
                    List.Forall (fun r => well_formed r = true) recs) ->
  result_of (main TOKEN name_map w) = Ok (Some tt)
  /\ List.Forall (fun r => exists key recs,
                    In (key, recs) name_map
                    /\ (1 < List.length recs)%nat
                    /\ touches recs r)
       (requests_of (trace_of (main TOKEN name_map w)))
  /\ (TOKEN = EmptyString -> trace_of (main TOKEN name_map w) = []).
Proof.
  intros Hformed. unfold main. destruct (str_is_empty TOKEN) eqn:Htoken.
  - cbn. repeat split; constructor.
  - destruct (merge_all_touches (find_duplicates.more_than_one name_map) w)
      as [Hres Hreq].
    { intros [key recs] Hgroup. pose proof (more_than_one_length _ _ Hgroup) as Hlen.
      apply List.filter_In in Hgroup as [Hin _]. cbn in Hlen |- *. split.
      - destruct recs; [cbn in Hlen; lia | discriminate].
      - now apply (Hformed key). }
    split; [exact Hres|]. split.
    + eapply List.Forall_impl; [|exact Hreq]. cbn.
      intros r ([key recs] & Hgroup & Hr). exists key, recs.
      pose proof (more_than_one_length _ _ Hgroup) as Hlen.
      apply List.filter_In in Hgroup as [Hin _]. auto.
    + intros ->. discriminate.
Qed.

(** A name group whose two leading records carry no creation time makes
    [main] raise at the sort, before any call. *)
Lemma main_raises_on_undated_group key first second rest later w :
  TOKEN <> EmptyString ->
  created_at first = PNone ->
  created_at second = PNone ->
  main TOKEN ((key, first :: second :: rest) :: later) w
  = (Raise (TypeError "'<' not supported between instances of 'NoneType' and 'NoneType'"),
     w, []).
Proof.
  intros Htoken Hfirst Hsecond. unfold main.
  destruct TOKEN; [congruence|]. cbn [str_is_empty find_duplicates.more_than_one List.filter].
  cbn [snd List.length]. replace (1 <? Z.of_nat (S (S (List.length rest)))) with true
    by (symmetry; apply Z.ltb_lt; lia).
  cbn [merge_all snd]. unfold bind.
  now rewrite (merge_group_undated _ first second rest w Hfirst Hsecond).
Qed.
End MainRuns.

Lemma main_only_touches_duplicate_groups_witness :
  result_of (main "t" [("acme", acme); ("solo", [mkCompany PNone PNone [] PNone])]
               [Responded (no_content "u"); Responded (server_error "u")])
  = Ok (Some tt).
Proof.
  apply (main_only_touches_duplicate_groups "t"
           [("acme", acme); ("solo", [mkCompany PNone PNone [] PNone])]
           [Responded (no_content "u"); Responded (server_error "u")]).
  intros key recs [[= <- <-]|[[= <- <-]|[]]] Hlen.
  - repeat constructor.
  - cbn in Hlen. lia.
Defined.

Lemma insert_after_sorted x sorted :
  List.Forall (fun y => String.leb (created_text y) (created_text x) = true) sorted ->
  insert_by_created_at x sorted = (sorted ++ [x])%list.
Proof.
  induction 1 as [|y rest Hy Hrest IH]; [reflexivity|]. cbn.
  unfold created_text, String.leb in Hy. unfold String.ltb.
  rewrite String.compare_antisym.
  destruct (String.compare (text_of (created_at y)) (text_of (created_at x))); cbn;
    try discriminate; now rewrite IH.
Qed.

Lemma in_creation_order_texts recs :
  in_creation_order recs -> List.Forall (fun r => is_str (created_at r) = true) recs.
Proof.
  induction recs as [|x rest IH]; [constructor|]. intros (Hx & _ & Hrest).
  constructor; [exact Hx | now apply IH].
Qed.

(** X30: the sort of a group is stable: a group whose records already come in
    creation order, as the fetch asks for them, is left as it is, so the master
    is its first record even when others share its creation time. *)
Theorem sort_keeps_a_group_in_creation_order recs :
  in_creation_order recs -> sort_by_created_at recs = Some (Ok recs).
Proof.
  intros Hsorted.
  rewrite (sort_by_created_at_texts recs (in_creation_order_texts recs Hsorted)).
  do 2 f_equal. unfold stable_sort.
  enough (Hgen : forall acc,
            List.Forall (fun y => List.Forall (fun x =>
               String.leb (created_text y) (created_text x) = true) recs) acc ->
            List.fold_left (fun sorted x => insert_by_created_at x sorted) recs acc
            = (acc ++ recs)%list)
    by (apply (Hgen []); constructor).
  induction recs as [|x rest IH]; intros acc Hacc; cbn [List.fold_left].
  - now rewrite app_nil_r.
  - destruct Hsorted as (_ & Hx & Hrest).
    rewrite insert_after_sorted.
    + rewrite IH; [now rewrite <- app_assoc | exact Hrest |].
      apply List.Forall_app. split.
      * eapply List.Forall_impl; [|exact Hacc]. cbn. intros y Hy. now inversion Hy.
      * constructor; [exact Hx | constructor].
    + eapply List.Forall_impl; [|exact Hacc]. cbn. intros y Hy. now inversion Hy.
Qed.

Lemma sort_keeps_a_group_in_creation_order_witness :
  sort_by_created_at
    [mkCompany (PStr "rec-a") (PStr "Acme") [PStr "a.com"] (PStr "2024-01-01T00:00:00Z");
     mkCompany (PStr "rec-b") (PStr "Acme") [PStr "b.com"] (PStr "2024-01-01T00:00:00Z");
     mkCompany (PStr "rec-c") (PStr "ACME") [PStr "c.com"] (PStr "2024-03-01T00:00:00Z")]
  = Some (Ok
    [mkCompany (PStr "rec-a") (PStr "Acme") [PStr "a.com"] (PStr "2024-01-01T00:00:00Z");
     mkCompany (PStr "rec-b") (PStr "Acme") [PStr "b.com"] (PStr "2024-01-01T00:00:00Z");
     mkCompany (PStr "rec-c") (PStr "ACME") [PStr "c.com"] (PStr "2024-03-01T00:00:00Z")]).
Proof.
  apply sort_keeps_a_group_in_creation_order.
  cbn. repeat split; repeat constructor.
Defined.
